(** * MAD3PG learner: a shallow embedding of [Agents/MAD4PG]

    The development follows the two source files of the agent:

    - [networks.py]: the factory [make_default_MAD3PGNetworks];
    - [learning.py]: the learner [MAD3PGLearner] ([_step],
      [_replicated_step], [step]) and the helper
      [average_gradients_across_replicas].

    Python objects that are mutated or shared (network modules, TensorFlow
    variables, optimizers) are references into explicit stores; exceptions
    are values of an error type, and a computation that raises keeps the
    state it had reached.  TensorFlow, Sonnet and Acme are an interface
    ([Framework]) whose operations the learner only calls.  The statements
    of a function run in the order they are written; a loop variable of
    [tf.range] selects list elements as the integer it holds, and what [str]
    makes of it is left to the interface. *)

From Stdlib Require Import ZArith QArith Qround Qminmax Reals Lra Psatz.
From stdpp Require Import base functions gmap sets list strings pretty.

Local Open Scope nat_scope.

(** ** Exceptions and the error monad *)

Inductive error : Type :=
  | AttributeError (name : string)
  | KeyError (key : string)
  | IndexError
  | InvalidArgumentError
  | ValueError
  | StopIteration.

Inductive result (A : Type) : Type :=
  | Ok (a : A)
  | Err (e : error).
Arguments Ok {A} a.
Arguments Err {A} e.

#[global] Instance result_ret : MRet result := fun A a => Ok a.
#[global] Instance result_bind : MBind result :=
  fun A B f m => match m with Ok a => f a | Err e => Err e end.
#[global] Instance result_fmap : FMap result :=
  fun A B f m => match m with Ok a => Ok (f a) | Err e => Err e end.

Definition is_Ok {A} (r : result A) : Prop := ∃ a, r = Ok a.

(** [xs[i]] on a Python list, for an index that is not negative. *)
Definition py_index {A} (xs : list A) (i : nat) : result A :=
  match xs !! i with
  | Some x => Ok x
  | None => Err IndexError
  end.

(** ** [networks.py] *)

Module Networks.

(** The layers the factory composes; their parameters are created by
    Sonnet and are attached to the module object that holds the layer. *)
Inductive layer : Type :=
  | LayerNormMLP (layer_sizes : list Z) (activate_final : bool)
  | NearZeroInitializedLinear (output_size : Z)
  | TanhToSpec (spec_shape : list Z)
  | CriticMultiplexer
  | DiscreteValuedHead (vmin vmax : Q) (num_atoms : Z).

(** A network is a reference: either a module object allocated on the heap
    by [snt.Sequential], or the module-level function
    [tf2_utils.batch_concat]. *)
Inductive network : Type :=
  | Object (address : nat)
  | batch_concat.

#[global] Instance network_eq_dec : EqDecision network.
Proof. solve_decision. Defined.

(** The heap of [snt.Sequential] objects; an address is a position. *)
Definition heap : Type := list (list layer).

Definition Sequential (layers : list layer) (h : heap) : network * heap :=
  (Object (length h), h ++ [layers]).

Record BoundedArray : Type := { shape : list Z }.

Record MAD3PGNetworks : Type := {
  policy_networks : list network;
  critic_networks : list network;
  observation_networks : list network;
}.

(** [int64] arithmetic wraps around. *)
Definition wrap_int64 (z : Z) : Z := ((z + 2 ^ 63) mod 2 ^ 64 - 2 ^ 63)%Z.

(** [np.prod(shape, dtype=int)]: the product of the dimensions, from left
    to right, in [int64]. *)
Definition np_prod (shape : list Z) : Z :=
  foldl (fun product dimension => wrap_int64 (product * dimension)) 1%Z shape.

(** [[x for _ in range(n)]] *)
Definition repeat_for_range {A} (x : A) (n : Z) : list A :=
  (fun _ => x) <$> seq 0 (Z.to_nat n).

Definition make_policy_network (action_spec : BoundedArray)
    (policy_layer_sizes : list Z) (h : heap) : network * heap :=
  let num_dimensions := np_prod (shape action_spec) in
  Sequential [ LayerNormMLP policy_layer_sizes true;
               NearZeroInitializedLinear num_dimensions;
               TanhToSpec (shape action_spec) ] h.

(** [action_spec] defaults to [None]; reading [.shape] of [None] raises. *)
Definition make_default_MAD3PGNetworks (action_spec : option BoundedArray)
    (policy_layer_sizes critic_layer_sizes : list Z) (vmin vmax : Q)
    (num_atoms : Z) (edge_number : Z) (h : heap)
    : result MAD3PGNetworks * heap :=
  match action_spec with
  | None => (Err (AttributeError "shape"), h)
  | Some spec =>
    let num_dimensions := np_prod (shape spec) in
    let observation_network := batch_concat in
    let '(policy_network, h1) :=
      Sequential [ LayerNormMLP policy_layer_sizes true;
                   NearZeroInitializedLinear num_dimensions;
                   TanhToSpec (shape spec) ] h in
    let '(critic_network, h2) :=
      Sequential [ CriticMultiplexer;
                   LayerNormMLP critic_layer_sizes true;
                   DiscreteValuedHead vmin vmax num_atoms ] h1 in
    (Ok {| policy_networks := repeat_for_range policy_network edge_number;
           critic_networks := repeat_for_range critic_network edge_number;
           observation_networks :=
             repeat_for_range observation_network edge_number |}, h2)
  end.

(** Two agents own independent copies when their entries are different
    objects. *)
Definition independent_copies (nets : list network) : Prop :=
  ∀ i j a b, i ≠ j → nets !! i = Some a → nets !! j = Some b → a ≠ b.

End Networks.

(** ** Tensors

    A rank-2 tensor is the list of its rows and a rank-3 tensor the list of
    its per-sample matrices; tensors are rectangular.  The operations below
    are the TensorFlow operations the learner applies to them, with the
    errors TensorFlow reports for inconsistent shapes. *)

Section Tensors.
Context {A : Type}.

(** [t[:, i, :]] on rank 3 and [t[:, i]] on rank 2. *)
Definition select_axis1 (t : list (list A)) (i : nat) : result (list A) :=
  mapM (fun row => match row !! i with
                   | Some x => Ok x
                   | None => Err InvalidArgumentError
                   end) t.

(** [tf.concat(ts, axis=1)] on rank-2 tensors. *)
Definition concat_axis1 (ts : list (list (list A))) : result (list (list A)) :=
  match ts with
  | [] => Err ValueError
  | t :: ts' =>
    if forallb (fun u => length u =? length t) ts'
    then Ok (foldl (zip_with app) t ts')
    else Err InvalidArgumentError
  end.

(** [k] consecutive blocks of [n] elements. *)
Fixpoint blocks (k n : nat) (l : list A) : list (list A) :=
  match k with
  | 0 => []
  | S k' => take n l :: blocks k' n (drop n l)
  end.

(** [tf.stack(ts, axis=0)] on rank-1 tensors. *)
Definition tf_stack (ts : list (list A)) : result (list (list A)) :=
  match ts with
  | [] => Err ValueError
  | t :: ts' =>
    if forallb (fun u => length u =? length t) ts'
    then Ok ts
    else Err InvalidArgumentError
  end.
End Tensors.

(** [tf.reshape(t, shape=[batch_size, -1])]: the elements in row-major
    order, cut into [batch_size] rows. *)
Definition reshape_rows {A} (batch_size : nat) (t : list (list A))
    : result (list (list A)) :=
  let flat := mjoin t in
  if batch_size =? 0 then Err InvalidArgumentError
  else if length flat mod batch_size =? 0
       then Ok (blocks batch_size (length flat / batch_size) flat)
       else Err InvalidArgumentError.

(** [tf.reshape(t, shape=[batch_size, edge_number, edge_action_size])] *)
Definition reshape_edges {A} (batch_size edge_number edge_action_size : nat)
    (t : list (list A)) : result (list (list (list A))) :=
  let flat := mjoin t in
  if length flat =? batch_size * edge_number * edge_action_size
  then Ok (blocks edge_number edge_action_size
             <$> blocks batch_size (edge_number * edge_action_size) flat)
  else Err InvalidArgumentError.

(** ** The gradient tape

    A [tf.Variable] is a reference.  Inside [tf.GradientTape] every tensor
    carries the set of variables it is connected to by a differentiable
    path; [tf.stop_gradient] cuts the path, and [tape.gradient] answers
    [None] for a variable the loss is not connected to. *)

Definition var : Type := nat.

Record traced (A : Type) : Type := Traced {
  value : A;
  watched : gset var;
}.
Arguments Traced {A} value watched.
Arguments value {A} t.
Arguments watched {A} t.

Definition constant {A} (a : A) : traced A := Traced a ∅.

Definition stop_gradient {A} (x : traced A) : traced A := Traced (value x) ∅.

(** An operation of one tensor keeps its connections. *)
Definition on_value {A B} (f : A → result B) (x : traced A) : result (traced B) :=
  v ← f (value x); mret (Traced v (watched x)).

Definition concat_axis1_t {A} (ts : list (traced (list (list A))))
    : result (traced (list (list A))) :=
  v ← concat_axis1 (value <$> ts); mret (Traced v (⋃ (watched <$> ts))).

(** A loop whose body may raise. *)
Fixpoint for_loop {S I} (body : S → I → result S) (s : S) (range : list I)
    : result S :=
  match range with
  | [] => Ok s
  | i :: range' => s' ← body s i; for_loop body s' range'
  end.

(** ** [average_gradients_across_replicas] *)

Section Replicas.
Context {G : Type}.

(** [tf.distribute.get_replica_context()]: the learner uses its
    [all_reduce('mean', values)] only. *)
Record ReplicaContext : Type := { all_reduce_mean : list G → list G }.

(** [[g for g in gradients if g is not None]] *)
Definition without_nones (gradients : list (option G)) : list G :=
  omap (fun g : option G => g) gradients.

Definition average_gradients_across_replicas
    (replica_context : ReplicaContext) (gradients : list (option G))
    : list (option G) :=
  let gradients_without_nones := without_nones gradients in
  let original_indices :=
    fst <$> filter (fun ig => is_Some (snd ig)) (imap pair gradients) in
  let results_without_nones :=
    all_reduce_mean replica_context gradients_without_nones in
  let results := replicate (length gradients) None in
  foldl (fun results '(ii, result) => <[ii := Some result]> results)
        results (zip original_indices results_without_nones).

(** The collective as one replica sees it: every replica of the group
    calls [all_reduce] with a list of the same length, and each receives,
    position by position, the mean of the values contributed; [peers] are
    the lists the other replicas contribute. *)
Definition cross_replica (mean : list G → G) (peers : list (list G))
    : ReplicaContext :=
  {| all_reduce_mean := fun mine =>
       imap (fun k g => mean (g :: omap (fun p => p !! k) peers)) mine |}.

(** The same function runs on every replica, so the peers contribute their
    own [gradients_without_nones]. *)
Definition replica_group (mean : list G → G)
    (others : list (list (option G))) : ReplicaContext :=
  cross_replica mean (without_nones <$> others).

Definition defined (g : option G) : bool :=
  match g with Some _ => true | None => false end.
End Replicas.
Arguments ReplicaContext G : clear implicits.

(** ** [learning.py]: what the learner is given *)

(** [types.Transition], the [data] of a replay sample:
    [observation[B,N,Do]], [action[B,N*Da]], [reward[B,N]], [discount[B]],
    [next_observation[B,N,Do]]. *)
Record Transition (F : Type) : Type := {
  observation : list (list (list F));
  action : list (list F);
  reward : list (list F);
  discount : list F;
  next_observation : list (list (list F));
}.
Arguments observation {F} t.
Arguments action {F} t.
Arguments reward {F} t.
Arguments discount {F} t.
Arguments next_observation {F} t.

Inductive loss_kind : Type := PolicyLoss | CriticLoss.

(** TensorFlow, Sonnet and Acme as the learner uses them.  Tensor elements,
    variable values, gradients, value distributions and optimizer slots are
    kept abstract; the operations are the library calls of [learning.py]. *)
Class Framework : Type := {
  scalar : Type;
  param : Type;
  grad : Type;
  dist : Type;
  opt_state : Type;
  (** [str(i)] for the loop variable [i] of [for i in tf.range(n)], which
      is a tensor and not a Python integer *)
  tensor_str : nat → string;
  (** [*] on float64 tensors, elementwise *)
  scalar_mul : scalar → scalar → scalar;
  (** [tf.reduce_mean] over all elements *)
  reduce_mean : list scalar → scalar;
  (** [DiscreteValuedDistribution.mean()], one value per sample *)
  dist_mean : dist → list scalar;
  (** [acme.tf.losses.categorical(q_tm1, r_t, d_t, q_t)] *)
  losses_categorical :
    traced dist → list scalar → list scalar → traced dist → traced (list scalar);
  (** [acme.tf.losses.dpg(q_max, a_max, tape, dqda_clipping, clip_norm)] *)
  losses_dpg :
    traced (list scalar) → traced (list (list scalar)) → option Q → bool →
    result (traced (list scalar));
  (** the value [tape.gradient] finds for a variable the loss is connected to *)
  backward : (var → param) → Transition scalar → loss_kind → nat → var → grad;
  (** [tf.clip_by_global_norm(t_list, clip_norm)[0]] *)
  clip_by_global_norm : list (option grad) → Q → list (option grad);
  (** one optimizer update of a variable, and of the optimizer's own slots *)
  optimizer_update : opt_state → grad → param → param;
  optimizer_next : opt_state → list (option grad) → opt_state;
  (** [tf.distribute.get_replica_context()] *)
  replica_context : ReplicaContext grad;
  (** [replicator.reduce(MEAN, value, axis=None)] *)
  replicator_reduce : list scalar → list scalar;
}.

(** The structure [tree.map_structure] walks: a tensor or a list of
    structures. *)
#[warnings="-register-all"]
Inductive nest (T : Type) : Type :=
  | Leaf (t : T)
  | Seq (items : list (nest T)).
Arguments Leaf {T} t.
Arguments Seq {T} items.

Fixpoint map_structure {T U} (f : T → U) (n : nest T) : nest U :=
  match n with
  | Leaf t => Leaf (f t)
  | Seq items => Seq (map_structure f <$> items)
  end.

(** [tf.int32] arithmetic wraps around. *)
Definition wrap_int32 (z : Z) : Z := ((z + 2 ^ 31) mod 2 ^ 32 - 2 ^ 31)%Z.

(** [tf.math.mod] on integers is the floored remainder; a zero divisor is
    an error. *)
Definition tf_math_mod (x y : Z) : result Z :=
  if (y =? 0)%Z then Err InvalidArgumentError else Ok (x mod y)%Z.

Section Learner.
Context `{Framework}.

Abbreviation tensor1 := (list scalar).
Abbreviation tensor2 := (list (list scalar)).
Abbreviation tensor3 := (list (list (list scalar))).

(** A Sonnet module: the variables it owns and the function it computes
    from their values.  All variables of the agent's networks are
    trainable. *)
Record SntModule (I O : Type) : Type := {
  variables : list var;
  forward : list param → I → O;
}.
Arguments variables {I O} _.
Arguments forward {I O} _.

Definition call {I O} (m : SntModule I O) (σ : var → param) (x : traced I)
    : traced O :=
  Traced (forward m (σ <$> variables m) (value x))
         (list_to_set (variables m) ∪ watched x).

Definition call2 {I J O} (m : SntModule (I * J) O) (σ : var → param)
    (x : traced I) (y : traced J) : traced O :=
  Traced (forward m (σ <$> variables m) (value x, value y))
         (list_to_set (variables m) ∪ watched x ∪ watched y).

Definition policy_module : Type := SntModule tensor2 tensor2.
Definition critic_module : Type := SntModule (tensor2 * tensor2) dist.
Definition observation_module : Type := SntModule tensor2 tensor2.

(** The attributes [__init__] assigns; [_edge_policy_networks] is not one
    of them.  An optimizer is a reference to its slots; [edge_number] and
    [edge_action_size] are given, as natural numbers. *)
Record MAD3PGLearner : Type := {
  _policy_networks : list policy_module;
  _critic_networks : list critic_module;
  _target_policy_networks : list policy_module;
  _target_critic_networks : list critic_module;
  _observation_networks : list observation_module;
  _target_observation_networks : list observation_module;
  _discount : scalar;
  _clipping : bool;
  _target_update_period : Z;
  _policy_optimizers : list nat;
  _critic_optimizers : list nat;
  _edge_number : nat;
  _edge_action_size : nat;
}.

(** What a step mutates: the values of the variables, the step counter
    [_num_steps], the slots of the optimizers, and the iterator. *)
Record State : Type := {
  values : var → param;
  _num_steps : Z;
  slots : nat → opt_state;
  _iterator : list (Transition scalar);
}.

Definition fetches : Type := gmap string (nest tensor1).

(** *** [_step]: the joint target action (lines 188-196) *)

(** [d[key]] on a Python dictionary. *)
Definition py_getitem {V} (d : gmap string V) (key : string) : result V :=
  match d !! key with
  | Some v => Ok v
  | None => Err (KeyError key)
  end.

(** Lines 188-194: the dictionary [a_t_dict] is written in a loop over
    [tf.range], under the keys [str(i)] of the loop variable. *)
Definition a_t_dict (self : MAD3PGLearner) (σ : var → param)
    (transitions : Transition scalar)
    : result (gmap string (traced tensor2)) :=
  for_loop (fun (a_t_dict : gmap string (traced tensor2)) i =>
      observation ← select_axis1 (observation transitions) i;
      target_observation_network ← py_index (_target_observation_networks self) i;
      let o_t := call target_observation_network σ (constant observation) in
      let o_t := stop_gradient o_t in
      target_policy_network ← py_index (_target_policy_networks self) i;
      let a_t := call target_policy_network σ o_t in
      mret (<[tensor_str i := a_t]> a_t_dict))
    ∅ (seq 0 (length (_target_observation_networks self))).

(** Line 196: it is read back in a comprehension over [range], under the
    keys [str(i)] of Python integers (their decimal digits). *)
Definition edge_a_t (self : MAD3PGLearner) (σ : var → param)
    (transitions : Transition scalar) : result (traced tensor2) :=
  a_t_dict ← a_t_dict self σ transitions;
  a_ts ← mapM (fun i => py_getitem a_t_dict (pretty i))
              (seq 0 (length (_target_observation_networks self)));
  concat_axis1_t a_ts.

(** [tf.reshape(edge_a_t, shape=[batch_size, edge_number,
    edge_action_size])[:, i, :]] *)
Definition edge_slice (self : MAD3PGLearner) (batch_size : nat)
    (edge_a_t : traced tensor2) (i : nat) : result (traced tensor2) :=
  reshaped ← on_value (reshape_edges batch_size (_edge_number self)
                         (_edge_action_size self)) edge_a_t;
  on_value (fun t => select_axis1 t i) reshaped.

(** *** [_step]: the action the actor loss is computed on (lines 217-226) *)
Definition dpg_a_t (self : MAD3PGLearner) (σ : var → param)
    (batch_size : nat) (edge_a_t o_t : traced tensor2) (edge_index : nat)
    : result (traced tensor2) :=
  dpg_a_t ← (if edge_index =? 0
             then policy_network ← py_index (_policy_networks self) edge_index;
                  mret (call policy_network σ o_t)
             else edge_slice self batch_size edge_a_t 0);
  for_loop (fun dpg_a_t i =>
      if negb (i =? 0) && negb (i =? edge_index)
      then other ← edge_slice self batch_size edge_a_t i;
           concat_axis1_t [dpg_a_t; other]
      else if negb (i =? 0) && (i =? edge_index)
      then Err (AttributeError "_edge_policy_networks")
      else mret dpg_a_t)
    dpg_a_t (seq 0 (_edge_number self)).

(** *** [_step]: one iteration of the loop over the edges (lines 198-239) *)

(** Lines 200-215: the encoded next observation [o_t] and the critic
    loss. *)
Definition critic_learning (self : MAD3PGLearner) (σ : var → param)
    (transitions : Transition scalar) (batch_size : nat)
    (cast_discount : scalar) (edge_a_t : traced tensor2) (edge_index : nat)
    : result (traced tensor2 * traced tensor1) :=
  observation_network ← py_index (_observation_networks self) edge_index;
  observation ← select_axis1 (observation transitions) edge_index;
  let o_tm1 := call observation_network σ (constant observation) in
  target_observation_network ←
    py_index (_target_observation_networks self) edge_index;
  next_observation ← select_axis1 (next_observation transitions) edge_index;
  let o_t := call target_observation_network σ (constant next_observation) in
  let o_t := stop_gradient o_t in
  (* Critic learning. *)
  critic_network ← py_index (_critic_networks self) edge_index;
  batch_action ← reshape_rows batch_size (action transitions);
  let q_tm1 := call2 critic_network σ o_tm1 (constant batch_action) in
  target_critic_network ← py_index (_target_critic_networks self) edge_index;
  joint_action ← on_value (reshape_rows batch_size) edge_a_t;
  let q_t := call2 target_critic_network σ o_t joint_action in
  (* Critic loss. *)
  r_t ← select_axis1 (reward transitions) edge_index;
  let d_t := scalar_mul cast_discount <$> discount transitions in
  let critic_loss := losses_categorical q_tm1 r_t d_t q_t in
  mret (o_t, critic_loss).

(** Lines 217-239: the policy loss. *)
Definition actor_learning (self : MAD3PGLearner) (σ : var → param)
    (batch_size : nat) (edge_a_t o_t : traced tensor2) (edge_index : nat)
    : result (traced tensor1) :=
  (* Actor learning *)
  dpg_a_t ← dpg_a_t self σ batch_size edge_a_t o_t edge_index;
  critic_network ← py_index (_critic_networks self) edge_index;
  let dpg_z_t := call2 critic_network σ o_t dpg_a_t in
  let dpg_q_t := Traced (dist_mean (value dpg_z_t)) (watched dpg_z_t) in
  (* Actor loss. *)
  let dqda_clipping := if _clipping self then Some 1%Q else None in
  losses_dpg dpg_q_t edge_a_t dqda_clipping (_clipping self).

Definition edge_losses (self : MAD3PGLearner) (σ : var → param)
    (transitions : Transition scalar) (batch_size : nat)
    (cast_discount : scalar) (edge_a_t : traced tensor2) (edge_index : nat)
    : result (traced tensor1 * traced tensor1) :=
  '(o_t, critic_loss) ← critic_learning self σ transitions batch_size
                          cast_discount edge_a_t edge_index;
  policy_loss ← actor_learning self σ batch_size edge_a_t o_t edge_index;
  mret (critic_loss, policy_loss).

(** *** [_step]: everything under the tape (lines 178-243) *)
Definition losses (self : MAD3PGLearner) (σ : var → param)
    (transitions : Transition scalar)
    : result (list (traced tensor1) * list (traced tensor1)) :=
  let cast_discount := _discount self in
  let batch_size := length (observation transitions) in
  edge_a_t ← edge_a_t self σ transitions;
  per_edge ← mapM (edge_losses self σ transitions batch_size cast_discount
                               edge_a_t)
                  (seq 0 (_edge_number self));
  let critic_losses := fst <$> per_edge in
  let policy_losses := snd <$> per_edge in
  (* the means are computed and not used afterwards *)
  stacked ← tf_stack (value <$> critic_losses);
  let critic_loss := reduce_mean (mjoin stacked) in
  stacked ← tf_stack (value <$> policy_losses);
  let policy_loss := reduce_mean (mjoin stacked) in
  mret (critic_losses, policy_losses).

(** *** Mutation: a computation that may raise and leaves the state it
    reached *)
Definition stateful (A : Type) : Type := State → result A * State.

#[global] Instance stateful_ret : MRet stateful := fun A a st => (Ok a, st).
#[global] Instance stateful_bind : MBind stateful := fun A B f m st =>
  match m st with
  | (Ok a, st') => f a st'
  | (Err e, st') => (Err e, st')
  end.

Definition raise_or_return {A} (r : result A) : stateful A := fun st => (r, st).
Definition get_state : stateful State := fun st => (Ok st, st).
Definition put_state (st : State) : stateful unit := fun _ => (Ok tt, st).

(** [tape.gradient(target, sources)] *)
Definition tape_gradient (σ : var → param) (transitions : Transition scalar)
    (kind : loss_kind) (edge_index : nat) (target : traced tensor1)
    (sources : list var) : list (option grad) :=
  (fun v => if decide (v ∈ watched target)
            then Some (backward σ transitions kind edge_index v)
            else None) <$> sources.

(** [optimizer.apply_gradients(zip(gradients, variables))]: every variable
    that has a gradient is updated, and the optimizer's slots move on. *)
Definition apply_gradients (optimizer : nat)
    (grads_and_vars : list (option grad * var)) : stateful unit :=
  st ← get_state;
  let s := slots st optimizer in
  put_state
    {| values := foldl (fun σ '(g, v) =>
                          match g with
                          | Some g => <[v := optimizer_update s g (σ v)]> σ
                          | None => σ
                          end) (values st) grads_and_vars;
       _num_steps := _num_steps st;
       slots := <[optimizer := optimizer_next s (fst <$> grads_and_vars)]>
                  (slots st);
       _iterator := _iterator st |}.

(** Lines 265-268, for one of the two lists of gradient lists. *)
Definition maybe_clip {G} (clip : list (option G) → Q → list (option G))
    (clipping : bool) (gradients : list (list (option G)))
    : list (list (option G)) :=
  if clipping then (fun gradient => clip gradient 40%Q) <$> gradients
  else gradients.

(** Lines 270-275. *)
Definition apply_all (self : MAD3PGLearner)
    (policy_gradients critic_gradients : list (list (option grad)))
    (policy_variables critic_variables : list (list var)) : stateful unit :=
  fun st =>
    foldl (fun (acc : result unit * State) edge_index =>
             match acc with
             | (Err e, st) => (Err e, st)
             | (Ok _, st) =>
               (policy_optimizer ← raise_or_return
                  (py_index (_policy_optimizers self) edge_index);
                policy_gradient ← raise_or_return
                  (py_index policy_gradients edge_index);
                policy_variable ← raise_or_return
                  (py_index policy_variables edge_index);
                apply_gradients policy_optimizer
                  (zip policy_gradient policy_variable);;
                critic_optimizer ← raise_or_return
                  (py_index (_critic_optimizers self) edge_index);
                critic_gradient ← raise_or_return
                  (py_index critic_gradients edge_index);
                critic_variable ← raise_or_return
                  (py_index critic_variables edge_index);
                apply_gradients critic_optimizer
                  (zip critic_gradient critic_variable)) st
             end)
          (Ok tt, st) (seq 0 (_edge_number self)).

(** Lines 245-260: the variables and the reduced gradients of each edge. *)
Definition edge_gradients (σ : var → param) (transitions : Transition scalar)
    (kind : loss_kind) (edge_number : nat)
    (per_edge_loss : list (traced tensor1))
    (per_edge_variables : list (list var))
    : result (list (list (option grad))) :=
  mapM (fun edge_index =>
      loss ← py_index per_edge_loss edge_index;
      sources ← py_index per_edge_variables edge_index;
      mret (average_gradients_across_replicas replica_context
              (tape_gradient σ transitions kind edge_index loss sources)))
    (seq 0 edge_number).

Definition _step (self : MAD3PGLearner) (sample : Transition scalar)
    : stateful fetches :=
  let transitions := sample in
  st ← get_state;
  let σ := values st in
  '(critic_losses, policy_losses) ← raise_or_return (losses self σ transitions);
  (* Get trainable variables. *)
  let policy_variables := variables <$> _policy_networks self in
  let critic_variables :=
    zip_with (fun observation_network critic_network =>
                variables observation_network ++ variables critic_network)
             (_observation_networks self) (_critic_networks self) in
  (* Compute gradients. *)
  policy_gradients ← raise_or_return
    (edge_gradients σ transitions PolicyLoss (_edge_number self)
                    policy_losses policy_variables);
  critic_gradients ← raise_or_return
    (edge_gradients σ transitions CriticLoss (_edge_number self)
                    critic_losses critic_variables);
  (* Maybe clip gradients. *)
  let policy_gradients :=
    maybe_clip clip_by_global_norm (_clipping self) policy_gradients in
  let critic_gradients :=
    maybe_clip clip_by_global_norm (_clipping self) critic_gradients in
  (* Apply gradients. *)
  apply_all self policy_gradients critic_gradients
            policy_variables critic_variables;;
  (* Losses to track. *)
  mret (<["policy_losses" := Seq (Leaf ∘ value <$> policy_losses)]>
        (<["critic_losses" := Seq (Leaf ∘ value <$> critic_losses)]> ∅)).

(** *** [_replicated_step] *)

(** The variables of the observation network, of the critic and of the
    policy of each edge, unpacked into one tuple in this order; [zip]
    stops at the shortest list. *)
Definition edge_variables (observation_networks : list observation_module)
    (critic_networks : list critic_module)
    (policy_networks : list policy_module) : list (list var) :=
  zip_with (fun observation_network cp =>
              variables observation_network ++ variables (fst cp)
                ++ variables (snd cp))
           observation_networks (zip critic_networks policy_networks).

(** The two nested loops of [dest.assign(src)]. *)
Definition assign_all (online_variables target_variables : list (list var))
    (σ : var → param) : var → param :=
  foldl (fun σ '(online, target) =>
           foldl (fun σ '(src, dest) => <[dest := σ src]> σ)
                 σ (zip online target))
        σ (zip online_variables target_variables).

(** [next(self._iterator)] *)
Definition next_sample : stateful (Transition scalar) := fun st =>
  match _iterator st with
  | [] => (Err StopIteration, st)
  | sample :: rest =>
    (Ok sample, {| values := values st; _num_steps := _num_steps st;
                   slots := slots st; _iterator := rest |})
  end.

Definition _replicated_step (self : MAD3PGLearner) : stateful fetches :=
  (* Update target network *)
  let online_variables :=
    edge_variables (_observation_networks self) (_critic_networks self)
                   (_policy_networks self) in
  let target_variables :=
    edge_variables (_target_observation_networks self)
                   (_target_critic_networks self)
                   (_target_policy_networks self) in
  st ← get_state;
  remainder ← raise_or_return
    (tf_math_mod (_num_steps st) (_target_update_period self));
  let σ := if bool_decide (remainder = 0%Z)
           then assign_all online_variables target_variables (values st)
           else values st in
  put_state {| values := σ;
               _num_steps := wrap_int32 (_num_steps st + 1);
               slots := slots st; _iterator := _iterator st |};;
  sample ← next_sample;
  replicated_fetches ← _step self sample;
  let fetches := map_structure replicator_reduce <$> replicated_fetches in
  mret fetches.

(** [step]: the learning step, then the bookkeeping of the counter, the
    checkpointer, the snapshotter and the logger, which are not part of
    [State]. *)
Definition step (self : MAD3PGLearner) : stateful unit :=
  fetches ← _replicated_step self; mret tt.
End Learner.
Arguments variables {_ I O} _.
Arguments forward {_ I O} _.

(** * Properties *)

(** ** [make_default_MAD3PGNetworks] *)

Section NetworksFacts.
Import Networks.

Lemma repeat_for_range_replicate {A} (x : A) (n : Z) :
  repeat_for_range x n = replicate (Z.to_nat n) x.
Proof.
  unfold repeat_for_range. generalize 0 at 1.
  induction (Z.to_nat n) as [|k IH]; intros s; simpl; [done|].
  by rewrite IH.
Qed.

Lemma replicate_same {A} (x : A) k i j a b :
  replicate k x !! i = Some a → replicate k x !! j = Some b → a = b.
Proof.
  intros [-> _]%lookup_replicate_1 [-> _]%lookup_replicate_1. done.
Qed.

Lemma replicate_not_independent (x : network) k :
  2 ≤ k → ¬ independent_copies (replicate k x).
Proof.
  intros Hk Hind.
  apply (Hind 0 1 x x); [lia | | | done];
    apply lookup_replicate_2; lia.
Qed.
End NetworksFacts.

(** C10. For every [edge_number], the factory allocates one policy object
    and one critic object and returns three lists whose entries are all the
    same reference (the one policy object, the one critic object, the one
    observation function), [edge_number] times; with two edges or more no
    list holds independent copies. *)
Theorem make_default_MAD3PGNetworks_shares_one_network
    (spec : Networks.BoundedArray) (policy_layer_sizes critic_layer_sizes : list Z)
    (vmin vmax : Q) (num_atoms edge_number : Z) (h : Networks.heap) :
  ∃ nets h' policy_network critic_network,
    Networks.make_default_MAD3PGNetworks (Some spec) policy_layer_sizes
      critic_layer_sizes vmin vmax num_atoms edge_number h = (Ok nets, h')
    ∧ Networks.policy_networks nets
        = replicate (Z.to_nat edge_number) policy_network
    ∧ Networks.critic_networks nets
        = replicate (Z.to_nat edge_number) critic_network
    ∧ Networks.observation_networks nets
        = replicate (Z.to_nat edge_number) Networks.batch_concat
    ∧ (∀ nets', nets' ∈ [Networks.policy_networks nets;
                         Networks.critic_networks nets;
                         Networks.observation_networks nets] →
         length nets' = Z.to_nat edge_number
         ∧ (∀ i j a b, nets' !! i = Some a → nets' !! j = Some b → a = b)
         ∧ ((2 ≤ edge_number)%Z → ¬ Networks.independent_copies nets')).
Proof.
  unfold Networks.make_default_MAD3PGNetworks, Networks.Sequential. simpl.
  eexists _, _, _, _. split; [reflexivity|]. simpl.
  rewrite !repeat_for_range_replicate.
  split_and!; [done..|].
  intros nets' Hin.
  assert (∃ x, nets' = replicate (Z.to_nat edge_number) x) as [x ->].
  { set_unfold in Hin. destruct Hin as [->|[->|[->|[]]]]; eauto. }
  split_and!.
  - by rewrite length_replicate.
  - apply replicate_same.
  - intros Hn. apply replicate_not_independent. lia.
Qed.

(** ** [average_gradients_across_replicas] *)

Section ReplicasFacts.
Context {G : Type}.
Implicit Types (gradients : list (option G)) (rs : list G).

(** What the scatter loop builds, by recursion on the gradients: a reduced
    value where there was a gradient, [None] elsewhere. *)
Fixpoint refill gradients rs : list (option G) :=
  match gradients, rs with
  | [], _ => []
  | None :: gradients', _ => None :: refill gradients' rs
  | Some _ :: gradients', r :: rs' => Some r :: refill gradients' rs'
  | Some _ :: gradients', [] => None :: refill gradients' []
  end.

Definition indices_from (k : nat) gradients : list nat :=
  fst <$> filter (fun ig => is_Some (snd ig))
                 (imap (fun i g => (k + i, g)) gradients).

Lemma indices_from_cons k g gradients :
  indices_from k (g :: gradients)
  = (if g is Some _ then [k] else []) ++ indices_from (S k) gradients.
Proof.
  unfold indices_from. rewrite imap_cons.
  assert (imap ((fun i g => (k + i, g)) ∘ S) gradients
          = imap (fun i (g : option G) => (S k + i, g)) gradients) as ->.
  { apply imap_ext. intros i x _. simpl. f_equal. lia. }
  destruct g as [g|].
  - rewrite filter_cons_True by (simpl; eauto). simpl. do 2 f_equal. lia.
  - rewrite filter_cons_False; [done|]. simpl. by intros [? ?].
Qed.

Lemma refill_nil gradients :
  refill gradients [] = replicate (length gradients) None.
Proof. induction gradients as [|[g|] gs IH]; simpl; by rewrite ?IH. Qed.

Lemma scatter_refill gradients : ∀ k (pre : list (option G)) rs,
  length pre = k →
  foldl (fun results '(ii, result) => <[ii := Some result]> results)
        (pre ++ replicate (length gradients) None)
        (zip (indices_from k gradients) rs)
  = pre ++ refill gradients rs.
Proof.
  induction gradients as [|g gs IH]; intros k pre rs Hk.
  - done.
  - rewrite indices_from_cons. destruct g as [g|]; simpl.
    + destruct rs as [|r rs]; simpl.
      * by rewrite refill_nil.
      * rewrite insert_app_r_alt by lia.
        replace (k - length pre) with 0 by lia. simpl.
        rewrite (cons_middle (Some r) pre (replicate _ _)).
        rewrite (cons_middle (Some r) pre (refill _ _)), !app_assoc.
        apply IH. rewrite length_app. simpl. lia.
    + rewrite (cons_middle None pre (replicate _ _)).
      rewrite (cons_middle None pre (refill _ _)), !app_assoc.
      apply IH. rewrite length_app. simpl. lia.
Qed.

Lemma average_gradients_refill (replica_context : ReplicaContext G) gradients :
  average_gradients_across_replicas replica_context gradients
  = refill gradients
      (all_reduce_mean replica_context (without_nones gradients)).
Proof.
  unfold average_gradients_across_replicas.
  assert (fst <$> filter (fun ig => is_Some (snd ig)) (imap pair gradients)
          = indices_from 0 gradients) as ->.
  { unfold indices_from. do 2 f_equal. }
  apply (scatter_refill gradients 0 []). done.
Qed.

Lemma length_refill gradients rs : length (refill gradients rs) = length gradients.
Proof.
  revert rs. induction gradients as [|[g|] gs IH]; intros [|r rs]; simpl;
    by rewrite ?IH.
Qed.

Lemma refill_None gradients rs j :
  gradients !! j = Some None → refill gradients rs !! j = Some None.
Proof.
  revert rs j. induction gradients as [|g gs IH]; intros rs j; [done|].
  destruct j as [|j]; simpl.
  - intros [= ->]. done.
  - intros Hj. destruct g as [g|], rs as [|r rs]; simpl; by apply IH.
Qed.

Lemma list_omap_Forall_ext {A B} (f g : A → option B) (l : list A) :
  Forall (fun x => f x = g x) l → omap f l = omap g l.
Proof.
  induction 1 as [|x l Hx _ IH]; [done|].
  cbn. rewrite Hx. destruct (g x); [f_equal|]; exact IH.
Qed.

Lemma list_omap_pointwise {A B} (f g : A → option B) (l : list A) :
  (∀ x, f x = g x) → omap f l = omap g l.
Proof. intros Hfg. apply list_omap_Forall_ext, Forall_forall. auto. Qed.

Lemma list_omap_fmap {A B C} (f : B → option C) (h : A → B) (l : list A) :
  omap f (h <$> l) = omap (f ∘ h) l.
Proof.
  induction l as [|x l IH]; [done|].
  cbn. destruct (f (h x)); [f_equal|]; exact IH.
Qed.

(** *** The collective *)
Variable mean : list G → G.

Lemma all_reduce_cons (peers : list (list G)) g mine :
  all_reduce_mean (cross_replica mean peers) (g :: mine)
  = mean (g :: omap head peers)
    :: all_reduce_mean (cross_replica mean (tail <$> peers)) mine.
Proof.
  simpl. f_equal.
  - do 2 f_equal. apply list_omap_pointwise. intros p. by rewrite head_lookup.
  - apply imap_ext. intros k x _. simpl. do 2 f_equal.
    rewrite list_omap_fmap. apply list_omap_pointwise. by intros [|? ?].
Qed.

(** The values the other replicas hold at position [j]. *)
Definition peer_values (others : list (list (option G))) (j : nat) : list G :=
  omap (fun o => mjoin (o !! j)) others.

Lemma refill_group gradients : ∀ others,
  Forall (fun o => defined <$> o = defined <$> gradients) others →
  refill gradients
    (all_reduce_mean (replica_group mean others) (without_nones gradients))
  = imap (fun j g => (fun g => mean (g :: peer_values others j)) <$> g)
         gradients.
Proof.
  unfold replica_group.
  induction gradients as [|g gs IH]; intros others Hsame; [done|].
  assert (Forall (fun o => defined <$> o = defined <$> gs) (tail <$> others))
    as Htl.
  { apply Forall_fmap. eapply Forall_impl; [exact Hsame|].
    intros [|h o]; simpl; [done|]. by intros [= _ ?]. }
  assert (∀ j, peer_values others (S j) = peer_values (tail <$> others) j)
    as Hshift.
  { intros j. unfold peer_values. rewrite list_omap_fmap.
    apply list_omap_pointwise. by intros [|? ?]. }
  rewrite imap_cons.
  assert (imap ((fun j g => (fun g => mean (g :: peer_values others j)) <$> g) ∘ S) gs
          = imap (fun j g => (fun g => mean (g :: peer_values (tail <$> others) j)) <$> g) gs)
    as ->.
  { apply imap_ext. intros j x _. simpl. by rewrite Hshift. }
  rewrite <- (IH _ Htl). clear IH Htl Hshift.
  destruct g as [g|].
  - assert (without_nones (Some g :: gs) = g :: without_nones gs) as -> by done.
    rewrite all_reduce_cons. cbn [refill fmap option_fmap option_map].
    assert (omap head (without_nones <$> others) = peer_values others 0) as ->.
    { unfold peer_values. rewrite list_omap_fmap.
      apply list_omap_Forall_ext. eapply Forall_impl; [exact Hsame|].
      intros [|[h|] o] Ho; simplify_eq/=; done. }
    assert (tail <$> (without_nones <$> others)
            = without_nones <$> (tail <$> others)) as ->; [|done].
    rewrite <- !list_fmap_compose. apply Forall_fmap_ext.
    eapply Forall_impl; [exact Hsame|].
    intros [|[h|] o] Ho; simplify_eq/=; done.
  - assert (without_nones (None :: gs) = without_nones gs) as -> by done.
    cbn [refill fmap option_fmap option_map].
    assert (without_nones <$> others = without_nones <$> (tail <$> others))
      as ->; [|done].
    rewrite <- !list_fmap_compose. apply Forall_fmap_ext.
    eapply Forall_impl; [exact Hsame|].
    intros [|[h|] o] Ho; simplify_eq/=; done.
Qed.

Lemma peer_values_Forall2 gradients others j g :
  Forall (fun o => defined <$> o = defined <$> gradients) others →
  gradients !! j = Some (Some g) →
  Forall2 (fun o g' => o !! j = Some (Some g')) others (peer_values others j).
Proof.
  intros Hsame Hj. unfold peer_values.
  induction Hsame as [|o others Ho _ IH]; simpl; [constructor|].
  assert ((defined <$> o) !! j = Some true) as Hd.
  { rewrite Ho, list_lookup_fmap, Hj. done. }
  rewrite list_lookup_fmap in Hd.
  destruct (o !! j) as [[g'|]|] eqn:Hoj; simplify_eq/=.
  constructor; done.
Qed.
End ReplicasFacts.

(** C5. Gradient reduction returns a sequence of the length of its input;
    a null entry stays null (whatever the collective returns); when the
    replicas of the group hold gradients for the same variables, a defined
    entry becomes the mean of the values the replicas hold at that entry;
    an all-null input gives an all-null output. *)
Theorem average_gradients_across_replicas_mean {G : Type}
    (mean : list G → G) (gradients : list (option G))
    (others : list (list (option G))) :
  Forall (fun o => defined <$> o = defined <$> gradients) others →
  let results :=
    average_gradients_across_replicas (replica_group mean others) gradients in
  length results = length gradients
  ∧ (∀ replica_context j, gradients !! j = Some None →
       average_gradients_across_replicas replica_context gradients !! j
       = Some None)
  ∧ (∀ j g, gradients !! j = Some (Some g) →
       ∃ gs, Forall2 (fun o g' => o !! j = Some (Some g')) others gs
             ∧ results !! j = Some (Some (mean (g :: gs))))
  ∧ (Forall (fun g => g = None) gradients → Forall (fun r => r = None) results).
Proof.
  intros Hsame results.
  assert (∀ j, gradients !! j = Some None → results !! j = Some None) as Hnull.
  { intros j Hj. unfold results. rewrite average_gradients_refill.
    by apply refill_None. }
  split_and!.
  - unfold results. by rewrite average_gradients_refill, length_refill.
  - intros ctx j Hj. rewrite average_gradients_refill. by apply refill_None.
  - intros j g Hj. exists (peer_values others j). split.
    + by eapply peer_values_Forall2.
    + unfold results.
      rewrite average_gradients_refill, refill_group by done.
      by rewrite list_lookup_imap, Hj.
  - intros Hall. apply Forall_lookup. intros j r Hr.
    assert (j < length gradients) as Hlt.
    { apply lookup_lt_Some in Hr. unfold results in Hr.
      by rewrite average_gradients_refill, length_refill in Hr. }
    destruct (lookup_lt_is_Some_2 gradients j Hlt) as [g Hg].
    assert (g = None) as -> by (eapply Forall_lookup_1 in Hall; eauto).
    rewrite (Hnull j Hg) in Hr. congruence.
Qed.

(** Two replicas, three variables, the second one unused by the loss. *)
Definition mean_Q (xs : list Q) : Q :=
  Qred (foldr Qplus 0%Q xs / inject_Z (Z.of_nat (length xs))).

Lemma average_gradients_across_replicas_mean_witness :
  let gradients := [Some 1%Q; None; Some 3%Q] in
  let others := [[Some 3%Q; None; Some 5%Q]] in
  average_gradients_across_replicas (replica_group mean_Q others) gradients
  = [Some 2%Q; None; Some 4%Q]
  ∧ length (average_gradients_across_replicas (replica_group mean_Q others)
              gradients) = 3.
Proof.
  split; [reflexivity|].
  apply (average_gradients_across_replicas_mean mean_Q
           [Some 1%Q; None; Some 3%Q] [[Some 3%Q; None; Some 5%Q]]).
  repeat constructor.
Defined.

(** ** The learner: target synchronisation *)

Section Synchronisation.
Context `{Framework}.

Definition all_variables {I O} (nets : list (SntModule I O)) : list var :=
  mjoin (variables <$> nets).

Definition online_vars (self : MAD3PGLearner) : list var :=
  all_variables (_observation_networks self)
    ++ all_variables (_critic_networks self)
    ++ all_variables (_policy_networks self).

Definition target_vars (self : MAD3PGLearner) : list var :=
  all_variables (_target_observation_networks self)
    ++ all_variables (_target_critic_networks self)
    ++ all_variables (_target_policy_networks self).

(** The pairs [(src, dest)] the two loops of [_replicated_step] visit, in
    the order they visit them. *)
Definition sync_pairs (self : MAD3PGLearner) : list (var * var) :=
  mjoin (zip_with zip
    (edge_variables (_observation_networks self) (_critic_networks self)
                    (_policy_networks self))
    (edge_variables (_target_observation_networks self)
                    (_target_critic_networks self)
                    (_target_policy_networks self))).

(** [d] is the target parameter that corresponds to the online parameter
    [s]: same edge, same network, same position. *)
Definition paired {I O} (online target : list (SntModule I O)) (s d : var)
    : Prop :=
  ∃ i m m' j, online !! i = Some m ∧ target !! i = Some m'
              ∧ variables m !! j = Some s ∧ variables m' !! j = Some d.

Definition corresponds (self : MAD3PGLearner) (s d : var) : Prop :=
  paired (_observation_networks self) (_target_observation_networks self) s d
  ∨ paired (_critic_networks self) (_target_critic_networks self) s d
  ∨ paired (_policy_networks self) (_target_policy_networks self) s d.

Definition same_structure {I O} (online target : list (SntModule I O)) : Prop :=
  Forall2 (fun m m' => length (variables m) = length (variables m'))
          online target.

(** The data-model invariant of the agents: every edge has its six
    networks, online and target networks have the same parameter
    structure, no variable is both online and target, and a target
    variable shared between edges is paired with one online variable. *)
Record well_formed (self : MAD3PGLearner) : Prop := {
  wf_observation :
    same_structure (_observation_networks self)
                   (_target_observation_networks self);
  wf_critic :
    same_structure (_critic_networks self) (_target_critic_networks self);
  wf_policy :
    same_structure (_policy_networks self) (_target_policy_networks self);
  wf_edges :
    length (_observation_networks self) = length (_critic_networks self)
    ∧ length (_critic_networks self) = length (_policy_networks self);
  wf_apart : ∀ v, v ∈ online_vars self → v ∉ target_vars self;
  wf_functional : ∀ s s' d,
    (s, d) ∈ sync_pairs self → (s', d) ∈ sync_pairs self → s = s';
}.

Definition assign_pairs (pairs : list (var * var)) (σ : var → param)
    : var → param :=
  foldl (fun σ '(src, dest) => <[dest := σ src]> σ) σ pairs.

Lemma assign_all_pairs (online target : list (list var)) σ :
  assign_all online target σ
  = assign_pairs (mjoin (zip_with zip online target)) σ.
Proof.
  unfold assign_all, assign_pairs.
  revert target σ. induction online as [|o online IH]; intros [|t target] σ;
    try done.
  simpl. rewrite foldl_app. apply IH.
Qed.

Lemma assign_pairs_frame pairs σ v :
  v ∉ pairs.*2 → assign_pairs pairs σ v = σ v.
Proof.
  revert σ. induction pairs as [|[s d] pairs IH]; intros σ Hv; [done|].
  simpl in *. apply not_elem_of_cons in Hv as [Hne Hv].
  unfold assign_pairs in *. simpl. rewrite IH by done.
  by rewrite fn_lookup_insert_ne.
Qed.

Lemma assign_pairs_copy pairs : ∀ σ,
  (∀ s d, (s, d) ∈ pairs → s ∉ pairs.*2) →
  (∀ s s' d, (s, d) ∈ pairs → (s', d) ∈ pairs → s = s') →
  ∀ s d, (s, d) ∈ pairs → assign_pairs pairs σ d = σ s.
Proof.
  induction pairs as [|[s0 d0] pairs IH]; intros σ Hapart Hfun s d Hin.
  { by apply elem_of_nil in Hin. }
  assert (∀ s d, (s, d) ∈ pairs → <[d0 := σ s0]> σ s = σ s) as Hsrc.
  { intros s1 d1 H1. apply fn_lookup_insert_ne. intros ->.
    eapply (Hapart s1 d1); [by right|]. simpl. by left. }
  change (assign_pairs pairs (<[d0 := σ s0]> σ) d = σ s).
  destruct (decide ((s, d) ∈ pairs)) as [Hin'|Hnin].
  - rewrite (IH (<[d0 := σ s0]> σ)) with (s := s); [by eapply Hsrc| | |done].
    + intros s1 d1 H1 H2. eapply (Hapart s1 d1); [by right|]. by right.
    + intros s1 s2 d1 H1 H2. eapply Hfun; by right.
  - apply elem_of_cons in Hin as [[= -> ->]|?]; [|done].
    destruct (decide (d0 ∈ pairs.*2)) as [Hd|Hd].
    + apply list_elem_of_fmap in Hd as [[s1 d1] [-> H1]]. simpl in *.
      assert (s1 = s0) as -> by (eapply Hfun; [by right|by left]).
      done.
    + rewrite assign_pairs_frame by done. apply fn_lookup_insert.
Qed.

(** *** What a step leaves alone *)

(** Outside the variables [V] the values are kept, and so are the step
    counter and the iterator. *)
Definition frame (V : list var) (st st' : State) : Prop :=
  _num_steps st' = _num_steps st
  ∧ _iterator st' = _iterator st
  ∧ ∀ v, v ∉ V → values st' v = values st v.

Lemma frame_refl V st : frame V st st.
Proof. done. Qed.

Lemma frame_trans V st1 st2 st3 :
  frame V st1 st2 → frame V st2 st3 → frame V st1 st3.
Proof.
  intros (? & ? & H12) (? & ? & H23). split_and!; [congruence..|].
  intros v Hv. rewrite H23, H12; done.
Qed.

Lemma frame_bind {A B} V (m : stateful A) (f : A → stateful B) st :
  frame V st (m st).2 →
  (∀ a st', m st = (Ok a, st') → frame V st' (f a st').2) →
  frame V st ((m ≫= f) st).2.
Proof.
  intros Hm Hf. unfold mbind, stateful_bind.
  destruct (m st) as [[a|e] st'] eqn:Hmst; [|done].
  eapply frame_trans; [exact Hm|]. by apply Hf.
Qed.

Lemma frame_raise {A} V (r : result A) st : frame V st (raise_or_return r st).2.
Proof. done. Qed.

Lemma raise_or_return_inv {A} (r : result A) st a st' :
  raise_or_return r st = (Ok a, st') → r = Ok a ∧ st' = st.
Proof. unfold raise_or_return. by intros [= -> ->]. Qed.

Lemma foldl_update_frame (s : opt_state) gv (σ : var → param) v :
  v ∉ gv.*2 →
  foldl (fun σ '(g, v) =>
           match g with
           | Some g => <[v := optimizer_update s g (σ v)]> σ
           | None => σ
           end) σ gv v = σ v.
Proof.
  revert σ. induction gv as [|[g w] gv IH]; intros σ Hv; [done|].
  simpl in *. apply not_elem_of_cons in Hv as [Hne Hv].
  rewrite IH by done. destruct g; [|done].
  by rewrite fn_lookup_insert_ne.
Qed.

Lemma apply_gradients_frame V optimizer gv st :
  gv.*2 ⊆ V → frame V st (apply_gradients optimizer gv st).2.
Proof.
  intros Hsub. unfold apply_gradients. cbn.
  split_and!; [done..|]. intros v Hv.
  apply foldl_update_frame. intros Hin. apply Hv, Hsub, Hin.
Qed.

Lemma zip_snd_subseteq {A B} (l : list A) (k : list B) : (zip l k).*2 ⊆ k.
Proof.
  intros y [[a b] [-> Hin]]%list_elem_of_fmap. by eapply elem_of_zip_r.
Qed.

Lemma apply_all_frame V self pg cg pv cg_vars st :
  (∀ vs, vs ∈ pv → vs ⊆ V) → (∀ vs, vs ∈ cg_vars → vs ⊆ V) →
  frame V st (apply_all self pg cg pv cg_vars st).2.
Proof.
  intros Hp Hc. unfold apply_all.
  assert (∀ range acc, frame V st acc.2 →
            frame V st (foldl (fun (acc : result unit * State) edge_index =>
               match acc with
               | (Err e, st) => (Err e, st)
               | (Ok _, st) =>
                 (policy_optimizer ← raise_or_return
                    (py_index (_policy_optimizers self) edge_index);
                  policy_gradient ← raise_or_return (py_index pg edge_index);
                  policy_variable ← raise_or_return (py_index pv edge_index);
                  apply_gradients policy_optimizer
                    (zip policy_gradient policy_variable);;
                  critic_optimizer ← raise_or_return
                    (py_index (_critic_optimizers self) edge_index);
                  critic_gradient ← raise_or_return (py_index cg edge_index);
                  critic_variable ← raise_or_return
                    (py_index cg_vars edge_index);
                  apply_gradients critic_optimizer
                    (zip critic_gradient critic_variable)) st
               end) acc range).2) as Hloop.
  { induction range as [|i range IH]; intros acc Hacc; [done|].
    simpl. apply IH. destruct acc as [[[]|e] st1]; [|done].
    simpl in Hacc. eapply frame_trans; [exact Hacc|].
    apply frame_bind; [apply frame_raise|].
    intros o st2 [_ ->]%raise_or_return_inv.
    apply frame_bind; [apply frame_raise|].
    intros g st2 [_ ->]%raise_or_return_inv.
    apply frame_bind; [apply frame_raise|].
    intros vs st2 [Hvs ->]%raise_or_return_inv.
    apply frame_bind.
    { apply apply_gradients_frame. etrans; [apply zip_snd_subseteq|].
      apply Hp. unfold py_index in Hvs.
      destruct (pv !! i) eqn:Hi; simplify_eq.
      by eapply list_elem_of_lookup_2. }
    intros _ st2 _.
    apply frame_bind; [apply frame_raise|].
    intros o' st3 [_ ->]%raise_or_return_inv.
    apply frame_bind; [apply frame_raise|].
    intros g' st3 [_ ->]%raise_or_return_inv.
    apply frame_bind; [apply frame_raise|].
    intros vs' st3 [Hvs' ->]%raise_or_return_inv.
    apply apply_gradients_frame. etrans; [apply zip_snd_subseteq|].
    apply Hc. unfold py_index in Hvs'.
    destruct (cg_vars !! i) eqn:Hi; simplify_eq.
    by eapply list_elem_of_lookup_2. }
  apply Hloop. done.
Qed.

Lemma all_variables_elem {I O} (nets : list (SntModule I O)) m v :
  m ∈ nets → v ∈ variables m → v ∈ all_variables nets.
Proof.
  intros Hm Hv. unfold all_variables. apply list_elem_of_join.
  exists (variables m). split; [done|]. by apply list_elem_of_fmap_2.
Qed.

Lemma edge_variables_elem observations critics policies vs v :
  vs ∈ edge_variables observations critics policies → v ∈ vs →
  v ∈ all_variables observations ++ all_variables critics
        ++ all_variables policies.
Proof.
  unfold edge_variables.
  intros (o & [c p] & -> & Ho & Hcp)%elem_of_zip_with Hv.
  pose proof (elem_of_zip_l _ _ _ _ Hcp) as Hc.
  pose proof (elem_of_zip_r _ _ _ _ Hcp) as Hp.
  simpl in Hv. rewrite !elem_of_app in Hv. rewrite !elem_of_app.
  destruct Hv as [?|[?|?]]; eauto using all_variables_elem.
Qed.

Lemma _step_frame self sample st :
  frame (online_vars self) st (_step self sample st).2.
Proof.
  unfold _step.
  apply frame_bind; [done|]. intros st0 st1 [= <- <-].
  apply frame_bind; [apply frame_raise|].
  intros [critic_losses policy_losses] st1 [_ ->]%raise_or_return_inv.
  apply frame_bind; [apply frame_raise|].
  intros pg st1 [_ ->]%raise_or_return_inv.
  apply frame_bind; [apply frame_raise|].
  intros cg st1 [_ ->]%raise_or_return_inv.
  apply frame_bind; [|done].
  apply apply_all_frame.
  - intros vs (m & -> & Hm)%list_elem_of_fmap v Hv.
    unfold online_vars. rewrite !elem_of_app.
    eauto using all_variables_elem.
  - intros vs (o & c & -> & Ho & Hc)%elem_of_zip_with v Hv.
    unfold online_vars. rewrite !elem_of_app. rewrite elem_of_app in Hv.
    destruct Hv; eauto using all_variables_elem.
Qed.

(** A step that raises under the tape has not touched the state. *)
Lemma _step_losses_Err self sample st e :
  losses self (values st) sample = Err e →
  _step self sample st = (Err e, st).
Proof.
  intros Hl. unfold _step, mbind, stateful_bind, get_state, raise_or_return.
  by rewrite Hl.
Qed.

(** The state after lines 284-307: the synchronisation decision, then the
    increment of the counter. *)
Definition synchronise (self : MAD3PGLearner) (st : State) : State :=
  {| values :=
       if bool_decide ((_num_steps st mod _target_update_period self)%Z = 0%Z)
       then assign_pairs (sync_pairs self) (values st)
       else values st;
     _num_steps := wrap_int32 (_num_steps st + 1);
     slots := slots st;
     _iterator := _iterator st |}.

Definition pull (st : State) : State :=
  {| values := values st; _num_steps := _num_steps st; slots := slots st;
     _iterator := tail (_iterator st) |}.

Lemma _replicated_step_unfold self st :
  _target_update_period self ≠ 0%Z →
  _replicated_step self st =
    match _iterator st with
    | [] => (Err StopIteration, synchronise self st)
    | sample :: _ =>
      let '(r, st') := _step self sample (pull (synchronise self st)) in
      (fmap (M := result) (fmap (map_structure replicator_reduce)) r, st')
    end.
Proof.
  intros HP. unfold _replicated_step.
  unfold mbind at 1, stateful_bind at 1, get_state.
  unfold mbind at 1, stateful_bind at 1, raise_or_return, tf_math_mod.
  destruct (Z.eqb_spec (_target_update_period self) 0) as [?|_]; [done|].
  unfold mbind at 1, stateful_bind at 1, put_state.
  rewrite assign_all_pairs. fold (sync_pairs self). fold (synchronise self st).
  unfold mbind at 1, stateful_bind at 1, next_sample.
  change (_iterator (synchronise self st)) with (_iterator st).
  destruct (_iterator st) as [|sample rest] eqn:Hit; [done|].
  unfold mbind at 1, stateful_bind at 1.
  assert (pull (synchronise self st)
          = {| values := values (synchronise self st);
               _num_steps := _num_steps (synchronise self st);
               slots := slots (synchronise self st); _iterator := rest |})
    as <-.
  { unfold pull. simpl. by rewrite Hit. }
  destruct (_step self sample (pull (synchronise self st))) as [[f|e] st'];
    done.
Qed.

Lemma sync_pairs_sides self s d :
  (s, d) ∈ sync_pairs self → s ∈ online_vars self ∧ d ∈ target_vars self.
Proof.
  unfold sync_pairs.
  intros (l & Hsd & (o & t & -> & Ho & Ht)%elem_of_zip_with)%list_elem_of_join.
  split.
  - eapply edge_variables_elem; [exact Ho|]. by eapply elem_of_zip_l.
  - eapply edge_variables_elem; [exact Ht|]. by eapply elem_of_zip_r.
Qed.

Lemma edge_variables_lookup observations critics policies i
    (o : observation_module) (c : critic_module) (p : policy_module) :
  observations !! i = Some o → critics !! i = Some c → policies !! i = Some p →
  edge_variables observations critics policies !! i
  = Some (variables o ++ variables c ++ variables p).
Proof.
  intros Ho Hc Hp. unfold edge_variables.
  apply lookup_zip_with_Some. exists o, (c, p).
  split_and!; [done..|]. by apply lookup_zip_Some.
Qed.

Lemma same_structure_lookup {I O} (online target : list (SntModule I O)) i :
  same_structure online target →
  (∀ m, online !! i = Some m →
     ∃ m', target !! i = Some m'
           ∧ length (variables m) = length (variables m'))
  ∧ (∀ m', target !! i = Some m' →
     ∃ m, online !! i = Some m
          ∧ length (variables m) = length (variables m')).
Proof.
  intros Hs. split.
  - intros m Hm. destruct (Forall2_lookup_l _ _ _ _ _ Hs Hm) as (m' & ? & ?).
    eauto.
  - intros m' Hm'. destruct (Forall2_lookup_r _ _ _ _ _ Hs Hm') as (m & ? & ?).
    eauto.
Qed.

Ltac module_lia :=
  unfold observation_module, critic_module, policy_module in *; lia.

(** Under the invariant, the loops visit every corresponding pair. *)
Lemma corresponds_sync_pairs self s d :
  well_formed self → corresponds self s d → (s, d) ∈ sync_pairs self.
Proof.
  intros [Ho Hc Hp [Hl1 Hl2] _ _] Hcor.
  assert (∃ i o c p o' c' p' j,
    _observation_networks self !! i = Some o
    ∧ _critic_networks self !! i = Some c
    ∧ _policy_networks self !! i = Some p
    ∧ _target_observation_networks self !! i = Some o'
    ∧ _target_critic_networks self !! i = Some c'
    ∧ _target_policy_networks self !! i = Some p'
    ∧ length (variables o) = length (variables o')
    ∧ length (variables c) = length (variables c')
    ∧ length (variables p) = length (variables p')
    ∧ ((variables o !! j = Some s ∧ variables o' !! j = Some d)
       ∨ (variables c !! j = Some s ∧ variables c' !! j = Some d)
       ∨ (variables p !! j = Some s ∧ variables p' !! j = Some d)))
    as (i & o & c & p & o' & c' & p' & j & Hio & Hic & Hip & Hio' & Hic'
          & Hip' & Hlo & Hlc & Hlp & Hj).
  { assert (∀ i, i < length (_observation_networks self) →
      ∃ o c p o' c' p',
        _observation_networks self !! i = Some o
        ∧ _critic_networks self !! i = Some c
        ∧ _policy_networks self !! i = Some p
        ∧ _target_observation_networks self !! i = Some o'
        ∧ _target_critic_networks self !! i = Some c'
        ∧ _target_policy_networks self !! i = Some p'
        ∧ length (variables o) = length (variables o')
        ∧ length (variables c) = length (variables c')
        ∧ length (variables p) = length (variables p')) as Hedge.
    { intros i Hi.
      destruct (lookup_lt_is_Some_2 (_observation_networks self) i Hi)
        as [o Hio].
      assert (i < length (_critic_networks self)) as Hi1 by module_lia.
      destruct (lookup_lt_is_Some_2 (_critic_networks self) i Hi1)
        as [c Hic].
      assert (i < length (_policy_networks self)) as Hi2 by module_lia.
      destruct (lookup_lt_is_Some_2 (_policy_networks self) i Hi2)
        as [p Hip].
      destruct (proj1 (same_structure_lookup _ _ i Ho) o Hio) as (o' & ? & ?).
      destruct (proj1 (same_structure_lookup _ _ i Hc) c Hic) as (c' & ? & ?).
      destruct (proj1 (same_structure_lookup _ _ i Hp) p Hip) as (p' & ? & ?).
      exists o, c, p, o', c', p'. done. }
    destruct Hcor as [(i & m & m' & j & Hm & Hm' & Hs & Hd)
                     |[(i & m & m' & j & Hm & Hm' & Hs & Hd)
                      |(i & m & m' & j & Hm & Hm' & Hs & Hd)]];
      (assert (i < length (_observation_networks self)) as Hi
         by (apply lookup_lt_Some in Hm; module_lia));
      destruct (Hedge i Hi) as (o & c & p & o' & c' & p' & ? & ? & ? & ? & ?
                                  & ? & ? & ? & ?);
      exists i, o, c, p, o', c', p', j;
      unfold observation_module, critic_module, policy_module in *;
      simplify_eq; split_and!; eauto. }
  unfold sync_pairs. apply list_elem_of_join.
  exists (zip (variables o ++ variables c ++ variables p)
              (variables o' ++ variables c' ++ variables p')).
  split.
  - do 2 rewrite zip_with_app by done. rewrite !elem_of_app.
    destruct Hj as [[? ?]|[[? ?]|[? ?]]]; [left|right; left|right; right];
      apply list_elem_of_lookup; exists j; by apply lookup_zip_Some.
  - apply list_elem_of_lookup. exists i.
    apply lookup_zip_with_Some. eexists _, _. split; [done|].
    split; by apply edge_variables_lookup.
Qed.

Lemma paired_covers {I O} (online target : list (SntModule I O)) d :
  same_structure online target → d ∈ all_variables target →
  ∃ s, paired online target s d.
Proof.
  intros Hs (vs & Hd & (m' & -> & Hm')%list_elem_of_fmap)%list_elem_of_join.
  apply list_elem_of_lookup in Hm' as [i Hi].
  apply list_elem_of_lookup in Hd as [j Hj].
  destruct (proj2 (same_structure_lookup _ _ i Hs) m' Hi) as (m & Hm & Hlen).
  assert (j < length (variables m)) as Hlt.
  { rewrite Hlen. by eapply lookup_lt_Some. }
  destruct (lookup_lt_is_Some_2 (variables m) j Hlt) as [s Hsj].
  exists s, i, m, m', j. done.
Qed.

(** Under the invariant, every target parameter has its online parameter. *)
Lemma corresponds_covers self d :
  well_formed self → d ∈ target_vars self → ∃ s, corresponds self s d.
Proof.
  intros [Ho Hc Hp _ _ _]. unfold target_vars, corresponds.
  rewrite !elem_of_app. intros [Hd|[Hd|Hd]].
  - destruct (paired_covers _ _ d Ho Hd) as [s ?]. eauto.
  - destruct (paired_covers _ _ d Hc Hd) as [s ?]. eauto.
  - destruct (paired_covers _ _ d Hp Hd) as [s ?]. eauto.
Qed.

(** The state a step ends in differs from the synchronised state only on
    online variables, whether the step returns or raises. *)
Lemma _replicated_step_frame self st :
  _target_update_period self ≠ 0%Z →
  let st' := (_replicated_step self st).2 in
  _num_steps st' = wrap_int32 (_num_steps st + 1)
  ∧ ∀ v, v ∉ online_vars self →
         values st' v = values (synchronise self st) v.
Proof.
  intros HP. rewrite _replicated_step_unfold by done.
  destruct (_iterator st) as [|sample rest]; [done|].
  pose proof (_step_frame self sample (pull (synchronise self st)))
    as (Hn & _ & Hv).
  destruct (_step self sample (pull (synchronise self st))) as [r st'].
  simpl in *. split; [by rewrite Hn|]. intros v Hnot. by rewrite Hv.
Qed.
End Synchronisation.


(** ** The learner: the edge loop under the tape *)

Section EdgeLoop.
Context `{Framework}.
Implicit Types (self : MAD3PGLearner) (σ : var → param).

Lemma bind_Ok {A B} (f : A → result B) a : Ok a ≫= f = f a.
Proof. done. Qed.

Lemma bind_Err {A B} (f : A → result B) e : Err e ≫= f = Err e.
Proof. done. Qed.

Lemma mapM_cons {A B} (f : A → result B) x l :
  mapM f (x :: l) = y ← f x; k ← mapM f l; mret (y :: k).
Proof. done. Qed.

(** With two edges or more, building the action of edge 1 reaches the
    attribute that was never assigned. *)
Lemma dpg_a_t_edge_1 self σ batch_size edge_a_t o_t :
  2 ≤ _edge_number self →
  dpg_a_t self σ batch_size edge_a_t o_t 1
  = edge_slice self batch_size edge_a_t 0
      ≫= fun _ => Err (AttributeError "_edge_policy_networks").
Proof.
  intros HN. unfold dpg_a_t.
  destruct (_edge_number self) as [|[|n]] eqn:Hn; [lia..|].
  change (1 =? 0) with false. cbv iota.
  set (first := edge_slice self batch_size edge_a_t 0).
  destruct first as [s|e]; [|done].
  done.
Qed.

(** With one edge the loop over [i] has nothing to append. *)
Lemma dpg_a_t_single_edge self σ batch_size edge_a_t o_t :
  _edge_number self = 1 →
  dpg_a_t self σ batch_size edge_a_t o_t 0
  = policy_network ← py_index (_policy_networks self) 0;
    mret (call policy_network σ o_t).
Proof.
  intros HN. unfold dpg_a_t. rewrite HN. simpl.
  destruct (py_index (_policy_networks self) 0); done.
Qed.

Lemma actor_learning_edge_1 self σ batch_size edge_a_t o_t :
  2 ≤ _edge_number self →
  ∃ e, actor_learning self σ batch_size edge_a_t o_t 1 = Err e
       ∧ (edge_slice self batch_size edge_a_t 0 = Err e
          ∨ (is_Ok (edge_slice self batch_size edge_a_t 0)
             ∧ e = AttributeError "_edge_policy_networks")).
Proof.
  intros HN. unfold actor_learning. rewrite dpg_a_t_edge_1 by done.
  destruct (edge_slice self batch_size edge_a_t 0) as [s|e] eqn:Hs.
  - eexists. split; [reflexivity|]. right. split; [by eexists|done].
  - exists e. split; [reflexivity|]. by left.
Qed.

Lemma edge_losses_edge_1 self σ transitions batch_size cast_discount ea :
  2 ≤ _edge_number self →
  ∃ e, edge_losses self σ transitions batch_size cast_discount ea 1 = Err e.
Proof.
  intros HN. unfold edge_losses.
  destruct (critic_learning self σ transitions batch_size cast_discount ea 1)
    as [[o_t cl]|e]; [|by exists e].
  destruct (actor_learning_edge_1 self σ batch_size ea o_t HN) as (e & He & _).
  exists e. by rewrite bind_Ok, He.
Qed.

Lemma losses_two_edges self σ transitions :
  2 ≤ _edge_number self → ∃ e, losses self σ transitions = Err e.
Proof.
  intros HN. unfold losses. cbv zeta.
  destruct (edge_a_t self σ transitions) as [ea|e]; [|by exists e].
  rewrite bind_Ok.
  assert (seq 0 (_edge_number self) = 0 :: 1 :: seq 2 (_edge_number self - 2))
    as ->.
  { destruct (_edge_number self) as [|[|n]]; [lia..|].
    simpl. by rewrite Nat.sub_0_r. }
  rewrite !mapM_cons.
  destruct (edge_losses self σ transitions (length (observation transitions))
              (_discount self) ea 0) as [l0|e]; [|by exists e].
  destruct (edge_losses_edge_1 self σ transitions
              (length (observation transitions)) (_discount self) ea HN)
    as [e He].
  exists e. by rewrite bind_Ok, He.
Qed.

End EdgeLoop.

(** ** The learner: a step that raises *)

Section Raising.
Context `{Framework}.
Implicit Types (self : MAD3PGLearner) (st : State).

Lemma _replicated_step_zero_period self st :
  _target_update_period self = 0%Z →
  _replicated_step self st = (Err InvalidArgumentError, st).
Proof.
  intros HP. unfold _replicated_step.
  unfold mbind at 1, stateful_bind at 1, get_state.
  unfold mbind at 1, stateful_bind at 1, raise_or_return, tf_math_mod.
  by rewrite HP.
Qed.

Lemma step_unfold self st :
  step self st
  = let '(r, st') := _replicated_step self st in
    (fmap (M := result) (fun _ => tt) r, st').
Proof.
  unfold step, mbind, stateful_bind.
  by destruct (_replicated_step self st) as [[f|e] st'].
Qed.

(** A step that raises under the tape ends in the state the
    synchronisation, the increment and the pull of the batch left. *)
Lemma step_losses_Err self st sample rest e :
  _target_update_period self ≠ 0%Z →
  _iterator st = sample :: rest →
  losses self (values (synchronise self st)) sample = Err e →
  step self st = (Err e, pull (synchronise self st)).
Proof.
  intros HP Hit Hl. rewrite step_unfold, _replicated_step_unfold by done.
  rewrite Hit.
  by rewrite (_step_losses_Err self sample (pull (synchronise self st)) e Hl).
Qed.

Lemma synchronise_frame self st v :
  v ∉ target_vars self → values (synchronise self st) v = values st v.
Proof.
  intros Hv. unfold synchronise. simpl. case_bool_decide; [|done].
  apply assign_pairs_frame.
  intros ([s d] & -> & Hin)%list_elem_of_fmap.
  by apply Hv, (sync_pairs_sides self s d).
Qed.

Lemma step_two_edges self st :
  2 ≤ _edge_number self →
  ∃ e st', step self st = (Err e, st')
           ∧ slots st' = slots st
           ∧ ∀ v, v ∉ target_vars self → values st' v = values st v.
Proof.
  intros HN.
  destruct (decide (_target_update_period self = 0%Z)) as [HP|HP].
  { exists InvalidArgumentError, st.
    by rewrite step_unfold, _replicated_step_zero_period. }
  destruct (_iterator st) as [|sample rest] eqn:Hit.
  { exists StopIteration, (synchronise self st).
    rewrite step_unfold, _replicated_step_unfold, Hit by done.
    split_and!; [done..|]. intros v Hv. by apply synchronise_frame. }
  destruct (losses_two_edges self (values (synchronise self st)) sample HN)
    as [e He].
  exists e, (pull (synchronise self st)).
  split_and!; [by eapply step_losses_Err|done|].
  intros v Hv. by apply synchronise_frame.
Qed.
End Raising.


(** ** The learner: the joint target action *)

Section JointTargetAction.
Context `{Framework}.
Implicit Types (self : MAD3PGLearner) (σ : var → param).

(** The joint target action in the words of the specification (a second
    definition, to compare [edge_a_t] with): the concatenation, in
    agent-index order, of [target_policy[i]] applied to the detached
    output of the target observation encoder for
    [next_observation[:, i, :]]. *)
Definition joint_target_action self σ (transitions : Transition scalar)
    : result (traced (list (list scalar))) :=
  actions ← mapM (fun i =>
      next_observation ← select_axis1 (next_observation transitions) i;
      encoder ← py_index (_target_observation_networks self) i;
      let encoded := stop_gradient (call encoder σ (constant next_observation)) in
      target_policy ← py_index (_target_policy_networks self) i;
      mret (call target_policy σ encoded))
    (seq 0 (length (_target_observation_networks self)));
  concat_axis1_t actions.

(** [edge_a_t] does not read [next_observation]. *)
Lemma edge_a_t_ignores_next_observation self σ transitions transitions' :
  observation transitions = observation transitions' →
  edge_a_t self σ transitions = edge_a_t self σ transitions'.
Proof. intros Hobs. unfold edge_a_t, a_t_dict. by rewrite Hobs. Qed.
End JointTargetAction.

(** ** Lists built by a comprehension *)

Section Comprehensions.
Context `{Framework}.

Lemma mapM_Ok_length {A B} (f : A → result B) l k :
  mapM f l = Ok k → length k = length l.
Proof.
  revert k. induction l as [|x l IH]; intros k.
  - by intros [= <-].
  - rewrite mapM_cons. destruct (f x) as [y|e]; [|done].
    rewrite bind_Ok. destruct (mapM f l) as [k'|e]; [|done].
    intros [= <-]. simpl. by rewrite (IH k').
Qed.

Lemma mapM_Ok_lookup {A B} (f : A → result B) l k i x :
  mapM f l = Ok k → l !! i = Some x → ∃ y, f x = Ok y ∧ k !! i = Some y.
Proof.
  revert k i. induction l as [|x0 l IH]; intros k i; [done|].
  rewrite mapM_cons. destruct (f x0) as [y0|e] eqn:Hx0; [|done].
  rewrite bind_Ok. destruct (mapM f l) as [k'|e]; [|done].
  intros [= <-]. destruct i as [|i]; simpl.
  - intros [= <-]. eauto.
  - intros Hi. by apply (IH k').
Qed.

End Comprehensions.

(** ** Tensors: slices of a concatenation *)

Section TensorFacts.
Context {A : Type}.
Implicit Types (rows : list (list A)) (l : list A).

Lemma blocks_join rows n :
  Forall (fun row => length row = n) rows →
  blocks (length rows) n (mjoin rows) = rows.
Proof.
  induction 1 as [|row rows Hrow _ IH]; [done|].
  simpl. rewrite take_app_length', drop_app_length' by done.
  by rewrite IH.
Qed.

Lemma length_join_rows rows n :
  Forall (fun row => length row = n) rows →
  length (mjoin rows) = length rows * n.
Proof. intros Hrows. rewrite length_join. by apply sum_list_fmap_same. Qed.

Lemma blocks_lookup k n l i :
  i < k → blocks k n l !! i = Some (take n (drop (i * n) l)).
Proof.
  revert l i. induction k as [|k IH]; intros l i Hi; [lia|].
  destruct i as [|i]; simpl; [done|].
  rewrite IH by lia. by rewrite drop_drop.
Qed.

Lemma select_axis1_fmap {B C} (g : B → list C) (h : B → C) (t : list B) i :
  (∀ b, b ∈ t → g b !! i = Some (h b)) →
  select_axis1 (g <$> t) i = Ok (h <$> t).
Proof.
  unfold select_axis1. induction t as [|b t IH]; intros Hg; [done|].
  rewrite !fmap_cons, mapM_cons, (Hg b), bind_Ok by left.
  rewrite IH; [done|]. intros b' Hb'. apply Hg. by right.
Qed.

(** Slice [i] of the reshaped joint action is columns [i * d] to
    [(i + 1) * d] of each row. *)
Lemma reshape_edges_select (rows : list (list A)) b n d i :
  length rows = b → Forall (fun row => length row = n * d) rows → i < n →
  (t ← reshape_edges b n d rows; select_axis1 t i)
  = Ok ((fun row => take d (drop (i * d) row)) <$> rows).
Proof.
  intros Hb Hrows Hi. unfold reshape_edges.
  rewrite (length_join_rows rows (n * d)) by done.
  rewrite Hb, Nat.mul_assoc, Nat.eqb_refl, bind_Ok.
  rewrite <- Hb, blocks_join by done.
  apply select_axis1_fmap. intros row _. simpl. by apply blocks_lookup.
Qed.

Lemma concat_axis1_pair (t u : list (list A)) :
  length u = length t → concat_axis1 [t; u] = Ok (zip_with app t u).
Proof. intros Hl. unfold concat_axis1. simpl. by rewrite Hl, Nat.eqb_refl. Qed.

Lemma zip_with_app_fmap {B} (f : B → list A → list A) (g : list A → list A)
    (own : list B) (rows : list (list A)) :
  zip_with app (zip_with f own rows) (g <$> rows)
  = zip_with (fun o row => f o row ++ g row) own rows.
Proof.
  revert rows. induction own as [|o own IH]; intros [|row rows]; try done.
  simpl. by rewrite IH.
Qed.

Lemma zip_with_fst (g : list A → list A) (own rows : list (list A)) :
  length own = length rows →
  zip_with (fun o row => o ++ take 0 (g row)) own rows = own.
Proof.
  revert rows. induction own as [|o own IH]; intros [|row rows] Hl;
    try done.
  simpl in *. rewrite IH by lia. by rewrite app_nil_r.
Qed.

Lemma zip_with_Forall_ext {B C} (f g : B → list A → C) (P : list A → Prop)
    (own : list B) rows :
  Forall P rows → (∀ o row, P row → f o row = g o row) →
  zip_with f own rows = zip_with g own rows.
Proof.
  intros Hrows Hfg. revert own.
  induction Hrows as [|row rows Hrow _ IH]; intros [|o own]; try done.
  simpl. by rewrite IH, Hfg.
Qed.
End TensorFacts.

(** ** The learner: the action of the actor loss *)

Section Counterfactual.
Context `{Framework}.
Implicit Types (self : MAD3PGLearner) (σ : var → param).

Lemma edge_slice_columns self batch_size (ea : traced (list (list scalar))) i :
  length (value ea) = batch_size →
  Forall (fun row => length row = _edge_number self * _edge_action_size self)
         (value ea) →
  i < _edge_number self →
  edge_slice self batch_size ea i
  = Ok (Traced ((fun row => take (_edge_action_size self)
                              (drop (i * _edge_action_size self) row))
                  <$> value ea)
               (watched ea)).
Proof.
  intros Hb Hrows Hi.
  pose proof (reshape_edges_select (value ea) batch_size (_edge_number self)
                (_edge_action_size self) i Hb Hrows Hi) as Hsel.
  unfold edge_slice, on_value.
  destruct (reshape_edges batch_size (_edge_number self)
              (_edge_action_size self) (value ea)) as [t|e]; [|done].
  rewrite bind_Ok in Hsel.
  change ((v ← select_axis1 t i; Ok (Traced v (watched ea))) = Ok (Traced
    ((fun row => take (_edge_action_size self)
                   (drop (i * _edge_action_size self) row)) <$> value ea)
    (watched ea))).
  by rewrite Hsel.
Qed.

(** The body of the loop over [i] in lines 222-226. *)
Definition append_edge self batch_size (ea : traced (list (list scalar)))
    (edge_index : nat) (dpg_a_t : traced (list (list scalar))) (i : nat)
    : result (traced (list (list scalar))) :=
  if negb (i =? 0) && negb (i =? edge_index)
  then other ← edge_slice self batch_size ea i;
       concat_axis1_t [dpg_a_t; other]
  else if negb (i =? 0) && (i =? edge_index)
  then Err (AttributeError "_edge_policy_networks")
  else mret dpg_a_t.

Lemma append_edge_other self batch_size ea acc i :
  1 ≤ i →
  append_edge self batch_size ea 0 acc i
  = other ← edge_slice self batch_size ea i; concat_axis1_t [acc; other].
Proof. intros Hi. unfold append_edge. by destruct i; [lia|]. Qed.

Lemma concat_axis1_t_pair {A} (x y : traced (list (list A))) :
  length (value y) = length (value x) →
  concat_axis1_t [x; y]
  = Ok (Traced (zip_with app (value x) (value y)) (watched x ∪ watched y)).
Proof.
  intros Hl. unfold concat_axis1_t.
  change (value <$> [x; y]) with [value x; value y].
  rewrite concat_axis1_pair, bind_Ok by done.
  change (⋃ (watched <$> [x; y])) with (watched x ∪ (watched y ∪ ∅)).
  by rewrite (right_id_L ∅ (∪)).
Qed.

Lemma for_loop_cons {S I} (body : S → I → result S) s i range :
  for_loop body s (i :: range) = s' ← body s i; for_loop body s' range.
Proof. done. Qed.

Lemma dpg_a_t_loop self batch_size (ea : traced (list (list scalar)))
    (own : list (list scalar)) (W : gset var) :
  length (value ea) = batch_size →
  Forall (fun row => length row = _edge_number self * _edge_action_size self)
         (value ea) →
  length own = batch_size →
  ∀ k m acc,
    1 ≤ m → m + k = _edge_number self →
    value acc
    = zip_with (fun o row =>
                  o ++ take ((m - 1) * _edge_action_size self)
                            (drop (_edge_action_size self) row))
               own (value ea) →
    watched acc ⊆ W ∪ watched ea →
    ∃ a, for_loop (append_edge self batch_size ea 0) acc (seq m k) = Ok a
         ∧ value a
           = zip_with (fun o row =>
                         o ++ take ((m + k - 1) * _edge_action_size self)
                                   (drop (_edge_action_size self) row))
                      own (value ea)
         ∧ watched a ⊆ W ∪ watched ea.
Proof.
  intros Hb Hrows Hown. set (d := _edge_action_size self) in *.
  induction k as [|k IH]; intros m acc Hm Hmk Hacc Hw.
  - exists acc. rewrite Nat.add_0_r. done.
  - change (seq m (S k)) with (m :: seq (S m) k).
    rewrite for_loop_cons, append_edge_other by done.
    rewrite (edge_slice_columns self batch_size ea m) by (done || lia).
    rewrite bind_Ok, concat_axis1_t_pair; last first.
    { cbn [value]. rewrite Hacc, length_fmap, length_zip_with. lia. }
    rewrite bind_Ok. cbn [value watched].
    destruct (IH (S m)
                (Traced (zip_with app (value acc)
                           ((fun row => take d (drop (m * d) row))
                              <$> value ea))
                        (watched acc ∪ watched ea)))
      as (a & Ha & Hva & Hwa); [lia|lia| | |].
    2:{ cbn [watched]. intros v [?|?]%elem_of_union; [by apply Hw|].
        by apply elem_of_union_r. }
    + cbn [value]. rewrite Hacc, zip_with_app_fmap.
      apply zip_with_ext; [|done..]. intros o row.
      rewrite <- app_assoc. f_equal.
      replace (drop (m * d) row) with (drop ((m - 1) * d) (drop d row)).
      * rewrite take_take_drop. f_equal. nia.
      * rewrite drop_drop. f_equal. nia.
    + exists a. split; [exact Ha|]. split; [|done].
      rewrite Hva. apply zip_with_ext; [|done..]. intros o row.
      do 2 f_equal. nia.
Qed.

Lemma dpg_a_t_append_edge self σ batch_size ea o_t edge_index :
  dpg_a_t self σ batch_size ea o_t edge_index
  = first ← (if edge_index =? 0
             then policy_network ← py_index (_policy_networks self) edge_index;
                  mret (call policy_network σ o_t)
             else edge_slice self batch_size ea 0);
    for_loop (append_edge self batch_size ea edge_index) first
             (seq 0 (_edge_number self)).
Proof. reflexivity. Qed.

Lemma mapM_Ok_Forall {A B} (f : A → result B) l k :
  mapM f l = Ok k → Forall (fun y => ∃ x, x ∈ l ∧ f x = Ok y) k.
Proof.
  revert k. induction l as [|x l IH]; intros k.
  - intros [= <-]. constructor.
  - rewrite mapM_cons. destruct (f x) as [y|e] eqn:Hx; [|done].
    rewrite bind_Ok. destruct (mapM f l) as [k'|e]; [|done].
    intros [= <-]. constructor.
    + exists x. split; [by left|done].
    + eapply Forall_impl; [by apply IH|].
      intros y' (x' & ? & ?). exists x'. split; [by right|done].
Qed.

Lemma for_loop_invariant {S I} (P : S → Prop) (body : S → I → result S)
    range : ∀ s s',
  P s → (∀ s i s', i ∈ range → P s → body s i = Ok s' → P s') →
  for_loop body s range = Ok s' → P s'.
Proof.
  induction range as [|i range IH]; intros s s' Hs Hbody.
  - by intros [= <-].
  - rewrite for_loop_cons. destruct (body s i) as [s1|e] eqn:Hi; [|done].
    rewrite bind_Ok. apply IH.
    + eapply Hbody; [by left|done..].
    + intros s2 j s3 Hj. apply Hbody. by right.
Qed.

(** The action of edge 0, under the shapes of the data model. *)
Lemma dpg_a_t_edge_0 self σ batch_size ea o_t policy_network :
  0 < _edge_number self →
  length (value ea) = batch_size →
  Forall (fun row => length row = _edge_number self * _edge_action_size self)
         (value ea) →
  _policy_networks self !! 0 = Some policy_network →
  let own := call policy_network σ o_t in
  length (value own) = batch_size →
  ∃ a, dpg_a_t self σ batch_size ea o_t 0 = Ok a
       ∧ value a
         = zip_with (fun o row => o ++ drop (_edge_action_size self) row)
                    (value own) (value ea)
       ∧ watched a ⊆ watched own ∪ watched ea.
Proof.
  intros HN Hb Hrows Hpol own Hown.
  rewrite dpg_a_t_append_edge. change (0 =? 0) with true. cbv iota.
  unfold py_index, policy_module in *. rewrite Hpol, !bind_Ok. fold own.
  assert (seq 0 (_edge_number self) = 0 :: seq 1 (_edge_number self - 1))
    as ->.
  { destruct (_edge_number self) as [|n]; [lia|].
    simpl. by rewrite Nat.sub_0_r. }
  rewrite for_loop_cons.
  change (append_edge self batch_size ea 0 own 0) with (Ok own).
  rewrite bind_Ok.
  destruct (dpg_a_t_loop self batch_size ea (value own) (watched own)
              Hb Hrows Hown (_edge_number self - 1) 1 own)
    as (a & Ha & Hva & Hwa); [lia|lia| |apply union_subseteq_l|].
  { change ((1 - 1) * _edge_action_size self) with 0.
    rewrite zip_with_fst; [done|lia]. }
  exists a. split; [exact Ha|]. split; [|done].
  rewrite Hva. eapply zip_with_Forall_ext; [exact Hrows|].
  intros o row Hrow. cbv beta in Hrow. f_equal. apply take_ge.
  rewrite length_drop. nia.
Qed.

(** The action [_step] computes the actor loss of an edge on. *)
Definition actor_action self σ (transitions : Transition scalar)
    (edge_index : nat) : result (traced (list (list scalar))) :=
  let batch_size := length (observation transitions) in
  ea ← edge_a_t self σ transitions;
  '(o_t, _) ← critic_learning self σ transitions batch_size (_discount self)
                ea edge_index;
  dpg_a_t self σ batch_size ea o_t edge_index.

End Counterfactual.

(** ** Clipping by global norm *)

Section Clipping.
Local Open Scope R_scope.

(** Modelled from the spec: the global norm of a list of gradients (it is
    TensorFlow's, and not part of the repository) is the square root of the
    sum of the squares of all elements of all defined entries. *)
Definition sum_squares (t : list R) : R := foldr (fun x acc => x * x + acc) 0 t.

Definition total_squares (t_list : list (option (list R))) : R :=
  foldr (fun t acc => match t with
                      | Some t => sum_squares t + acc
                      | None => acc
                      end) 0 t_list.

Definition global_norm (t_list : list (option (list R))) : R :=
  sqrt (total_squares t_list).

(** Modelled from the spec: [tf.clip_by_global_norm] is TensorFlow's and
    is not part of the repository.  Clipping by global norm at a threshold
    scales every gradient of the list by the threshold over the larger of
    the global norm and the threshold, on gradients of real numbers; null
    entries stay null. *)
Definition clip_by_global_norm_R (t_list : list (option (list R)))
    (clip_norm : Q) : list (option (list R)) :=
  let scale := Q2R clip_norm / Rmax (global_norm t_list) (Q2R clip_norm) in
  fmap (M := list) (fmap (M := option) (fmap (M := list) (fun x => x * scale)))
       t_list.

Lemma sum_squares_nonneg t : 0 <= sum_squares t.
Proof. induction t as [|x t IH]; simpl; [lra|nra]. Qed.

Lemma total_squares_nonneg t_list : 0 <= total_squares t_list.
Proof.
  induction t_list as [|[t|] ts IH]; simpl; [lra| |done].
  pose proof (sum_squares_nonneg t). lra.
Qed.

Lemma sum_squares_scale s t :
  sum_squares ((fun x => x * s) <$> t) = s * s * sum_squares t.
Proof.
  induction t as [|x t IH]; [simpl; lra|].
  rewrite fmap_cons. unfold sum_squares in *. cbn [foldr]. rewrite IH. lra.
Qed.

Lemma total_squares_scale s t_list :
  total_squares (fmap (M := list) (fmap (M := option)
                   (fmap (M := list) (fun x => x * s))) t_list)
  = s * s * total_squares t_list.
Proof.
  induction t_list as [|[t|] ts IH]; [simpl; lra|..];
    rewrite fmap_cons; cbn [fmap option_fmap option_map];
    unfold total_squares in *; cbn [foldr]; rewrite IH; [|done].
  rewrite sum_squares_scale. lra.
Qed.

Lemma global_norm_scale s t_list :
  0 <= s →
  global_norm (fmap (M := list) (fmap (M := option)
                 (fmap (M := list) (fun x => x * s))) t_list)
  = s * global_norm t_list.
Proof.
  intros Hs. unfold global_norm. rewrite total_squares_scale.
  rewrite sqrt_mult_alt by nra. by rewrite sqrt_square.
Qed.

Lemma scale_one t_list :
  fmap (M := list) (fmap (M := option) (fmap (M := list) (fun x => x * 1)))
       t_list = t_list.
Proof.
  induction t_list as [|[t|] ts IH]; [done|..];
    rewrite fmap_cons, IH; cbn [fmap option_fmap option_map]; [|done].
  do 2 f_equal.
  induction t as [|x t IHt]; [done|]. rewrite fmap_cons, IHt. f_equal. lra.
Qed.

Lemma Q2R_40 : Q2R 40 = 40.
Proof. unfold Q2R. simpl. lra. Qed.

Lemma clip_above t_list :
  40 < global_norm t_list →
  global_norm (clip_by_global_norm_R t_list 40) = 40.
Proof.
  intros Hn. unfold clip_by_global_norm_R. rewrite Q2R_40.
  rewrite Rmax_left by lra.
  rewrite global_norm_scale.
  - field. lra.
  - apply Rlt_le, Rdiv_lt_0_compat; lra.
Qed.

Lemma clip_below t_list :
  global_norm t_list <= 40 → clip_by_global_norm_R t_list 40 = t_list.
Proof.
  intros Hn. unfold clip_by_global_norm_R. rewrite Q2R_40.
  rewrite Rmax_right by lra.
  replace (40 / 40) with 1 by lra. apply scale_one.
Qed.
End Clipping.

(** Lines 265-268 on gradients of real numbers, with the clipping of the
    specification: when clipping is enabled every list of gradients is
    clipped at 40 (a list whose global norm exceeds 40 comes out with
    global norm 40, a list whose global norm is at most 40 comes out
    unchanged); when it is disabled the lists are left as they are. *)
Lemma maybe_clip_global_norm (clipping : bool)
    (gradients : list (list (option (list R)))) :
  length (maybe_clip clip_by_global_norm_R clipping gradients) = length gradients
  ∧ (clipping = true →
     ∀ k g, gradients !! k = Some g →
       maybe_clip clip_by_global_norm_R clipping gradients !! k
       = Some (clip_by_global_norm_R g 40)
       ∧ ((40 < global_norm g)%R →
          global_norm (clip_by_global_norm_R g 40) = 40%R)
       ∧ ((global_norm g <= 40)%R → clip_by_global_norm_R g 40 = g))
  ∧ (clipping = false →
     maybe_clip clip_by_global_norm_R clipping gradients = gradients).
Proof.
  split_and!.
  - unfold maybe_clip. destruct clipping; [|done]. by rewrite length_fmap.
  - intros -> k g Hk. split_and!.
    + unfold maybe_clip. by rewrite list_lookup_fmap, Hk.
    + apply clip_above.
    + apply clip_below.
  - by intros ->.
Qed.

(** ** Distribution Projection *)

Module Projection.
Local Open Scope Q_scope.

(** Modelled from the spec: the fixed support of the value distributions
    (the distributions and their projection are Acme's, and not part of the
    repository): [num_atoms] atoms, evenly spaced from [vmin] to [vmax]. *)
Record support : Type := { vmin : Q; vmax : Q; num_atoms : nat }.

(** Modelled from the spec: the bounds are well formed when
    [vmin < vmax] and there are at least two atoms. *)
Definition well_formed_support (s : support) : Prop :=
  vmin s < vmax s ∧ (2 ≤ num_atoms s)%nat.

(** Modelled from the spec: the distance between two neighbouring atoms of
    the support, and atom [j]. *)
Definition delta (s : support) : Q :=
  (vmax s - vmin s) / (inject_Z (Z.of_nat (num_atoms s)) - 1).

Definition atom (s : support) (j : nat) : Q :=
  vmin s + inject_Z (Z.of_nat j) * delta s.

(** Modelled from the spec: a transported atom is clamped to
    [[vmin, vmax]]. *)
Definition clamp (s : support) (x : Q) : Q := Qmax (vmin s) (Qmin (vmax s) x).

(** Modelled from the spec: mass [w] is added to atom [i] of the projected
    distribution. *)
Definition add_at (i : nat) (w : Q) (m : list Q) : list Q :=
  alter (Qplus w) i m.

(** Modelled from the spec: [acme.tf.losses.categorical] and the
    projection it applies are Acme's and are not part of the repository.
    The mass [p] that sits at [x] after the affine transformation is
    moved to [x] clamped to [[vmin, vmax]] and distributed to the two
    neighbouring atoms of the grid, to each in proportion to the distance
    from the other. *)
Definition distribute (s : support) (m : list Q) (x p : Q) : list Q :=
  let b := (clamp s x - vmin s) / delta s in
  let l := Qfloor b in
  let upper := b - inject_Z l in
  add_at (S (Z.to_nat l)) (p * upper)
         (add_at (Z.to_nat l) (p * (1 - upper)) m).

(** Modelled from the spec: the projection of the distribution [q_next]
    transported by [x ↦ r + γd · x] back onto the atoms of the support. *)
Definition project (s : support) (r γd : Q) (q_next : list Q) : list Q :=
  foldl (fun m '(j, p) => distribute s m (r + γd * atom s j) p)
        (replicate (num_atoms s) 0)
        (imap pair q_next).

(** Modelled from the spec: the total probability of a distribution. *)
Definition mass (m : list Q) : Q := foldr Qplus 0 m.

(** *** Conservation of mass *)

Lemma mass_cons x m : mass (x :: m) = x + mass m.
Proof. done. Qed.

Lemma mass_replicate_0 n : mass (replicate n 0) == 0.
Proof.
  induction n as [|n IH]; [reflexivity|].
  change (replicate (S n) 0) with (0 :: replicate n 0).
  rewrite mass_cons, IH. lra.
Qed.

Lemma mass_add_at_lt i w m :
  (i < length m)%nat → mass (add_at i w m) == w + mass m.
Proof.
  unfold add_at. revert i. induction m as [|x m IH]; intros i Hi.
  - simpl in Hi. lia.
  - destruct i as [|i].
    + change (alter (Qplus w) 0%nat (x :: m)) with ((w + x) :: m).
      rewrite !mass_cons. lra.
    + change (alter (Qplus w) (S i) (x :: m))
        with (x :: alter (Qplus w) i m).
      rewrite !mass_cons, IH by (simpl in Hi; lia). lra.
Qed.

Lemma add_at_ge i w m : (length m ≤ i)%nat → add_at i w m = m.
Proof.
  unfold add_at. revert i. induction m as [|x m IH]; intros i Hi; [done|].
  destruct i as [|i]; [simpl in Hi; lia|].
  change (alter (Qplus w) (S i) (x :: m)) with (x :: alter (Qplus w) i m).
  rewrite IH; [done|]. simpl in Hi. lia.
Qed.

Lemma length_add_at i w m : length (add_at i w m) = length m.
Proof. apply length_alter. Qed.

Lemma delta_pos s : well_formed_support s → 0 < delta s.
Proof.
  intros [Hv Hn]. unfold delta. apply Qlt_shift_div_l.
  - assert (2 <= inject_Z (Z.of_nat (num_atoms s))) as Hq.
    { change 2 with (inject_Z 2). rewrite <- Zle_Qle. lia. }
    lra.
  - lra.
Qed.

Lemma clamp_bounds s x :
  well_formed_support s → vmin s <= clamp s x ∧ clamp s x <= vmax s.
Proof.
  intros [Hv _]. unfold clamp. split.
  - apply Q.le_max_l.
  - apply Q.max_lub; [lra|apply Q.le_min_l].
Qed.

(** The position of a clamped value on the grid lies between the first
    and the last atom. *)
Lemma grid_position s x :
  well_formed_support s →
  let b := (clamp s x - vmin s) / delta s in
  0 <= b ∧ b <= inject_Z (Z.of_nat (num_atoms s)) - 1.
Proof.
  intros Hwf b. pose proof (delta_pos s Hwf) as Hd.
  destruct (clamp_bounds s x Hwf) as [Hlo Hhi]. split.
  - apply Qle_shift_div_l; [done|]. lra.
  - apply Qle_shift_div_r; [done|].
    assert ((inject_Z (Z.of_nat (num_atoms s)) - 1) * delta s
            == vmax s - vmin s) as ->.
    { unfold delta. field. destruct Hwf as [_ Hn].
      assert (2 <= inject_Z (Z.of_nat (num_atoms s))) as Hq.
      { change 2 with (inject_Z 2). rewrite <- Zle_Qle. lia. }
      lra. }
    lra.
Qed.

Lemma distribute_mass s m x p :
  well_formed_support s → length m = num_atoms s →
  mass (distribute s m x p) == p + mass m
  ∧ length (distribute s m x p) = num_atoms s.
Proof.
  intros Hwf Hm. split; [|unfold distribute; by rewrite !length_add_at].
  unfold distribute. cbv zeta.
  destruct (grid_position s x Hwf) as [Hb0 Hb1].
  set (b := (clamp s x - vmin s) / delta s) in *.
  pose proof (Qfloor_le b) as Hfl. pose proof (Qlt_floor b) as Hfu.
  assert (0 <= Qfloor b)%Z as Hl0.
  { change 0%Z with (Qfloor 0). by apply Qfloor_resp_le. }
  assert (Qfloor b <= Z.of_nat (num_atoms s) - 1)%Z as Hl1.
  { rewrite Zle_Qle. unfold Zminus. rewrite inject_Z_plus.
    change (inject_Z (- (1))) with (- (1)). lra. }
  destruct (decide (S (Z.to_nat (Qfloor b)) < length m)%nat) as [Hin|Hout].
  - rewrite mass_add_at_lt by (by rewrite length_add_at).
    rewrite mass_add_at_lt by lia. ring.
  - rewrite (add_at_ge (S _)) by (rewrite length_add_at; lia).
    rewrite mass_add_at_lt by lia.
    assert (Qfloor b = Z.of_nat (num_atoms s) - 1)%Z as Hl by lia.
    assert (b == inject_Z (Qfloor b)) as Hb.
    { apply Qle_antisym; [|done]. rewrite Hl. unfold Zminus.
      rewrite inject_Z_plus. change (inject_Z (- (1))) with (- (1)). lra. }
    rewrite <- Hb. ring.
Qed.

Lemma project_fold s (r γd : Q) (jps : list (nat * Q)) : ∀ m,
  well_formed_support s → length m = num_atoms s →
  mass (foldl (fun m '(j, p) => distribute s m (r + γd * atom s j) p) m jps)
  == mass (snd <$> jps) + mass m.
Proof.
  induction jps as [|[j p] jps IH]; intros m Hwf Hm.
  - simpl. lra.
  - destruct (distribute_mass s m (r + γd * atom s j) p Hwf Hm) as [Hd Hl].
    cbn [foldl]. rewrite IH by done. rewrite Hd.
    rewrite fmap_cons, mass_cons. simpl. lra.
Qed.
End Projection.

(** C8. For well-formed support bounds, the projection of the transported
    distribution back onto the atoms conserves mass: the projected
    probabilities sum to what the bootstrap distribution sums to, hence to
    1 for a probability distribution; every transported atom is clamped to
    [[vmin, vmax]] before its mass is given to its neighbours. *)
Theorem projection_conserves_mass (s : Projection.support) (r γd : Q)
    (q_next : list Q) :
  Projection.well_formed_support s →
  (Projection.mass (Projection.project s r γd q_next)
   == Projection.mass q_next)%Q
  ∧ length (Projection.project s r γd q_next) = Projection.num_atoms s
  ∧ ((Projection.mass q_next == 1)%Q →
     (Projection.mass (Projection.project s r γd q_next) == 1)%Q)
  ∧ (∀ x, (Projection.vmin s <= Projection.clamp s x)%Q
          ∧ (Projection.clamp s x <= Projection.vmax s)%Q).
Proof.
  intros Hwf.
  assert ((Projection.mass (Projection.project s r γd q_next)
           == Projection.mass q_next)%Q) as Hmass.
  { unfold Projection.project.
    rewrite Projection.project_fold by (done || apply length_replicate).
    rewrite Projection.mass_replicate_0.
    assert (snd <$> imap pair q_next = q_next) as ->.
    { assert (∀ (f : nat → nat), snd <$> imap (fun i x => (f i, x)) q_next = q_next)
        as Hsnd.
      { induction q_next as [|x q IH]; intros f; [done|].
        rewrite imap_cons, fmap_cons. simpl. f_equal. apply (IH (f ∘ S)). }
      apply (Hsnd (fun i => i)). }
    lra. }
  split_and!.
  - exact Hmass.
  - unfold Projection.project.
    assert (∀ jps m, length m = Projection.num_atoms s →
              length (foldl (fun m '(j, p) =>
                        Projection.distribute s m
                          (r + γd * Projection.atom s j) p) m jps)
              = Projection.num_atoms s) as Hlen.
    { induction jps as [|[j p] jps IH]; intros m Hm; [done|].
      cbn [foldl]. apply IH. unfold Projection.distribute.
      by rewrite !Projection.length_add_at. }
    apply Hlen, length_replicate.
  - intros H1. by rewrite Hmass.
  - intros x. by apply Projection.clamp_bounds.
Qed.


(** ** The learner: the keys of the dictionary of target actions *)

Section DictionaryKeys.
Context `{Framework}.
Implicit Types (self : MAD3PGLearner) (σ : var → param).

(** The target action of one edge, as the loop of lines 189-194 computes
    it. *)
Definition a_t self σ (transitions : Transition scalar) (i : nat)
    : result (traced (list (list scalar))) :=
  observation ← select_axis1 (observation transitions) i;
  target_observation_network ← py_index (_target_observation_networks self) i;
  let o_t := stop_gradient
               (call target_observation_network σ (constant observation)) in
  target_policy_network ← py_index (_target_policy_networks self) i;
  mret (call target_policy_network σ o_t).

Definition store_a_t self σ (transitions : Transition scalar)
    (d : gmap string (traced (list (list scalar)))) (i : nat)
    : result (gmap string (traced (list (list scalar)))) :=
  a ← a_t self σ transitions i; mret (<[tensor_str i := a]> d).

Lemma a_t_dict_store self σ transitions :
  a_t_dict self σ transitions
  = for_loop (store_a_t self σ transitions) ∅
             (seq 0 (length (_target_observation_networks self))).
Proof.
  unfold a_t_dict.
  generalize (∅ : gmap string (traced (list (list scalar)))).
  induction (seq 0 (length (_target_observation_networks self)))
    as [|i range IH]; intros d; [done|].
  rewrite !for_loop_cons.
  assert (∀ d', store_a_t self σ transitions d' i
          = (observation ← select_axis1 (observation transitions) i;
             target_observation_network ←
               py_index (_target_observation_networks self) i;
             let o_t := call target_observation_network σ
                          (constant observation) in
             let o_t := stop_gradient o_t in
             target_policy_network ←
               py_index (_target_policy_networks self) i;
             let a_t := call target_policy_network σ o_t in
             mret (<[tensor_str i := a_t]> d'))) as Hbody.
  { intros d'. unfold store_a_t, a_t.
    destruct (select_axis1 (observation transitions) i); [|done].
    rewrite !bind_Ok.
    destruct (py_index (_target_observation_networks self) i); [|done].
    rewrite !bind_Ok.
    destruct (py_index (_target_policy_networks self) i); reflexivity. }
  rewrite <- Hbody.
  destruct (store_a_t self σ transitions d i) as [d1|e]; [|done].
  rewrite !bind_Ok. apply IH.
Qed.

End DictionaryKeys.


(** ** The learner: what the loop of lines 189-194 stores *)

Section StoredActions.
Context `{Framework}.
Implicit Types (self : MAD3PGLearner) (σ : var → param).

Lemma a_t_Ok self σ transitions i a :
  a_t self σ transitions i = Ok a →
  ∃ x encoder policy,
    select_axis1 (observation transitions) i = Ok x
    ∧ _target_observation_networks self !! i = Some encoder
    ∧ _target_policy_networks self !! i = Some policy
    ∧ a = call policy σ (stop_gradient (call encoder σ (constant x))).
Proof.
  unfold a_t, py_index.
  destruct (select_axis1 (observation transitions) i) as [x|]; [|done].
  rewrite bind_Ok.
  destruct (_target_observation_networks self !! i) as [encoder|]; [|done].
  rewrite bind_Ok.
  destruct (_target_policy_networks self !! i) as [policy|]; [|done].
  rewrite bind_Ok. intros [= <-]. by exists x, encoder, policy.
Qed.

(** When the loop variables print differently, the loop fills the
    dictionary with the target actions, each under [str] of its loop
    variable, or raises what the first of them raises. *)
Lemma store_loop self σ transitions : ∀ k m d0,
  (∀ i j, m ≤ i → i < j → j < m + k → tensor_str i ≠ tensor_str j) →
  match mapM (a_t self σ transitions) (seq m k) with
  | Err e => for_loop (store_a_t self σ transitions) d0 (seq m k) = Err e
  | Ok a_ts =>
    ∃ d, for_loop (store_a_t self σ transitions) d0 (seq m k) = Ok d
         ∧ (∀ j a, a_ts !! j = Some a → d !! tensor_str (m + j) = Some a)
         ∧ (∀ key, (∀ j, j < k → key ≠ tensor_str (m + j)) →
                   d !! key = d0 !! key)
  end.
Proof.
  induction k as [|k IH]; intros m d0 Hkeys.
  - simpl. exists d0. split_and!; [done| |done]. by intros [|?] ?.
  - change (seq m (S k)) with (m :: seq (S m) k).
    rewrite mapM_cons, for_loop_cons.
    assert (store_a_t self σ transitions d0 m
            = a ← a_t self σ transitions m; mret (<[tensor_str m := a]> d0))
      as -> by done.
    destruct (a_t self σ transitions m) as [a|e]; [|reflexivity].
    rewrite !bind_Ok.
    specialize (IH (S m) (<[tensor_str m := a]> d0)).
    destruct (mapM (a_t self σ transitions) (seq (S m) k)) as [a_ts|e].
    + destruct IH as (d & Hd & Hin & Hout);
        [intros i j ? ? ?; apply Hkeys; lia|].
      rewrite bind_Ok. exists d. split_and!; [done| |].
      * intros [|j] a' Hj.
        -- injection Hj as <-. rewrite Nat.add_0_r, Hout.
           ++ apply lookup_insert_eq.
           ++ intros j Hj. apply Hkeys; lia.
        -- rewrite <- Nat.add_succ_comm. by apply Hin.
      * intros key Hkey. rewrite Hout.
        -- apply lookup_insert_ne. intros Heq.
           apply (Hkey 0); [lia|]. by rewrite Nat.add_0_r.
        -- intros j Hj. rewrite Nat.add_succ_comm. apply Hkey. lia.
    + rewrite bind_Err. apply IH. intros i j ? ? ?. apply Hkeys; lia.
Qed.
End StoredActions.


(** ** The learner: a dictionary written under one key and read under
    another *)

Section Loops.
Context `{Framework}.
Implicit Types (self : MAD3PGLearner) (σ : var → param).

Lemma mapM_Err {A B} (f : A → result B) l e :
  mapM f l = Err e → ∃ x, x ∈ l ∧ f x = Err e.
Proof.
  induction l as [|x l IH]; [done|].
  rewrite mapM_cons. destruct (f x) as [y|e'] eqn:Hx.
  - rewrite bind_Ok. destruct (mapM f l) as [k|e'] eqn:Hm; [done|].
    rewrite bind_Err. intros [= <-].
    destruct IH as (x' & ? & ?); [done|]. exists x'. split; [by right|done].
  - rewrite bind_Err. intros [= <-]. exists x. split; [by left|done].
Qed.

Lemma select_axis1_Err {A} (t : list (list A)) i e :
  select_axis1 t i = Err e → e = InvalidArgumentError.
Proof.
  intros (row & _ & Hrow)%mapM_Err. destruct (row !! i); congruence.
Qed.

Lemma for_loop_Err {S I} (body : S → I → result S) range : ∀ s e,
  for_loop body s range = Err e → ∃ s' i, i ∈ range ∧ body s' i = Err e.
Proof.
  induction range as [|i range IH]; intros s e; [done|].
  rewrite for_loop_cons. destruct (body s i) as [s1|e1] eqn:Hi.
  - rewrite bind_Ok. intros (s' & j & ? & ?)%IH.
    exists s', j. split; [by right|done].
  - rewrite bind_Err. intros [= <-]. exists s, i. split; [by left|done].
Qed.

Lemma for_loop_raises {S I} (body : S → I → result S) range i :
  i ∈ range → (∀ s, ∃ e, body s i = Err e) →
  ∀ s, ∃ e, for_loop body s range = Err e.
Proof.
  intros Hi Hbody. induction range as [|j range IH]; intros s.
  - by apply elem_of_nil in Hi.
  - rewrite for_loop_cons. destruct (body s j) as [s1|e1] eqn:Hj.
    + rewrite bind_Ok. apply elem_of_cons in Hi as [->|Hi].
      * destruct (Hbody s) as [e He]. congruence.
      * by apply IH.
    + exists e1. by rewrite bind_Err.
Qed.

(** The loop of lines 189-194 raises for a slice that is out of range or
    for a target policy network that is not there. *)
Lemma a_t_dict_Err self σ transitions e :
  a_t_dict self σ transitions = Err e →
  e = InvalidArgumentError ∨ e = IndexError.
Proof.
  unfold a_t_dict. intros (d & i & _ & Hi)%for_loop_Err.
  destruct (select_axis1 (observation transitions) i) as [x|e1] eqn:Hx.
  2:{ rewrite bind_Err in Hi. injection Hi as <-.
      left. by eapply select_axis1_Err. }
  rewrite bind_Ok in Hi. unfold py_index in Hi.
  destruct (_target_observation_networks self !! i);
    [|right; rewrite bind_Err in Hi; congruence].
  rewrite bind_Ok in Hi.
  destruct (_target_policy_networks self !! i);
    [done|right; rewrite bind_Err in Hi; congruence].
Qed.

Lemma edge_slice_Err self batch_size (ea : traced (list (list scalar))) i e :
  edge_slice self batch_size ea i = Err e → e = InvalidArgumentError.
Proof.
  unfold edge_slice, on_value, reshape_edges.
  destruct (length (mjoin (value ea)) =? _) ; [|by intros [= <-]].
  rewrite !bind_Ok. cbn [value watched].
  destruct (select_axis1 _ i) as [t|e1] eqn:Ht; [done|].
  rewrite bind_Err. intros [= <-]. by eapply select_axis1_Err.
Qed.

Lemma concat_axis1_t_pair_Err {A} (x y : traced (list (list A))) e :
  concat_axis1_t [x; y] = Err e → e = InvalidArgumentError.
Proof.
  unfold concat_axis1_t, concat_axis1. cbn [fmap list_fmap].
  destruct (forallb _ _); [done|]. by intros [= <-].
Qed.

Lemma append_edge_Err self batch_size ea edge_index acc i e :
  append_edge self batch_size ea edge_index acc i = Err e →
  e = AttributeError "_edge_policy_networks" ∨ e = InvalidArgumentError.
Proof.
  unfold append_edge.
  destruct (negb (i =? 0) && negb (i =? edge_index)).
  - destruct (edge_slice self batch_size ea i) as [other|e1] eqn:Hs.
    + rewrite bind_Ok. intros ?%concat_axis1_t_pair_Err. by right.
    + rewrite bind_Err. intros [= <-]. right. by eapply edge_slice_Err.
  - destruct (negb (i =? 0) && (i =? edge_index)); [|done].
    intros [= <-]. by left.
Qed.

(** Building the action of an edge that is not edge 0 reaches the read of
    the attribute that was never assigned, unless a slice before it
    raises. *)
Lemma dpg_a_t_raises self σ batch_size ea o_t edge_index :
  1 ≤ edge_index < _edge_number self →
  ∃ e, dpg_a_t self σ batch_size ea o_t edge_index = Err e
       ∧ (e = AttributeError "_edge_policy_networks"
          ∨ e = InvalidArgumentError).
Proof.
  intros Hk. rewrite dpg_a_t_append_edge.
  destruct (Nat.eqb_spec edge_index 0) as [?|_]; [lia|].
  destruct (edge_slice self batch_size ea 0) as [first|e] eqn:Hs.
  - rewrite bind_Ok.
    destruct (for_loop_raises (append_edge self batch_size ea edge_index)
                (seq 0 (_edge_number self)) edge_index) with (s := first)
      as [e He].
    { apply elem_of_seq. lia. }
    { intros s. exists (AttributeError "_edge_policy_networks").
      unfold append_edge. rewrite Nat.eqb_refl.
      destruct (Nat.eqb_spec edge_index 0) as [?|_]; [lia|]. done. }
    exists e. split; [done|].
    apply for_loop_Err in He as (s' & i & _ & Hi).
    by eapply append_edge_Err.
  - exists e. rewrite bind_Err. split; [done|]. right.
    by eapply edge_slice_Err.
Qed.

Lemma losses_edge_a_t_Err self σ transitions e :
  edge_a_t self σ transitions = Err e → losses self σ transitions = Err e.
Proof. intros He. unfold losses. cbv zeta. by rewrite He. Qed.

Lemma actor_action_edge_a_t_Err self σ transitions edge_index e :
  edge_a_t self σ transitions = Err e →
  actor_action self σ transitions edge_index = Err e.
Proof. intros He. unfold actor_action. cbv zeta. by rewrite He. Qed.

Lemma _replicated_step_losses_Err self st sample rest e :
  _target_update_period self ≠ 0%Z →
  _iterator st = sample :: rest →
  losses self (values (synchronise self st)) sample = Err e →
  _replicated_step self st = (Err e, pull (synchronise self st)).
Proof.
  intros HP Hit Hl. rewrite _replicated_step_unfold by done. rewrite Hit.
  by rewrite (_step_losses_Err self sample (pull (synchronise self st)) e Hl).
Qed.
End Loops.

Section TensorKeys.
Context `{Framework}.
Implicit Types (self : MAD3PGLearner) (σ : var → param) (st : State).

(** [str] of the loop variable of [for i in tf.range(n)], a tensor, is
    never the string ["0"], which is [str] of the Python integer [0]. *)
Hypothesis tensor_keys : ∀ i, tensor_str i ≠ "0"%string.

Lemma a_t_dict_without_decimal_key self σ transitions d :
  a_t_dict self σ transitions = Ok d → d !! "0"%string = None.
Proof.
  intros Hd. unfold a_t_dict in Hd.
  refine (for_loop_invariant
            (fun d : gmap string (traced (list (list scalar))) =>
               d !! "0"%string = None) _ _ _ _ _ _ Hd); [done|].
  intros d0 i d1 Hi Hd0.
  destruct (select_axis1 (observation transitions) i); [|done].
  rewrite bind_Ok.
  destruct (py_index (_target_observation_networks self) i); [|done].
  rewrite bind_Ok.
  destruct (py_index (_target_policy_networks self) i); [|done].
  rewrite bind_Ok. intros [= <-].
  rewrite lookup_insert_ne; [done|]. apply tensor_keys.
Qed.

(** Line 196 never returns: it raises what the loop before it raised; with
    no target observation network [tf.concat] is given an empty list; and
    otherwise the first key read is missing. *)
Lemma edge_a_t_raises self σ transitions :
  edge_a_t self σ transitions
  = match a_t_dict self σ transitions with
    | Err e => Err e
    | Ok _ =>
      if decide (length (_target_observation_networks self) = 0)
      then Err ValueError
      else Err (KeyError "0")
    end.
Proof.
  unfold edge_a_t.
  destruct (a_t_dict self σ transitions) as [d|e] eqn:Hd; [|done].
  rewrite bind_Ok. apply a_t_dict_without_decimal_key in Hd.
  destruct (length (_target_observation_networks self)) as [|n]; [done|].
  rewrite decide_False by done.
  change (seq 0 (S n)) with (0 :: seq 1 n).
  rewrite mapM_cons. cbv beta.
  assert (py_getitem d (pretty 0) = Err (KeyError "0")) as ->
    by (unfold py_getitem; change (pretty 0) with "0"%string;
        by rewrite Hd).
  done.
Qed.

Lemma edge_a_t_Err self σ transitions :
  ∃ e, edge_a_t self σ transitions = Err e
       ∧ ∀ name, e ≠ AttributeError name.
Proof.
  rewrite edge_a_t_raises.
  destruct (a_t_dict self σ transitions) as [d|e] eqn:Hd.
  - destruct (decide _); eexists; (split; [reflexivity|done]).
  - exists e. split; [done|].
    by destruct (a_t_dict_Err _ _ _ _ Hd) as [-> | ->].
Qed.

Lemma _step_raises self sample st :
  ∃ e, losses self (values st) sample = Err e
       ∧ _step self sample st = (Err e, st)
       ∧ ∀ name, e ≠ AttributeError name.
Proof.
  destruct (edge_a_t_Err self (values st) sample) as (e & He & Hne).
  exists e. apply losses_edge_a_t_Err in He.
  split_and!; [done| |done]. by apply _step_losses_Err.
Qed.

Lemma _replicated_step_raises self st :
  ∃ e st', _replicated_step self st = (Err e, st')
           ∧ (∀ name, e ≠ AttributeError name)
           ∧ slots st' = slots st
           ∧ ∀ v, v ∉ target_vars self → values st' v = values st v.
Proof.
  destruct (decide (_target_update_period self = 0%Z)) as [HP|HP].
  { exists InvalidArgumentError, st.
    by rewrite _replicated_step_zero_period. }
  destruct (_iterator st) as [|sample rest] eqn:Hit.
  { exists StopIteration, (synchronise self st).
    rewrite _replicated_step_unfold, Hit by done.
    split_and!; [done..|]. intros v Hv. by apply synchronise_frame. }
  destruct (edge_a_t_Err self (values (synchronise self st)) sample)
    as (e & He & Hne).
  exists e, (pull (synchronise self st)).
  split_and!; [|done|done|].
  - eapply _replicated_step_losses_Err; [done..|].
    by apply losses_edge_a_t_Err.
  - intros v Hv. by apply synchronise_frame.
Qed.

Lemma step_raises self st :
  ∃ e st', step self st = (Err e, st')
           ∧ (∀ name, e ≠ AttributeError name)
           ∧ slots st' = slots st
           ∧ ∀ v, v ∉ target_vars self → values st' v = values st v.
Proof.
  destruct (_replicated_step_raises self st) as (e & st' & Hs & ?).
  exists e, st'. split; [|done]. by rewrite step_unfold, Hs.
Qed.

Lemma step_KeyError self st sample rest d :
  _target_update_period self ≠ 0%Z →
  _iterator st = sample :: rest →
  0 < length (_target_observation_networks self) →
  a_t_dict self (values (synchronise self st)) sample = Ok d →
  step self st = (Err (KeyError "0"), pull (synchronise self st)).
Proof.
  intros HP Hit Hn Hd.
  eapply step_losses_Err; [done..|]. apply losses_edge_a_t_Err.
  rewrite edge_a_t_raises, Hd. rewrite decide_False by lia. done.
Qed.
End TensorKeys.

(** C1, as the code has it. The action the claim describes is never
    built.  The dictionary of target actions is written under [str] of a
    tensor and read under [str] of a Python integer, so the joint target
    action is not assembled: what raises there is what the computation of
    the action of the actor loss, and of the losses, raises, for every
    learner, batch and edge.  What is written for an edge [k] that is not
    edge 0 cannot return for any joint target action either: it reads
    [_edge_policy_networks], which does not exist, unless a slice before
    that raises.  And the loss is taken by [losses.dpg] with respect to the
    joint target action, not the action built for the edge. *)
Theorem actor_action_raises `{Framework} (self : MAD3PGLearner)
    (σ : var → param) (transitions : Transition scalar) (k : nat) :
  (∀ i, tensor_str i ≠ "0"%string) →
  (∃ e, edge_a_t self σ transitions = Err e
        ∧ actor_action self σ transitions k = Err e
        ∧ losses self σ transitions = Err e)
  ∧ (1 ≤ k < _edge_number self →
     ∀ batch_size ea o_t,
       ∃ e, dpg_a_t self σ batch_size ea o_t k = Err e
            ∧ (e = AttributeError "_edge_policy_networks"
               ∨ e = InvalidArgumentError))
  ∧ (∀ batch_size ea o_t,
       actor_learning self σ batch_size ea o_t k
       = dpg_a_t ← dpg_a_t self σ batch_size ea o_t k;
         critic_network ← py_index (_critic_networks self) k;
         let dpg_z_t := call2 critic_network σ o_t dpg_a_t in
         losses_dpg (Traced (dist_mean (value dpg_z_t)) (watched dpg_z_t))
                    ea (if _clipping self then Some 1%Q else None)
                    (_clipping self)).
Proof.
  intros Hkeys. split_and!.
  - destruct (edge_a_t_Err Hkeys self σ transitions) as (e & He & _).
    exists e. split_and!; [done| |].
    + by apply actor_action_edge_a_t_Err.
    + by apply losses_edge_a_t_Err.
  - intros Hk batch_size ea o_t. by apply dpg_a_t_raises.
  - reflexivity.
Qed.

(** C4, as the code has it. A learning step reports nothing: from every
    state it raises, for every learner, and it has not run an optimizer
    nor changed a variable that is not a target variable when it does.
    (Had the tape block returned, lines 278-281 would return the lists of
    the losses of the edges; the means of lines 242-243 are not used.) *)
Theorem learning_step_reports_nothing `{Framework} (self : MAD3PGLearner)
    (st : State) :
  (∀ i, tensor_str i ≠ "0"%string) →
  (∃ e st', _replicated_step self st = (Err e, st')
            ∧ slots st' = slots st
            ∧ ∀ v, v ∉ target_vars self → values st' v = values st v)
  ∧ ∀ fetches st', _replicated_step self st ≠ (Ok fetches, st').
Proof.
  intros Hkeys.
  destruct (_replicated_step_raises Hkeys self st)
    as (e & st' & Hs & _ & Hslots & Hvalues).
  split; [by exists e, st'|]. intros f st1. by rewrite Hs.
Qed.



(** * A small instance

    Integer tensors, one variable per network, and networks simple enough
    to run the learner by computation. *)

Module Toy.

Definition sum_Z (xs : list Z) : Z := foldr Z.add 0%Z xs.

(** The framework of the instance, for a given [str] of loop variables.
    Its [losses_dpg] takes every pair of arguments; Acme's raises
    [ValueError] when [q_max] is not a function of [a_max]. *)
Definition framework (str : nat → string) : Framework := {|
  scalar := Z;
  param := Z;
  grad := Z;
  dist := list Z;
  opt_state := nat;
  tensor_str := str;
  scalar_mul := Z.mul;
  reduce_mean := fun xs => (sum_Z xs / Z.of_nat (length xs))%Z;
  dist_mean := fun d => d;
  losses_categorical := fun q_tm1 r_t d_t q_t =>
    Traced (zip_with Z.sub (value q_tm1)
              (zip_with Z.add r_t (zip_with Z.mul d_t (value q_t))))
           (watched q_tm1);
  losses_dpg := fun q_max a_max dqda_clipping clip_norm =>
    Ok (Traced (Z.opp <$> value q_max) (watched q_max ∪ watched a_max));
  backward := fun σ transitions kind edge_index v => 1%Z;
  clip_by_global_norm := fun t_list clip_norm => t_list;
  optimizer_update := fun s g p => (p - g)%Z;
  optimizer_next := fun s gs => S s;
  replica_context := {| all_reduce_mean := fun gs => gs |};
  replicator_reduce := fun t => t;
|}.

(** Loop variables print as the integers they hold, which tensors do not:
    in this instance, and in no run of TensorFlow, the dictionary of target
    actions is read back.  It serves to evaluate on numbers what the lines
    of the learner compute; [Eager] below has the keys of tensors. *)
#[local] Instance toy : Framework := framework pretty.

(** [tf2_utils.batch_concat]: no variables. *)
Definition observation_net : observation_module :=
  {| variables := []; forward := fun _ x => x |}.

(** Adds its variable to every component of its input. *)
Definition policy_net (v : var) : policy_module :=
  {| variables := [v];
     forward := fun ps x => fmap (M := list) (Z.add (sum_Z ps)) <$> x |}.

(** One value per sample: observation, action and the variable, summed. *)
Definition critic_net (v : var) : critic_module :=
  {| variables := [v];
     forward := fun ps oa =>
       zip_with (fun o a => (sum_Z o + sum_Z a + sum_Z ps)%Z) oa.1 oa.2 |}.

Definition one_edge : MAD3PGLearner := {|
  _policy_networks := [policy_net 0];
  _critic_networks := [critic_net 1];
  _target_policy_networks := [policy_net 2];
  _target_critic_networks := [critic_net 3];
  _observation_networks := [observation_net];
  _target_observation_networks := [observation_net];
  _discount := 1%Z;
  _clipping := true;
  _target_update_period := 2;
  _policy_optimizers := [0];
  _critic_optimizers := [1];
  _edge_number := 1;
  _edge_action_size := 1;
|}.

Definition two_edges : MAD3PGLearner := {|
  _policy_networks := [policy_net 0; policy_net 1];
  _critic_networks := [critic_net 2; critic_net 3];
  _target_policy_networks := [policy_net 4; policy_net 5];
  _target_critic_networks := [critic_net 6; critic_net 7];
  _observation_networks := [observation_net; observation_net];
  _target_observation_networks := [observation_net; observation_net];
  _discount := 1%Z;
  _clipping := true;
  _target_update_period := 2;
  _policy_optimizers := [0; 1];
  _critic_optimizers := [2; 3];
  _edge_number := 2;
  _edge_action_size := 1;
|}.

(** One transition for one edge: the observation is 1, the next one 2. *)
Definition sample1 : Transition Z := {|
  observation := [[[1%Z]]];
  action := [[5%Z]];
  reward := [[1%Z]];
  discount := [1%Z];
  next_observation := [[[2%Z]]];
|}.

(** One transition for two edges. *)
Definition sample2 : Transition Z := {|
  observation := [[[1%Z]; [10%Z]]];
  action := [[5%Z; 6%Z]];
  reward := [[1%Z; 1%Z]];
  discount := [1%Z];
  next_observation := [[[2%Z]; [20%Z]]];
|}.

(** Variable [v] holds [100 * v]; the counter is [n]. *)
Definition state0 (n : Z) (samples : list (Transition Z)) : State := {|
  values := fun v => (100 * Z.of_nat v)%Z;
  _num_steps := n;
  slots := fun _ => 0;
  _iterator := samples;
|}.

(** A batch with no edge in it: [observation[:, 0, :]] is out of range. *)
Definition bad_sample : Transition Z := {|
  observation := [[]];
  action := [[5%Z]];
  reward := [[1%Z]];
  discount := [1%Z];
  next_observation := [[]];
|}.

Lemma one_edge_well_formed : well_formed one_edge.
Proof.
  split.
  - repeat constructor.
  - repeat constructor.
  - repeat constructor.
  - done.
  - intros v Hv Ht. unfold online_vars, target_vars, all_variables in *.
    simpl in *. set_unfold. intuition lia.
  - intros s s' d Hs Hs'. unfold sync_pairs in *. simpl in *.
    set_unfold. intuition congruence.
Qed.


(** C2 on the small instance: with observation 1 and next observation 2,
    the joint target action the code passes to the target critic is the
    target policy's action on the observation (200 + 1), where the claim
    has its action on the next observation (200 + 2). *)
Lemma edge_a_t_reads_observation :
  let σ := values (state0 0 []) in
  value <$> edge_a_t one_edge σ sample1 = Ok [[201%Z]]
  ∧ value <$> joint_target_action one_edge σ sample1 = Ok [[202%Z]]
  ∧ edge_a_t one_edge σ sample1 ≠ joint_target_action one_edge σ sample1.
Proof.
  intros σ.
  assert (value <$> edge_a_t one_edge σ sample1 = Ok [[201%Z]]) as Hcode
    by (vm_compute; reflexivity).
  assert (value <$> joint_target_action one_edge σ sample1 = Ok [[202%Z]])
    as Hspec by (vm_compute; reflexivity).
  split_and!; [done..|]. intros Heq. rewrite Heq in Hcode. congruence.
Qed.



End Toy.

(** * The same instance with tensors as loop variables *)

Module Eager.

(** [str] of a scalar integer tensor. *)
Definition tensor_str (i : nat) : string :=
  "tf.Tensor(" +:+ pretty i +:+ ", shape=(), dtype=int32)".

#[local] Instance eager : Framework := Toy.framework tensor_str.

Definition observation_net : observation_module :=
  {| variables := []; forward := fun _ x => x |}.

Definition policy_net (v : var) : policy_module :=
  {| variables := [v];
     forward := fun ps x => fmap (M := list) (Z.add (Toy.sum_Z ps)) <$> x |}.

(** One edge; the critics play no part in the joint target action. *)
Definition one_edge : MAD3PGLearner := {|
  _policy_networks := [policy_net 0];
  _critic_networks := [];
  _target_policy_networks := [policy_net 2];
  _target_critic_networks := [];
  _observation_networks := [observation_net];
  _target_observation_networks := [observation_net];
  _discount := 1%Z;
  _clipping := true;
  _target_update_period := 2;
  _policy_optimizers := [0];
  _critic_optimizers := [1];
  _edge_number := 1;
  _edge_action_size := 1;
|}.

Definition sample1 : Transition Z := {|
  observation := [[[1%Z]]];
  action := [[5%Z]];
  reward := [[1%Z]];
  discount := [1%Z];
  next_observation := [[[2%Z]]];
|}.


Lemma tensor_str_not_decimal i : tensor_str i ≠ "0"%string.
Proof. unfold tensor_str. simpl. discriminate. Qed.

(** One value per sample: observation, action and the variable, summed. *)
Definition critic_net (v : var) : critic_module :=
  {| variables := [v];
     forward := fun ps oa =>
       zip_with (fun o a => (Toy.sum_Z o + Toy.sum_Z a + Toy.sum_Z ps)%Z)
                oa.1 oa.2 |}.

Definition single_edge : MAD3PGLearner := {|
  _policy_networks := [policy_net 0];
  _critic_networks := [critic_net 1];
  _target_policy_networks := [policy_net 2];
  _target_critic_networks := [critic_net 3];
  _observation_networks := [observation_net];
  _target_observation_networks := [observation_net];
  _discount := 1%Z;
  _clipping := true;
  _target_update_period := 2;
  _policy_optimizers := [0];
  _critic_optimizers := [1];
  _edge_number := 1;
  _edge_action_size := 1;
|}.

Definition two_edges : MAD3PGLearner := {|
  _policy_networks := [policy_net 0; policy_net 1];
  _critic_networks := [critic_net 2; critic_net 3];
  _target_policy_networks := [policy_net 4; policy_net 5];
  _target_critic_networks := [critic_net 6; critic_net 7];
  _observation_networks := [observation_net; observation_net];
  _target_observation_networks := [observation_net; observation_net];
  _discount := 1%Z;
  _clipping := true;
  _target_update_period := 2;
  _policy_optimizers := [0; 1];
  _critic_optimizers := [2; 3];
  _edge_number := 2;
  _edge_action_size := 1;
|}.

(** One transition for two edges, of the shapes of the data model. *)
Definition sample2 : Transition Z := {|
  observation := [[[1%Z]; [10%Z]]];
  action := [[5%Z; 6%Z]];
  reward := [[1%Z; 1%Z]];
  discount := [1%Z];
  next_observation := [[[2%Z]; [20%Z]]];
|}.

(** Variable [v] holds [100 * v]; the counter is [n]. *)
Definition state0 (n : Z) (samples : list (Transition Z)) : State := {|
  values := fun v => (100 * Z.of_nat v)%Z;
  _num_steps := n;
  slots := fun _ => 0;
  _iterator := samples;
|}.

(** The loop of lines 189-194 runs through on the batch of two edges. *)
Lemma a_t_dict_two_edges σ : ∃ d, a_t_dict two_edges σ sample2 = Ok d.
Proof.
  destruct (a_t_dict two_edges σ sample2) as [d|e] eqn:Hd; [by exists d|].
  revert Hd. unfold a_t_dict. cbn -[insert Eager.tensor_str]. discriminate.
Qed.


(** Two edges, a batch of the right shape: the action of the actor loss of
    edge 1 is not built, the joint target action is not there. *)
Lemma actor_action_raises_witness :
  let σ := fun v : var => (100 * Z.of_nat v)%Z in
  (∀ i, tensor_str i ≠ "0"%string)
  ∧ 1 ≤ 1 < _edge_number two_edges
  ∧ (∃ e, edge_a_t two_edges σ sample2 = Err e
          ∧ actor_action two_edges σ sample2 1 = Err e
          ∧ losses two_edges σ sample2 = Err e)
  ∧ ∃ e, dpg_a_t two_edges σ 1 (constant [[401%Z; 510%Z]])
           (constant [[20%Z]]) 1 = Err e.
Proof.
  intros σ.
  destruct (actor_action_raises two_edges σ sample2 1 tensor_str_not_decimal)
    as (Hraises & Hdpg & _).
  split; [exact tensor_str_not_decimal|].
  assert (1 ≤ 1 < _edge_number two_edges) as Hk by (simpl; lia).
  split; [exact Hk|]. split; [exact Hraises|].
  destruct (Hdpg Hk 1 (constant [[401%Z; 510%Z]]) (constant [[20%Z]]))
    as (e & He & _).
  by exists e.
Defined.

(** Two edges, a batch of the right shape, counter 1: the learning step
    raises and returns no losses. *)
Lemma learning_step_reports_nothing_witness :
  let st := state0 1 [sample2] in
  (∀ i, tensor_str i ≠ "0"%string)
  ∧ (∃ e st', _replicated_step two_edges st = (Err e, st')
              ∧ slots st' = slots st)
  ∧ ∀ fetches st', _replicated_step two_edges st ≠ (Ok fetches, st').
Proof.
  intros st.
  destruct (learning_step_reports_nothing two_edges st
              tensor_str_not_decimal) as ((e & st' & Hs & Hslots & _) & Hno).
  split; [exact tensor_str_not_decimal|].
  split; [by exists e, st'|exact Hno].
Defined.




End Eager.

(** Three atoms on [[-1, 1]], reward 1/2, discount 1/2. *)
Lemma projection_conserves_mass_witness :
  let s := {| Projection.vmin := -1; Projection.vmax := 1;
              Projection.num_atoms := 3 |} in
  Projection.well_formed_support s
  ∧ (Projection.mass (Projection.project s (1 # 2) (1 # 2)
                        [1 # 4; 1 # 4; 1 # 2]) == 1)%Q.
Proof.
  intros s.
  assert (Projection.well_formed_support s) as Hwf by (split; [reflexivity|simpl; lia]).
  split; [exact Hwf|].
  destruct (projection_conserves_mass s (1 # 2) (1 # 2) [1 # 4; 1 # 4; 1 # 2]
              Hwf) as (_ & _ & Hone & _).
  apply Hone. reflexivity.
Defined.

(** * The rest of the two files

    What follows covers the code around the training step: the gradient
    reduction on one replica, the steps that stop before a batch is
    processed, what a step leaves alone, the two factories of
    [networks.py], the accelerator lookup, the constructor, the variables
    the learner exposes, and the bookkeeping of [step]. *)

From stdpp Require Import sorting.

(** ** [average_gradients_across_replicas] on one replica *)

Section OneReplica.
Context {G : Type}.

Lemma refill_without_nones (gradients : list (option G)) :
  refill gradients (without_nones gradients) = gradients.
Proof.
  induction gradients as [|[g|] gradients IH]; [done| |].
  - change (without_nones (Some g :: gradients))
      with (g :: without_nones gradients).
    cbn [refill]. by rewrite IH.
  - change (without_nones (None :: gradients)) with (without_nones gradients).
    cbn [refill]. by rewrite IH.
Qed.

End OneReplica.

(** When the collective hands back the values it was given (one replica:
    the mean of one value is that value), the reduction returns the
    gradients as they were, the [None] entries at their places. *)
Theorem average_gradients_across_replicas_one_replica {G : Type}
    (replica_context : ReplicaContext G) (gradients : list (option G)) :
  all_reduce_mean replica_context (without_nones gradients)
    = without_nones gradients →
  average_gradients_across_replicas replica_context gradients = gradients.
Proof.
  intros Hid. by rewrite average_gradients_refill, Hid, refill_without_nones.
Qed.

Lemma average_gradients_across_replicas_one_replica_witness :
  average_gradients_across_replicas
    {| all_reduce_mean := fun gs : list Z => gs |} [Some 1%Z; None; Some 3%Z]
  = [Some 1%Z; None; Some 3%Z].
Proof.
  apply (average_gradients_across_replicas_one_replica
           {| all_reduce_mean := fun gs : list Z => gs |}
           [Some 1%Z; None; Some 3%Z]).
  reflexivity.
Defined.

(** ** Steps that stop before a batch is processed *)

Section BeforeTheBatch.
Context `{Framework}.
Implicit Types (self : MAD3PGLearner) (st : State).

(** The learner with another target update period. *)
Definition with_target_update_period self (period : Z) : MAD3PGLearner :=
  {| _policy_networks := _policy_networks self;
     _critic_networks := _critic_networks self;
     _target_policy_networks := _target_policy_networks self;
     _target_critic_networks := _target_critic_networks self;
     _observation_networks := _observation_networks self;
     _target_observation_networks := _target_observation_networks self;
     _discount := _discount self;
     _clipping := _clipping self;
     _target_update_period := period;
     _policy_optimizers := _policy_optimizers self;
     _critic_optimizers := _critic_optimizers self;
     _edge_number := _edge_number self;
     _edge_action_size := _edge_action_size self |}.

Lemma mod_opp_zero (n P : Z) : (n mod - P = 0 ↔ n mod P = 0)%Z.
Proof.
  destruct (decide (P = 0%Z)) as [->|HP]; [done|].
  rewrite !Z.mod_divide by lia. apply Z.divide_opp_l.
Qed.
End BeforeTheBatch.


(** ** What a step leaves alone *)

Section Untouched.
Context `{Framework}.
Implicit Types (self : MAD3PGLearner) (st : State).

(** The slots of the optimizers outside [O] are kept. *)
Definition keeps_slots (O : list nat) st st' : Prop :=
  ∀ o, o ∉ O → slots st' o = slots st o.

Lemma keeps_slots_trans O st1 st2 st3 :
  keeps_slots O st1 st2 → keeps_slots O st2 st3 → keeps_slots O st1 st3.
Proof. intros H12 H23 o Ho. by rewrite H23, H12. Qed.

Lemma keeps_slots_bind {A B} O (m : stateful A) (f : A → stateful B) st :
  keeps_slots O st (m st).2 →
  (∀ a st', m st = (Ok a, st') → keeps_slots O st' (f a st').2) →
  keeps_slots O st ((m ≫= f) st).2.
Proof.
  intros Hm Hf. unfold mbind, stateful_bind.
  destruct (m st) as [[a|e] st'] eqn:Hmst; [|done].
  eapply keeps_slots_trans; [exact Hm|]. by apply Hf.
Qed.

Lemma keeps_slots_raise {A} O (r : result A) st :
  keeps_slots O st (raise_or_return r st).2.
Proof. done. Qed.

Lemma apply_gradients_keeps_slots O optimizer gv st :
  optimizer ∈ O → keeps_slots O st (apply_gradients optimizer gv st).2.
Proof.
  intros Hin o Ho. unfold apply_gradients. cbn.
  apply fn_lookup_insert_ne. by intros ->.
Qed.

Lemma py_index_elem_of {A} (xs : list A) i x : py_index xs i = Ok x → x ∈ xs.
Proof.
  unfold py_index. destruct (xs !! i) eqn:Hi; [|done].
  intros [= <-]. by eapply list_elem_of_lookup_2.
Qed.

Lemma apply_all_keeps_slots self pg cg pv cv st :
  keeps_slots (_policy_optimizers self ++ _critic_optimizers self) st
    (apply_all self pg cg pv cv st).2.
Proof.
  set (O := _policy_optimizers self ++ _critic_optimizers self).
  unfold apply_all.
  assert (∀ range acc, keeps_slots O st acc.2 →
            keeps_slots O st (foldl (fun (acc : result unit * State) edge_index =>
               match acc with
               | (Err e, st) => (Err e, st)
               | (Ok _, st) =>
                 (policy_optimizer ← raise_or_return
                    (py_index (_policy_optimizers self) edge_index);
                  policy_gradient ← raise_or_return (py_index pg edge_index);
                  policy_variable ← raise_or_return (py_index pv edge_index);
                  apply_gradients policy_optimizer
                    (zip policy_gradient policy_variable);;
                  critic_optimizer ← raise_or_return
                    (py_index (_critic_optimizers self) edge_index);
                  critic_gradient ← raise_or_return (py_index cg edge_index);
                  critic_variable ← raise_or_return (py_index cv edge_index);
                  apply_gradients critic_optimizer
                    (zip critic_gradient critic_variable)) st
               end) acc range).2) as Hloop.
  { induction range as [|i range IH]; intros acc Hacc; [done|].
    simpl. apply IH. destruct acc as [[[]|e] st1]; [|done].
    simpl in Hacc. eapply keeps_slots_trans; [exact Hacc|].
    apply keeps_slots_bind; [apply keeps_slots_raise|].
    intros o st2 [Ho ->]%raise_or_return_inv.
    apply keeps_slots_bind; [apply keeps_slots_raise|].
    intros g st2 [_ ->]%raise_or_return_inv.
    apply keeps_slots_bind; [apply keeps_slots_raise|].
    intros vs st2 [_ ->]%raise_or_return_inv.
    apply keeps_slots_bind.
    { apply apply_gradients_keeps_slots. apply elem_of_app. left.
      by eapply py_index_elem_of. }
    intros _ st2 _.
    apply keeps_slots_bind; [apply keeps_slots_raise|].
    intros o' st3 [Ho' ->]%raise_or_return_inv.
    apply keeps_slots_bind; [apply keeps_slots_raise|].
    intros g' st3 [_ ->]%raise_or_return_inv.
    apply keeps_slots_bind; [apply keeps_slots_raise|].
    intros vs' st3 [_ ->]%raise_or_return_inv.
    apply apply_gradients_keeps_slots. apply elem_of_app. right.
    by eapply py_index_elem_of. }
  apply Hloop. done.
Qed.

Lemma _step_keeps_slots self sample st :
  keeps_slots (_policy_optimizers self ++ _critic_optimizers self) st
    (_step self sample st).2.
Proof.
  unfold _step.
  apply keeps_slots_bind; [done|]. intros st0 st1 [= <- <-].
  apply keeps_slots_bind; [apply keeps_slots_raise|].
  intros [critic_losses policy_losses] st1 [_ ->]%raise_or_return_inv.
  apply keeps_slots_bind; [apply keeps_slots_raise|].
  intros pg st1 [_ ->]%raise_or_return_inv.
  apply keeps_slots_bind; [apply keeps_slots_raise|].
  intros cg st1 [_ ->]%raise_or_return_inv.
  apply keeps_slots_bind; [|done].
  apply apply_all_keeps_slots.
Qed.
End Untouched.

(** A step, whether it returns or raises, writes to nothing that is not the
    learner's: a variable that belongs to none of its online or target
    networks keeps its value, the slots of an optimizer that is not one of
    its policy or critic optimizers are kept, and at most one batch is
    taken from the iterator. *)
Theorem step_leaves_the_rest_alone `{Framework} (self : MAD3PGLearner)
    (st : State) :
  let st' := (step self st).2 in
  (∀ v, v ∉ online_vars self → v ∉ target_vars self →
        values st' v = values st v)
  ∧ (∀ o, o ∉ _policy_optimizers self → o ∉ _critic_optimizers self →
          slots st' o = slots st o)
  ∧ (_iterator st' = _iterator st ∨ _iterator st' = tail (_iterator st)).
Proof.
  intros st'. unfold st'. rewrite step_unfold.
  destruct (decide (_target_update_period self = 0%Z)) as [HP|HP].
  { rewrite _replicated_step_zero_period by done. cbn. auto. }
  rewrite _replicated_step_unfold by done.
  destruct (_iterator st) as [|sample rest] eqn:Hit.
  { cbn. split_and!; [|done|by left].
    intros v _ Hv. by apply synchronise_frame. }
  pose proof (_step_frame self sample (pull (synchronise self st)))
    as (_ & Hiter & Hvalues).
  pose proof (_step_keeps_slots self sample (pull (synchronise self st)))
    as Hslots.
  destruct (_step self sample (pull (synchronise self st))) as [r st1].
  cbn in *. split_and!.
  - intros v Hon Hta. rewrite Hvalues by done. by apply synchronise_frame.
  - intros o Hp Hc. apply Hslots. rewrite elem_of_app. tauto.
  - right. by rewrite Hiter, Hit.
Qed.
(** ** The joint action, assembled and taken apart *)

Section Slices.
Context {A : Type}.
Implicit Types (t u : list (list A)) (ts : list (list (list A))).

Lemma foldl_zip_with_app_lookup ts : ∀ t j row,
  Forall (fun u => length u = length t) ts →
  t !! j = Some row →
  foldl (zip_with app) t ts !! j
  = Some (row ++ mjoin (omap (fun u => u !! j) ts)).
Proof.
  induction ts as [|u ts IH]; intros t j row Hlen Hj.
  - simpl. by rewrite app_nil_r.
  - apply Forall_cons in Hlen as [Hu Hlen]. cbn [foldl].
    destruct (lookup_lt_is_Some_2 u j) as [urow Hurow].
    { rewrite Hu. by eapply lookup_lt_Some. }
    rewrite (IH (zip_with app t u) j (row ++ urow)).
    + cbn [omap list_omap]. rewrite Hurow. cbn [mjoin list_join].
      by rewrite <- app_assoc.
    + eapply Forall_impl; [exact Hlen|]. intros v Hv. cbv beta in *.
      rewrite length_zip_with. lia.
    + rewrite lookup_zip_with, Hj. cbn. by rewrite Hurow.
Qed.

Lemma length_foldl_zip_with_app ts : ∀ t,
  Forall (fun u => length u = length t) ts →
  length (foldl (zip_with app) t ts) = length t.
Proof.
  induction ts as [|u ts IH]; intros t Hlen; [done|].
  apply Forall_cons in Hlen as [Hu Hlen]. cbn [foldl].
  rewrite IH; [rewrite length_zip_with; lia|].
  eapply Forall_impl; [exact Hlen|]. intros v Hv. cbv beta in *.
  rewrite length_zip_with. lia.
Qed.

Lemma omap_lookup_rows ts j : ∀ i u row,
  Forall (fun u => j < length u) ts →
  ts !! i = Some u → u !! j = Some row →
  omap (fun u => u !! j) ts !! i = Some row.
Proof.
  induction ts as [|v ts IH]; intros i u row Hlen Hi Hj; [done|].
  apply Forall_cons in Hlen as [Hv Hlen]. cbn [omap list_omap].
  destruct (lookup_lt_is_Some_2 v j Hv) as [vrow Hvrow]. rewrite Hvrow.
  destruct i as [|i]; simpl in *.
  - by simplify_eq.
  - by eapply IH.
Qed.

Lemma length_omap_rows ts j :
  Forall (fun u => j < length u) ts →
  length (omap (fun u => u !! j) ts) = length ts.
Proof.
  induction 1 as [|v ts Hv _ IH]; [done|]. cbn [omap list_omap].
  destruct (lookup_lt_is_Some_2 v j Hv) as [vrow ->]. simpl. by rewrite IH.
Qed.

Lemma Forall_omap_rows (P : list A → Prop) ts j :
  Forall (fun u => Forall P u) ts → Forall P (omap (fun u => u !! j) ts).
Proof.
  induction 1 as [|v ts Hv _ IH]; [constructor|]. cbn [omap list_omap].
  destruct (v !! j) as [vrow|] eqn:Hvrow; simpl; [|exact IH].
  constructor; [|exact IH]. exact (Forall_lookup_1 _ _ _ _ Hv Hvrow).
Qed.

Lemma take_drop_join (rows : list (list A)) d : ∀ i row,
  Forall (fun row => length row = d) rows →
  rows !! i = Some row →
  take d (drop (i * d) (mjoin rows)) = row.
Proof.
  induction rows as [|r rows IH]; intros i row Hlen Hi; [done|].
  apply Forall_cons in Hlen as [Hr Hlen]. cbn [mjoin list_join].
  destruct i as [|i]; simpl in Hi.
  - injection Hi as ->. replace (0 * d) with 0 by lia.
    by rewrite drop_0, take_app_length'.
  - replace (S i * d) with (length r + i * d) by lia.
    rewrite <- drop_drop, drop_app_length. by apply IH.
Qed.

Lemma mapM_Ok_intro {B C} (f : B → result C) (l : list B) :
  (∀ x, x ∈ l → ∃ y, f x = Ok y) → ∃ k, mapM f l = Ok k.
Proof.
  induction l as [|x l IH]; intros Hf; [by exists []|].
  destruct (Hf x) as [y Hy]; [by left|].
  destruct IH as [k Hk]; [intros x' Hx'; apply Hf; by right|].
  exists (y :: k). by rewrite mapM_cons, Hy, bind_Ok, Hk.
Qed.
End Slices.

Section Assembled.
Context `{Framework}.
Implicit Types (self : MAD3PGLearner) (σ : var → param).

Lemma zip_with_take_drop {A} (d : nat) (rows : list (list A)) :
  zip_with (fun own row => own ++ drop d row) (take d <$> rows) rows = rows.
Proof.
  induction rows as [|row rows IH]; [done|].
  rewrite fmap_cons. cbn [zip_with]. by rewrite IH, take_drop.
Qed.
End Assembled.

(** Concatenation and slicing are inverse to each other.  For a learner
    of [edge_number] edges and one action per edge, each of [batch_size]
    rows and [edge_action_size] columns, [tf.concat(..., axis=1)] (line
    196) returns a tensor of [batch_size] rows and [edge_number *
    edge_action_size] columns, and the slice the actor loop takes of it
    for edge [i] (the reshape to [[batch_size, edge_number,
    edge_action_size]], then [[:, i, :]]) holds the action of edge [i]. *)
Theorem edge_slice_of_concat `{Framework} (self : MAD3PGLearner)
    (batch_size : nat) (a_ts : list (traced (list (list scalar)))) :
  0 < _edge_number self →
  length a_ts = _edge_number self →
  Forall (fun a => length (value a) = batch_size
                   ∧ Forall (fun row => length row = _edge_action_size self)
                            (value a)) a_ts →
  ∃ ea,
    concat_axis1_t a_ts = Ok ea
    ∧ length (value ea) = batch_size
    ∧ Forall (fun row => length row
                         = _edge_number self * _edge_action_size self)
             (value ea)
    ∧ ∀ i a, a_ts !! i = Some a →
        ∃ slice,
          edge_slice self batch_size ea i = Ok slice
          ∧ value slice = value a.
Proof.
  intros HN Hlen Hshape.
  set (N := _edge_number self) in *. set (d := _edge_action_size self) in *.
  assert (∀ i a, a_ts !! i = Some a →
            length (value a) = batch_size
            ∧ Forall (fun row => length row = d) (value a)) as Hat.
  { intros i a Hi. exact (Forall_lookup_1 _ _ _ _ Hshape Hi). }
  set (ts := value <$> a_ts).
  assert (Forall (fun u => length u = batch_size) ts) as Hrows.
  { apply Forall_fmap, Forall_lookup. intros i a Hi.
    by destruct (Hat i a Hi) as (? & _). }
  assert (Forall (fun u => Forall (fun row => length row = d) u) ts) as Hcols.
  { apply Forall_fmap, Forall_lookup. intros i a Hi.
    by destruct (Hat i a Hi) as (_ & ?). }
  destruct ts as [|t ts'] eqn:Hts.
  { apply (f_equal length) in Hts. unfold ts in Hts.
    rewrite length_fmap in Hts. simpl in Hts. lia. }
  apply Forall_cons in Hrows as [Ht Hrows].
  assert (Forall (fun u => length u = length t) ts') as Hsame.
  { eapply Forall_impl; [exact Hrows|]. intros u Hu. cbv beta in *. lia. }
  assert (concat_axis1 (t :: ts') = Ok (foldl (zip_with app) t ts')) as Hcat.
  { unfold concat_axis1.
    assert (forallb (fun u => length u =? length t) ts' = true) as ->; [|done].
    apply forallb_forall. intros u Hu%list_elem_of_In.
    apply Nat.eqb_eq. exact (proj1 (Forall_forall _ _) Hsame u Hu). }
  unfold concat_axis1_t. fold ts. rewrite Hts, Hcat, bind_Ok.
  set (rows := foldl (zip_with app) t ts').
  assert (length rows = batch_size) as Hb.
  { unfold rows. rewrite length_foldl_zip_with_app; done. }
  assert (Forall (fun u => ∀ j, j < batch_size → j < length u) (t :: ts'))
    as Hlong.
  { constructor; [intros; lia|].
    eapply Forall_impl; [exact Hrows|]. intros u Hu j Hj. cbv beta in *. lia. }
  assert (∀ j, j < batch_size →
            rows !! j
            = Some (mjoin (omap (fun u => u !! j) (t :: ts')))) as Hrow.
  { intros j Hj.
    destruct (lookup_lt_is_Some_2 t j) as [row Hrowj]; [lia|].
    unfold rows. rewrite (foldl_zip_with_app_lookup ts' t j row Hsame Hrowj).
    cbn [omap list_omap]. by rewrite Hrowj. }
  assert (∀ j, j < batch_size →
            length (omap (fun u => u !! j) (t :: ts')) = N
            ∧ Forall (fun row => length row = d)
                     (omap (fun u => u !! j) (t :: ts'))) as Hpieces.
  { intros j Hj. split.
    - rewrite length_omap_rows.
      + rewrite <- Hts. unfold ts. by rewrite length_fmap.
      + eapply Forall_impl; [exact Hlong|]. intros u Hu. by apply Hu.
    - by apply Forall_omap_rows. }
  assert (Forall (fun row => length row = N * d) rows) as Hwidth.
  { apply Forall_lookup. intros j row Hj.
    assert (j < batch_size) as HjB
      by (rewrite <- Hb; by eapply lookup_lt_Some).
    rewrite (Hrow j HjB) in Hj.
    assert (row = mjoin (omap (fun u => u !! j) (t :: ts'))) as ->
      by congruence.
    destruct (Hpieces j HjB) as [Hn Hd].
    rewrite (length_join_rows _ d Hd), Hn. done. }
  eexists. split; [reflexivity|]. cbn [value].
  split_and!; [done|done|].
  intros i a Ha.
  assert (i < N) as Hi by (rewrite <- Hlen; by eapply lookup_lt_Some).
  destruct (Hat i a Ha) as (Hab & Had).
  rewrite (edge_slice_columns self batch_size _ i) by done.
  eexists. split; [reflexivity|]. cbn [value].
  apply list_eq. intros j. rewrite list_lookup_fmap.
  destruct (decide (j < batch_size)) as [Hj|Hj].
  - rewrite (Hrow j Hj). cbn.
    destruct (lookup_lt_is_Some_2 (value a) j) as [arow Harow]; [lia|].
    rewrite Harow. f_equal.
    destruct (Hpieces j Hj) as [_ Hd].
    apply (take_drop_join _ d i arow Hd).
    apply (omap_lookup_rows (t :: ts') j i (value a)).
    + eapply Forall_impl; [exact Hlong|]. intros u Hu. by apply Hu.
    + rewrite <- Hts. unfold ts. by rewrite list_lookup_fmap, Ha.
    + done.
  - rewrite (proj2 (lookup_ge_None rows j)) by lia.
    rewrite (proj2 (lookup_ge_None (value a) j)) by lia. done.
Qed.

(** The loop of lines 222-226 puts the slices back in their order around
    the action of edge 0: when the online policy of edge 0 returns what
    slice 0 of the joint target action holds, the action the actor loss of
    edge 0 is computed on is the joint target action itself. *)
Theorem dpg_a_t_rebuilds_the_joint_action `{Framework} (self : MAD3PGLearner)
    (σ : var → param) (batch_size : nat)
    (ea o_t : traced (list (list scalar))) (policy_network : policy_module) :
  0 < _edge_number self →
  length (value ea) = batch_size →
  Forall (fun row => length row = _edge_number self * _edge_action_size self)
         (value ea) →
  _policy_networks self !! 0 = Some policy_network →
  value (call policy_network σ o_t)
    = take (_edge_action_size self) <$> value ea →
  ∃ a, dpg_a_t self σ batch_size ea o_t 0 = Ok a ∧ value a = value ea.
Proof.
  intros HN Hb Hrows Hpol Hown.
  destruct (dpg_a_t_edge_0 self σ batch_size ea o_t policy_network
              HN Hb Hrows Hpol) as (a & Ha & Hva & _).
  { rewrite Hown, length_fmap. done. }
  exists a. split; [exact Ha|].
  rewrite Hva, Hown. apply zip_with_take_drop.
Qed.
(** ** [networks.py]: what the factories allocate *)

(** [make_default_MAD3PGNetworks] allocates two modules whatever
    [edge_number] is: the policy module that [make_policy_network] builds
    from the same arguments on the same heap, and after it the critic
    module; the modules that existed before are kept.  An [edge_number]
    that is not positive gives three empty lists, and the default
    [action_spec] ([None]) raises [AttributeError] with nothing
    allocated. *)
Theorem make_default_MAD3PGNetworks_allocates_two_modules
    (spec : Networks.BoundedArray) (policy_layer_sizes critic_layer_sizes : list Z)
    (vmin vmax : Q) (num_atoms edge_number : Z) (h : Networks.heap) :
  (∃ nets policy_network critic_network h1 h2,
     Networks.make_policy_network spec policy_layer_sizes h
       = (policy_network, h1)
     ∧ Networks.make_default_MAD3PGNetworks (Some spec) policy_layer_sizes
         critic_layer_sizes vmin vmax num_atoms edge_number h = (Ok nets, h2)
     ∧ Networks.policy_networks nets
         = replicate (Z.to_nat edge_number) policy_network
     ∧ Networks.critic_networks nets
         = replicate (Z.to_nat edge_number) critic_network
     ∧ policy_network ≠ critic_network
     ∧ h2 = h1 ++ [[Networks.CriticMultiplexer;
                    Networks.LayerNormMLP critic_layer_sizes true;
                    Networks.DiscreteValuedHead vmin vmax num_atoms]]
     ∧ length h2 = length h + 2
     ∧ (∀ address layers, h !! address = Some layers →
          h2 !! address = Some layers)
     ∧ ((edge_number ≤ 0)%Z →
          Networks.policy_networks nets = []
          ∧ Networks.critic_networks nets = []
          ∧ Networks.observation_networks nets = []))
  ∧ Networks.make_default_MAD3PGNetworks None policy_layer_sizes
      critic_layer_sizes vmin vmax num_atoms edge_number h
    = (Err (AttributeError "shape"), h).
Proof.
  split; [|done].
  unfold Networks.make_default_MAD3PGNetworks, Networks.make_policy_network,
    Networks.Sequential.
  eexists _, _, _, _, _. split; [reflexivity|]. split; [reflexivity|].
  cbn [Networks.policy_networks Networks.critic_networks
       Networks.observation_networks].
  rewrite !repeat_for_range_replicate.
  split_and!; [done|done| |done| | |].
  - rewrite length_app. cbn. intros [= Heq]. lia.
  - rewrite !length_app. cbn. lia.
  - intros address layers Hh. rewrite <- app_assoc.
    by apply lookup_app_l_Some.
  - intros HN. by replace (Z.to_nat edge_number) with 0 by lia.
Qed.

(** [np.prod(shape, dtype=int)] is the product of the dimensions wrapped
    to [int64]. *)
Lemma wrap_int64_mul (a b : Z) :
  Networks.wrap_int64 (Networks.wrap_int64 a * b)
  = Networks.wrap_int64 (a * b).
Proof.
  unfold Networks.wrap_int64. f_equal.
  replace (((a + 2 ^ 63) mod 2 ^ 64 - 2 ^ 63) * b + 2 ^ 63)%Z
    with (a * b + 2 ^ 63 + (- ((a + 2 ^ 63) / 2 ^ 64) * b) * 2 ^ 64)%Z.
  - apply Z_mod_plus_full.
  - pose proof (Z.div_mod (a + 2 ^ 63) (2 ^ 64) ltac:(lia)). lia.
Qed.

Lemma np_prod_from (shape : list Z) : ∀ product,
  foldl (fun product dimension => Networks.wrap_int64 (product * dimension))
        (Networks.wrap_int64 product) shape
  = Networks.wrap_int64 (product * foldr Z.mul 1%Z shape).
Proof.
  induction shape as [|x shape IH]; intros product.
  - simpl. by rewrite Z.mul_1_r.
  - cbn [foldl foldr]. rewrite wrap_int64_mul, IH. f_equal. lia.
Qed.

Lemma np_prod_wrap (shape : list Z) :
  Networks.np_prod shape = Networks.wrap_int64 (foldr Z.mul 1%Z shape).
Proof.
  unfold Networks.np_prod.
  change 1%Z with (Networks.wrap_int64 1) at 1.
  rewrite np_prod_from. f_equal. lia.
Qed.

(** [make_policy_network] returns a new module at every call: two calls
    with the same arguments give two different modules of the same layers.
    The size of the output layer is the product of the dimensions of the
    action specification as [np.prod(..., dtype=int)] computes it, in
    [int64]: the product itself when it lies between [-2^63] and
    [2^63 - 1], and the product wrapped around otherwise (the shape
    [(2^32, 2^32)] gives an output layer of size 0). *)
Theorem make_policy_network_returns_a_new_module
    (spec : Networks.BoundedArray) (policy_layer_sizes : list Z)
    (h : Networks.heap) :
  let product := foldr Z.mul 1%Z (Networks.shape spec) in
  ∃ first second address1 address2 h1 h2 layers,
    Networks.make_policy_network spec policy_layer_sizes h = (first, h1)
    ∧ Networks.make_policy_network spec policy_layer_sizes h1 = (second, h2)
    ∧ first = Networks.Object address1 ∧ second = Networks.Object address2
    ∧ first ≠ second
    ∧ Networks.independent_copies [first; second]
    ∧ h2 !! address1 = Some layers ∧ h2 !! address2 = Some layers
    ∧ layers !! 1
      = Some (Networks.NearZeroInitializedLinear
                (Networks.np_prod (Networks.shape spec)))
    ∧ Networks.np_prod (Networks.shape spec)
      = ((product + 2 ^ 63) mod 2 ^ 64 - 2 ^ 63)%Z
    ∧ ((- 2 ^ 63 ≤ product < 2 ^ 63)%Z →
       Networks.np_prod (Networks.shape spec) = product)
    ∧ Networks.np_prod [2 ^ 32; 2 ^ 32]%Z = 0%Z.
Proof.
  intros product.
  unfold Networks.make_policy_network, Networks.Sequential.
  eexists _, _, _, _, _, _, _.
  split; [reflexivity|]. split; [reflexivity|].
  split; [reflexivity|]. split; [reflexivity|].
  assert (Networks.Object (length h)
          ≠ Networks.Object (length (h ++ [[
              Networks.LayerNormMLP policy_layer_sizes true;
              Networks.NearZeroInitializedLinear
                (Networks.np_prod (Networks.shape spec));
              Networks.TanhToSpec (Networks.shape spec)]]))) as Hne.
  { rewrite length_app. cbn. intros [= Heq]. lia. }
  split_and!; [exact Hne| | | | | | |].
  - intros [|[|i]] [|[|j]] a b Hij Ha Hb; simplify_eq/=; done.
  - unfold Networks.heap in *. rewrite <- app_assoc, lookup_app_r by lia.
    replace (length h - length h) with 0 by lia. reflexivity.
  - unfold Networks.heap in *. rewrite lookup_app_r by lia.
    replace (_ - _) with 0 by lia. reflexivity.
  - reflexivity.
  - apply np_prod_wrap.
  - intros Hrange. rewrite np_prod_wrap. unfold Networks.wrap_int64.
    fold product. rewrite Z.mod_small by lia. lia.
  - reflexivity.
Qed.
(** ** [get_first_available_accelerator_type] *)

(** What a call of the remaining functions ends in: a value, one of the
    exceptions of [error], or the [RuntimeError] of the accelerator
    lookup, with its message. *)
Inductive outcome (A : Type) : Type :=
  | Returned (a : A)
  | Raised (e : error)
  | RuntimeError (message : string).
Arguments Returned {A} a.
Arguments Raised {A} e.
Arguments RuntimeError {A} message.

Module Accelerator.

(** A [tf.config.PhysicalDevice]: a named tuple of [name] and
    [device_type]. *)
Record PhysicalDevice : Type := { name : string; device_type : string }.

(** [d.type]: a [PhysicalDevice] has no attribute [type]. *)
Definition type (d : PhysicalDevice) : result string :=
  Err (AttributeError "type").

(** The order of [sorted] on strings. *)
Definition string_le (s1 s2 : string) : Prop := String.leb s1 s2 = true.

#[global] Instance string_le_dec : RelDecision string_le.
Proof. intros s1 s2. unfold string_le. apply _. Defined.

Section Devices.
(** [tf.config.get_visible_devices(device_type)]; without a device type
    ([None]) it lists all visible devices. *)
Variable get_visible_devices : option string → list PhysicalDevice.

(** [', '.join(sorted(frozenset([d.type for d in
    get_visible_devices()])))] *)
Definition available : result string :=
  types ← mapM type (get_visible_devices None);
  mret (String.concat ", " (merge_sort string_le (remove_dups types))).

(** The first string of the message is not an f-string: its braces are
    part of the text. *)
Definition message (available : string) : string :=
  "Couldn't find any devices from {wishlist}."
    +:+ ("Only the following types are available: " +:+ available +:+ ".").

Fixpoint get_first_available_accelerator_type (wishlist : list string)
    : outcome string :=
  match wishlist with
  | [] =>
    match available with
    | Ok available => RuntimeError (message available)
    | Err e => Raised e
    end
  | wishlist_device :: wishlist' =>
    let devices := get_visible_devices (Some wishlist_device) in
    match devices with
    | _ :: _ => Returned wishlist_device
    | [] => get_first_available_accelerator_type wishlist'
    end
  end.

(** [wishlist: Sequence[str] = ('TPU', 'GPU', 'CPU')] *)
Definition default_wishlist : list string := ["TPU"; "GPU"; "CPU"].

(** Listing the types of the devices returns only when there is no
    device. *)
Lemma available_spec :
  available = match get_visible_devices None with
              | [] => Ok ""
              | _ :: _ => Err (AttributeError "type")
              end.
Proof. unfold available. by destruct (get_visible_devices None). Qed.

(** The lookup returns the first entry that has a visible device; when no
    entry has one it raises, and what it raises depends on whether a
    device is visible at all. *)
Lemma get_first_available_accelerator_type_spec wishlist :
  (Forall (fun w => get_visible_devices (Some w) = []) wishlist
   ∧ get_first_available_accelerator_type wishlist
     = match get_visible_devices None with
       | [] => RuntimeError (message "")
       | _ :: _ => Raised (AttributeError "type")
       end)
  ∨ (¬ Forall (fun w => get_visible_devices (Some w) = []) wishlist
     ∧ ∃ wishlist_device,
         get_first_available_accelerator_type wishlist
         = Returned wishlist_device).
Proof.
  induction wishlist as [|w wishlist IH]; simpl.
  - left. split; [constructor|]. rewrite available_spec.
    by destruct (get_visible_devices None).
  - destruct (get_visible_devices (Some w)) as [|d ds] eqn:Hw.
    + destruct IH as [[Hnone Heq]|[Hsome Heq]].
      * left. split; [by constructor|done].
      * right. split; [|done]. by intros [_ ?]%Forall_cons.
    + right. split; [|by eexists]. intros [? _]%Forall_cons. congruence.
Qed.
End Devices.
End Accelerator.

(** The lookup returns a device type exactly when that type is the first
    entry of the wish list that has a visible device: every entry before
    it has none. *)
Theorem get_first_available_accelerator_type_first_match
    (get_visible_devices : option string → list Accelerator.PhysicalDevice)
    (wishlist : list string) (wishlist_device : string) :
  Accelerator.get_first_available_accelerator_type get_visible_devices wishlist
    = Returned wishlist_device
  ↔ ∃ before after,
      wishlist = before ++ wishlist_device :: after
      ∧ get_visible_devices (Some wishlist_device) ≠ []
      ∧ Forall (fun w => get_visible_devices (Some w) = []) before.
Proof.
  induction wishlist as [|w wishlist IH]; simpl.
  - split; [by destruct (Accelerator.available get_visible_devices)|].
    intros (before & after & Heq & _). by destruct before.
  - destruct (get_visible_devices (Some w)) as [|d ds] eqn:Hw.
    + rewrite IH. split.
      * intros (before & after & -> & Hd & Hnone).
        exists (w :: before), after. split_and!; [done..|]. by constructor.
      * intros (before & after & Heq & Hd & Hnone).
        destruct before as [|w' before]; simplify_eq/=.
        apply Forall_cons in Hnone as [_ Hnone]. by exists before, after.
    + split.
      * intros [= <-]. exists [], wishlist. split_and!; [done| |done].
        by rewrite Hw.
      * intros (before & after & Heq & Hd & Hnone).
        destruct before as [|w' before]; simplify_eq/=; [done|].
        apply Forall_cons in Hnone as [Hnone _]. congruence.
Qed.

(** The lookup raises exactly when no entry of the wish list has a visible
    device (an empty wish list included).  What it raises is then decided
    by the devices that are visible at all: when there is none, a
    [RuntimeError] whose message is the same for every wish list (its first
    sentence is not an f-string and holds the text [{wishlist}] as it is
    written, and the list of available types is empty); when there is one,
    the [AttributeError] of reading [d.type], which a [PhysicalDevice] does
    not have, and no [RuntimeError]. *)
Theorem get_first_available_accelerator_type_raises
    (get_visible_devices : option string → list Accelerator.PhysicalDevice)
    (wishlist : list string) :
  let lookup :=
    Accelerator.get_first_available_accelerator_type get_visible_devices
      wishlist in
  let none_wished :=
    Forall (fun w => get_visible_devices (Some w) = []) wishlist in
  (none_wished ∧ get_visible_devices None = []
   ↔ lookup
     = RuntimeError
         ("Couldn't find any devices from {wishlist}."
            +:+ "Only the following types are available: ."))
  ∧ (none_wished ∧ get_visible_devices None ≠ []
     ↔ lookup = Raised (AttributeError "type"))
  ∧ (¬ none_wished ↔ ∃ wishlist_device, lookup = Returned wishlist_device)
  ∧ (∀ message, lookup = RuntimeError message →
       message = "Couldn't find any devices from {wishlist}."
                   +:+ "Only the following types are available: ."
       ∧ get_visible_devices None = [])
  ∧ (∀ e, lookup = Raised e → e = AttributeError "type").
Proof.
  intros lookup none_wished.
  destruct (Accelerator.get_first_available_accelerator_type_spec
              get_visible_devices wishlist) as [[Hnone Heq]|[Hsome [d Heq]]];
    fold lookup in Heq; fold none_wished in Hnone || fold none_wished in Hsome;
    rewrite Heq.
  - destruct (get_visible_devices None) as [|device devices] eqn:Hall.
    + split_and!.
      * split; [done|]. by intros _.
      * split; [by intros [_ ?]|done].
      * split; [done|by intros [? ?]].
      * by intros message [= <-].
      * done.
    + split_and!.
      * split; [by intros [_ ?]|done].
      * split; [done|]. by intros _.
      * split; [done|by intros [? ?]].
      * done.
      * by intros e [= <-].
  - split_and!.
    + split; [by intros [? _]|done].
    + split; [by intros [? _]|done].
    + split; [by eexists|done].
    + done.
    + done.
Qed.
(** ** The constructor, [get_variables] and the bookkeeping of [step] *)

#[global] Instance outcome_ret : MRet outcome := fun A a => Returned a.
#[global] Instance outcome_bind : MBind outcome :=
  fun A B f m =>
    match m with
    | Returned a => f a
    | Raised e => Raised e
    | RuntimeError message => RuntimeError message
    end.

(** An exception of [error], raised by [__init__]. *)
Definition raise_from {A} (r : result A) : outcome A :=
  match r with Ok a => Returned a | Err e => Raised e end.

(** [snt.distribute.Replicator] and [snt.distribute.TpuReplicator]. *)
Inductive Replicator : Type := snt_Replicator | snt_TpuReplicator.

(** What [learning.py] uses besides TensorFlow and Sonnet's networks:
    Python numbers, Acme's counter and loggers, new optimizers, and the
    visible devices. *)
Class Runtime `{Framework} : Type := {
  (** Python numbers: the literals [0] and [1], [-], and the truth value
      of a number *)
  number : Type;
  number_0 : number;
  number_1 : number;
  number_sub : number → number → number;
  number_truth : number → bool;
  (** the state of a [counting.Counter]; [counting.Counter()];
      [increment(steps=..., walltime=...)], which returns the counts *)
  Counter : Type;
  new_Counter : Counter;
  increment : Counter → number → number → gmap string number * Counter;
  (** loggers, and [loggers.make_default_logger(label)] *)
  Logger : Type;
  make_default_logger : string → Logger;
  (** the slots of a new [snt.optimizers.Adam(learning_rate)] *)
  Adam : Q → opt_state;
  (** [tf.config.get_visible_devices] *)
  get_visible_devices : option string → list Accelerator.PhysicalDevice;
  (** a visible device is a TPU, a GPU or a CPU: where none of the three
      types has a visible device, no device is visible *)
  get_visible_devices_types :
    Forall (fun device_type => get_visible_devices (Some device_type) = [])
           Accelerator.default_wishlist →
    get_visible_devices None = [];
}.

Module Bookkeeping.
Section Learner.
Context `{Runtime}.

(** An observation network as [__init__] is given it: a Sonnet module, or
    a function of tensors such as [tf2_utils.batch_concat]. *)
Inductive TensorTransformation : Type :=
  | Sonnet (m : observation_module)
  | Function (f : list (list scalar) → list (list scalar)).

(** [tf2_utils.to_sonnet_module]: a module is returned as it is, a
    function is wrapped in a module that has no variables. *)
Definition to_sonnet_module (transformation : TensorTransformation)
    : observation_module :=
  match transformation with
  | Sonnet m => m
  | Function f => {| variables := []; forward := fun _ x => f x |}
  end.

(** A [tf.Module] lists each of its variables once, at its first
    occurrence. *)
Fixpoint first_occurrences (vs : list var) : list var :=
  match vs with
  | [] => []
  | v :: vs' => v :: filter (fun w => w ≠ v) (first_occurrences vs')
  end.

(** [snt.Sequential(layers).variables], for layers that have been built:
    the variables of the layers, in the order of the layers. *)
Definition Sequential_variables {I O} (layers : list (SntModule I O))
    : list var :=
  first_occurrences (mjoin (variables <$> layers)).

(** [tf2_savers.Checkpointer] and [tf2_savers.Snapshotter], with the keys
    of the objects they save. *)
Record Checkpointer : Type := {
  subdirectory : string;
  objects_to_save : list string;
}.
Record Snapshotter : Type := { snapshots : list string }.

(** The learner: the attributes the training step reads
    ([MAD3PGLearner]) and the other attributes [__init__] assigns. *)
Record Learner : Type := {
  attributes : MAD3PGLearner;
  _logger : Logger;
  _replicator : Replicator;
  _variables : gmap string (list var);
  _checkpointer : option Checkpointer;
  _snapshotter : option Snapshotter;
}.

(** A value of the dictionary the logger is given: a nest of tensors (a
    loss) or a number (a count). *)
Inductive logged : Type :=
  | Tensors (n : nest (list scalar))
  | Number (x : number).

(** The calls [step] makes on the checkpointer, the snapshotter and the
    logger. *)
Inductive event : Type :=
  | Checkpointer_save
  | Snapshotter_save
  | Logger_write (logger : Logger) (data : gmap string logged).

(** What the learner mutates: the state of the training step, the
    timestamp of the last step, the counter, and the calls made so far
    (the latest last). *)
Record World : Type := {
  learner_state : State;
  _timestamp : option number;
  _counter : Counter;
  events : list event;
}.

(** [[optimizer or snt.optimizers.Adam(1e-4) for optimizer in
    optimizers]]: an optimizer that is given is kept; where there is none,
    a new Adam is created, at the next free reference. *)
Fixpoint optimizers_or_Adam (optimizers : list (option nat))
    (slots : nat → opt_state) (free : nat)
    : list nat * (nat → opt_state) * nat :=
  match optimizers with
  | [] => ([], slots, free)
  | Some optimizer :: optimizers' =>
    let '(rest, slots', free') := optimizers_or_Adam optimizers' slots free in
    (optimizer :: rest, slots', free')
  | None :: optimizers' =>
    let '(rest, slots', free') :=
      optimizers_or_Adam optimizers' (<[free := Adam (1 # 10000)]> slots)
                         (S free) in
    (free :: rest, slots', free')
  end.

(** Lines 126-133: the variables the learner exposes, under the names
    [critic_network_i] and [policy_network_i] of the edges. *)
Definition expose_variables (policy_networks : list policy_module)
    (target_observation_networks : list observation_module)
    (target_policy_networks : list policy_module)
    (target_critic_networks : list critic_module)
    : result (gmap string (list var)) :=
  for_loop (fun (exposed : gmap string (list var)) i =>
      target_observation_network ← py_index target_observation_networks i;
      target_policy_network ← py_index target_policy_networks i;
      let policy_network_to_expose :=
        Sequential_variables [target_observation_network;
                              target_policy_network] in
      target_critic_network ← py_index target_critic_networks i;
      let exposed :=
        <["critic_network_" +:+ pretty i := variables target_critic_network]>
          exposed in
      mret (<["policy_network_" +:+ pretty i := policy_network_to_expose]>
              exposed))
    ∅ (seq 0 (length policy_networks)).

(** [__init__].  The networks have been built: their variables have
    values [values0]; [slots0] are the slots of the optimizers that exist
    and [free] is the next free optimizer reference.  [restore] is what
    constructing the checkpointer does to the learner (it restores the
    latest checkpoint, if there is one). *)
Definition __init__
    (policy_networks : list policy_module)
    (critic_networks : list critic_module)
    (target_policy_networks : list policy_module)
    (target_critic_networks : list critic_module)
    (discount : scalar)
    (target_update_period : Z)
    (dataset_iterator : list (Transition scalar))
    (observation_networks target_observation_networks
       : list TensorTransformation)
    (policy_optimizers critic_optimizers : list (option nat))
    (clipping : bool)
    (replicator : option Replicator)
    (counter : option Counter)
    (logger : option Logger)
    (checkpoint : bool)
    (edge_number edge_action_size : nat)
    (values0 : var → param) (slots0 : nat → opt_state) (free : nat)
    (restore : World → World)
    : outcome (Learner * World) :=
  (* Make sure observation networks are snt.Module's so they have
     variables. *)
  let self_observation_networks := to_sonnet_module <$> observation_networks in
  let self_target_observation_networks :=
    to_sonnet_module <$> target_observation_networks in
  (* General learner book-keeping and loggers. *)
  let self_counter := default new_Counter counter in
  let self_logger := default (make_default_logger "learner") logger in
  (* Replicates Variables across multiple accelerators *)
  replicator ←
    match replicator with
    | Some replicator => mret replicator
    | None =>
      accelerator ← Accelerator.get_first_available_accelerator_type
                      get_visible_devices Accelerator.default_wishlist;
      mret (if String.eqb accelerator "TPU" then snt_TpuReplicator
            else snt_Replicator)
    end;
  (* Create optimizers if they aren't given. *)
  let '(self_policy_optimizers, slots1, free1) :=
    optimizers_or_Adam policy_optimizers slots0 free in
  let '(self_critic_optimizers, slots2, free2) :=
    optimizers_or_Adam critic_optimizers slots1 free1 in
  (* Expose the variables. *)
  self_variables ← raise_from
    (expose_variables policy_networks self_target_observation_networks
       target_policy_networks target_critic_networks);
  (* Create a checkpointer and snapshotter objects. *)
  let self_checkpointer :=
    if checkpoint
    then Some {| subdirectory := "mad3pg_learner";
                 objects_to_save :=
                   ["counter"; "policy"; "critic"; "observation";
                    "target_policy"; "target_critic"; "target_observation";
                    "policy_optimizer"; "critic_optimizer"; "num_steps"] |}
    else None in
  let self_snapshotter :=
    if checkpoint then Some {| snapshots := ["policy"; "critic"] |}
    else None in
  let self := {|
    attributes := {|
      _policy_networks := policy_networks;
      _critic_networks := critic_networks;
      _target_policy_networks := target_policy_networks;
      _target_critic_networks := target_critic_networks;
      _observation_networks := self_observation_networks;
      _target_observation_networks := self_target_observation_networks;
      _discount := discount;
      _clipping := clipping;
      _target_update_period := target_update_period;
      _policy_optimizers := self_policy_optimizers;
      _critic_optimizers := self_critic_optimizers;
      _edge_number := edge_number;
      _edge_action_size := edge_action_size |};
    _logger := self_logger;
    _replicator := replicator;
    _variables := self_variables;
    _checkpointer := self_checkpointer;
    _snapshotter := self_snapshotter |} in
  let world := {|
    learner_state := {| values := values0; _num_steps := 0;
                        slots := slots2; _iterator := dataset_iterator |};
    (* Do not record timestamps until after the first learning step is
       done. *)
    _timestamp := None;
    _counter := self_counter;
    events := [] |} in
  mret (self, if checkpoint then restore world else world).

(** [get_variables]: the current values of the variables exposed under
    each of the names. *)
Definition get_variables (self : Learner) (names : list string)
    (st : State) : result (list (list param)) :=
  mapM (M := result)
       (fun name =>
          exposed ← py_getitem (_variables self) name;
          mret (fmap (M := list) (values st) exposed))
       names.

(** [step]; [timestamp] is what [time.time()] returns after the learning
    step. *)
Definition step (self : Learner) (timestamp : number) (world : World)
    : result unit * World :=
  (* Run the learning step. *)
  match _replicated_step (attributes self) (learner_state world) with
  | (Err e, st) =>
    (Err e, {| learner_state := st; _timestamp := _timestamp world;
               _counter := _counter world; events := events world |})
  | (Ok fetches, st) =>
    (* Compute elapsed time. *)
    let elapsed_time :=
      match _timestamp world with
      | Some previous =>
        if number_truth previous then number_sub timestamp previous
        else number_0
      | None => number_0
      end in
    (* Update our counts and record it. *)
    let '(counts, counter) := increment (_counter world) number_1 elapsed_time in
    let fetches : gmap string logged :=
      (Number <$> counts) ∪ (Tensors <$> fetches) in
    (* Checkpoint and attempt to write the logs. *)
    let saved :=
      (if _checkpointer self is Some _ then [Checkpointer_save] else [])
      ++ (if _snapshotter self is Some _ then [Snapshotter_save] else []) in
    (Ok tt, {| learner_state := st; _timestamp := Some timestamp;
               _counter := counter;
               events := events world ++ saved
                           ++ [Logger_write (_logger self) fetches] |})
  end.
End Learner.
End Bookkeeping.
(** *** The variables the learner exposes *)

Section Exposed.
Context `{Runtime}.
Import Bookkeeping.

Lemma first_occurrences_NoDup (vs : list var) :
  NoDup vs → first_occurrences vs = vs.
Proof.
  induction 1 as [|v vs Hv _ IH]; [done|].
  simpl. rewrite IH. f_equal. clear IH.
  induction vs as [|w vs IHvs]; [done|].
  apply not_elem_of_cons in Hv as [Hne Hv].
  rewrite filter_cons_True by congruence. f_equal. by apply IHvs.
Qed.

Lemma Sequential_variables_NoDup {I O} (layers : list (SntModule I O)) :
  NoDup (mjoin (variables <$> layers)) →
  Sequential_variables layers = mjoin (variables <$> layers).
Proof. apply first_occurrences_NoDup. Qed.

Lemma Sequential_variables_pair {I O} (first second : SntModule I O) :
  NoDup (variables first ++ variables second) →
  Sequential_variables [first; second] = variables first ++ variables second.
Proof.
  intros Hnodup. unfold Sequential_variables.
  assert (mjoin (variables <$> [first; second])
          = variables first ++ variables second) as ->.
  { cbn. apply (f_equal (app (variables first))), app_nil_r. }
  by apply first_occurrences_NoDup.
Qed.

Definition policy_key (i : nat) : string := "policy_network_" +:+ pretty i.
Definition critic_key (i : nat) : string := "critic_network_" +:+ pretty i.

Lemma policy_key_inj i j : policy_key i = policy_key j → i = j.
Proof.
  unfold policy_key. intros Heq%(inj (String.append _)).
  by apply (inj pretty) in Heq.
Qed.

Lemma critic_key_inj i j : critic_key i = critic_key j → i = j.
Proof.
  unfold critic_key. intros Heq%(inj (String.append _)).
  by apply (inj pretty) in Heq.
Qed.

Lemma policy_key_critic_key i j : policy_key i ≠ critic_key j.
Proof. unfold policy_key, critic_key. simpl. discriminate. Qed.

(** The body of the loop of lines 129-133. *)
Definition expose_edge (target_observation_networks : list observation_module)
    (target_policy_networks : list policy_module)
    (target_critic_networks : list critic_module)
    (exposed : gmap string (list var)) (i : nat)
    : result (gmap string (list var)) :=
  target_observation_network ← py_index target_observation_networks i;
  target_policy_network ← py_index target_policy_networks i;
  target_critic_network ← py_index target_critic_networks i;
  mret (<[policy_key i := Sequential_variables [target_observation_network;
                                                 target_policy_network]]>
          (<[critic_key i := variables target_critic_network]> exposed)).

Lemma expose_variables_expose_edge policy_networks tobs tpol tcrit :
  expose_variables policy_networks tobs tpol tcrit
  = for_loop (expose_edge tobs tpol tcrit) ∅
             (seq 0 (length policy_networks)).
Proof. reflexivity. Qed.

Lemma expose_loop tobs tpol tcrit : ∀ k m d0,
  (∀ i, m ≤ i < m + k →
        i < length tobs ∧ i < length tpol ∧ i < length tcrit) →
  ∃ d, for_loop (expose_edge tobs tpol tcrit) d0 (seq m k) = Ok d
       ∧ (∀ i o p c, m ≤ i < m + k →
            tobs !! i = Some o → tpol !! i = Some p → tcrit !! i = Some c →
            d !! policy_key i = Some (Sequential_variables [o; p])
            ∧ d !! critic_key i = Some (variables c))
       ∧ (∀ key, (∀ i, m ≤ i < m + k →
                       key ≠ policy_key i ∧ key ≠ critic_key i) →
                 d !! key = d0 !! key).
Proof.
  unfold observation_module, policy_module, critic_module in *.
  induction k as [|k IH]; intros m d0 Hbound.
  { exists d0. split_and!; [done| |done]. intros; lia. }
  change (seq m (S k)) with (m :: seq (S m) k). rewrite for_loop_cons.
  destruct (Hbound m) as (Ho & Hp & Hc); [lia|].
  destruct (lookup_lt_is_Some_2 tobs m Ho) as [o Hmo].
  destruct (lookup_lt_is_Some_2 tpol m Hp) as [p Hmp].
  destruct (lookup_lt_is_Some_2 tcrit m Hc) as [c Hmc].
  assert (expose_edge tobs tpol tcrit d0 m
          = Ok (<[policy_key m := Sequential_variables [o; p]]>
                  (<[critic_key m := variables c]> d0))) as ->.
  { unfold expose_edge, py_index.
    unfold observation_module, policy_module, critic_module in *.
    by rewrite Hmo, bind_Ok, Hmp, bind_Ok, Hmc, !bind_Ok. }
  rewrite bind_Ok.
  destruct (IH (S m)
              (<[policy_key m := Sequential_variables [o; p]]>
                 (<[critic_key m := variables c]> d0)))
    as (d & Hd & Hin & Hout); [intros i Hi; apply Hbound; lia|].
  exists d. split; [exact Hd|]. split.
  - intros i o' p' c' Hi Hio Hip Hic.
    destruct (decide (i = m)) as [->|Hne].
    + simplify_eq. rewrite !Hout.
      * rewrite lookup_insert_eq, lookup_insert_ne
          by apply policy_key_critic_key.
        by rewrite lookup_insert_eq.
      * intros i Hi'. split.
        -- intros Heq. symmetry in Heq.
           by apply policy_key_critic_key in Heq.
        -- intros Heq%critic_key_inj. lia.
      * intros i Hi'. split.
        -- intros Heq%policy_key_inj. lia.
        -- apply policy_key_critic_key.
    + apply Hin; [lia|done..].
  - intros key Hkey. rewrite Hout.
    + destruct (Hkey m) as [Hk1 Hk2]; [lia|].
      by rewrite !lookup_insert_ne.
    + intros i Hi. apply Hkey. lia.
Qed.

Lemma expose_loop_IndexError tobs tpol tcrit : ∀ k m d0 i,
  m ≤ i < m + k →
  ¬ (i < length tobs ∧ i < length tpol ∧ i < length tcrit) →
  for_loop (expose_edge tobs tpol tcrit) d0 (seq m k) = Err IndexError.
Proof.
  induction k as [|k IH]; intros m d0 i Hi Hout; [lia|].
  change (seq m (S k)) with (m :: seq (S m) k). rewrite for_loop_cons.
  destruct (expose_edge tobs tpol tcrit d0 m) as [d1|e] eqn:Hm.
  - rewrite bind_Ok. apply (IH _ _ i); [|done].
    destruct (decide (i = m)) as [->|?]; [|lia].
    exfalso. apply Hout. revert Hm. unfold expose_edge, py_index.
    destruct (tobs !! m) as [o|] eqn:Hmo; [|done]. rewrite bind_Ok.
    destruct (tpol !! m) as [p|] eqn:Hmp; [|done]. rewrite bind_Ok.
    destruct (tcrit !! m) as [c|] eqn:Hmc; [|done]. intros _.
    apply lookup_lt_Some in Hmo, Hmp, Hmc. done.
  - rewrite bind_Err. f_equal. revert Hm. unfold expose_edge, py_index.
    destruct (tobs !! m) as [o|]; [|by intros [= <-]]. rewrite bind_Ok.
    destruct (tpol !! m) as [p|]; [|by intros [= <-]]. rewrite bind_Ok.
    destruct (tcrit !! m) as [c|]; [|by intros [= <-]]. done.
Qed.

(** [expose_variables] succeeds exactly when every edge that has a policy
    network has its three target networks. *)
Lemma expose_variables_Ok policy_networks tobs tpol tcrit :
  (length policy_networks ≤ length tobs
   ∧ length policy_networks ≤ length tpol
   ∧ length policy_networks ≤ length tcrit
   ∧ ∃ d, expose_variables policy_networks tobs tpol tcrit = Ok d)
  ∨ ((length tobs < length policy_networks
      ∨ length tpol < length policy_networks
      ∨ length tcrit < length policy_networks)
     ∧ expose_variables policy_networks tobs tpol tcrit = Err IndexError).
Proof.
  rewrite expose_variables_expose_edge.
  destruct (decide (length policy_networks ≤ length tobs
                    ∧ length policy_networks ≤ length tpol
                    ∧ length policy_networks ≤ length tcrit))
    as [(Ho & Hp & Hc)|Hshort].
  - left. split_and!; [done..|].
    destruct (expose_loop tobs tpol tcrit (length policy_networks) 0 ∅)
      as (d & Hd & _); [intros i Hi; lia|]. by exists d.
  - right. split; [lia|].
    set (i := (length tobs `min` length tpol) `min` length tcrit).
    apply (expose_loop_IndexError _ _ _ _ _ _ i); lia.
Qed.
End Exposed.

(** *** The values of the target variables after a step *)

Section TargetValues.
Context `{Framework}.
Implicit Types (self : MAD3PGLearner) (st : State).

(** After a step, returned or raised, a target variable holds what the
    synchronisation left in it. *)
Lemma _replicated_step_target_value self st d :
  well_formed self → _target_update_period self ≠ 0%Z →
  d ∈ target_vars self →
  values (_replicated_step self st).2 d = values (synchronise self st) d.
Proof.
  intros Hwf HP Hd.
  destruct (_replicated_step_frame self st HP) as [_ Hv].
  apply Hv. intros Ho. by eapply (wf_apart _ Hwf).
Qed.

Lemma synchronise_copies self st s d :
  well_formed self →
  (_num_steps st mod _target_update_period self = 0)%Z →
  corresponds self s d →
  values (synchronise self st) d = values st s.
Proof.
  intros Hwf Hmod Hcor.
  pose proof (corresponds_sync_pairs self s d Hwf Hcor) as Hin.
  unfold synchronise. cbn [values].
  rewrite bool_decide_eq_true_2 by done.
  apply assign_pairs_copy; [| |done].
  - intros s1 d1 H1 ([s2 d2] & Heq & Hp)%list_elem_of_fmap. simpl in Heq.
    apply (wf_apart _ Hwf s1).
    + by apply (sync_pairs_sides self s1 d1).
    + rewrite Heq. by apply (sync_pairs_sides self s2 d2).
  - apply (wf_functional _ Hwf).
Qed.

Lemma synchronise_keeps self st :
  (_num_steps st mod _target_update_period self ≠ 0)%Z →
  values (synchronise self st) = values st.
Proof.
  intros Hmod. unfold synchronise. cbn [values].
  by rewrite bool_decide_eq_false_2.
Qed.

(** Position by position, the variables of the target networks of an edge
    hold the values of the variables of its online networks. *)
Lemma fmap_corresponds self (σ σ' : var → param) (online target : list var) :
  length online = length target →
  (∀ j s d, online !! j = Some s → target !! j = Some d → σ' d = σ s) →
  σ' <$> target = σ <$> online.
Proof.
  intros Hlen Hpos. apply list_eq. intros j.
  rewrite !list_lookup_fmap.
  destruct (target !! j) as [d|] eqn:Hd.
  - destruct (lookup_lt_is_Some_2 online j) as [s Hs].
    { rewrite Hlen. by eapply lookup_lt_Some. }
    rewrite Hs. cbn. f_equal. by eapply Hpos.
  - apply lookup_ge_None in Hd.
    rewrite (proj2 (lookup_ge_None online j)) by lia. done.
Qed.
End TargetValues.
(** *** The constructor *)

Section Construction.
Context `{Runtime}.
Import Bookkeeping.

Fixpoint count_None {A} (l : list (option A)) : nat :=
  match l with
  | [] => 0
  | None :: l' => S (count_None l')
  | Some _ :: l' => count_None l'
  end.

(** The comprehension numbers the optimizers it creates from [free] on, in
    the order of the list. *)
Lemma optimizers_or_Adam_spec (optimizers : list (option nat)) :
  ∀ slots free os slots' free',
  optimizers_or_Adam optimizers slots free = (os, slots', free') →
  length os = length optimizers
  ∧ free' = free + count_None optimizers
  ∧ (∀ i, i < length optimizers →
       os !! i = Some (match optimizers !! i with
                       | Some (Some o) => o
                       | _ => free + count_None (take i optimizers)
                       end))
  ∧ (∀ o, free ≤ o < free' → slots' o = Adam (1 # 10000))
  ∧ (∀ o, ¬ (free ≤ o < free') → slots' o = slots o).
Proof.
  induction optimizers as [|[o|] optimizers IH];
    intros slots free os slots' free'; simpl.
  - intros [= <- <- <-]. split_and!; [done|lia| | |done]; intros; lia.
  - destruct (optimizers_or_Adam optimizers slots free)
      as [[rest slots1] free1] eqn:Hrest.
    intros [= <- <- <-].
    destruct (IH _ _ _ _ _ Hrest) as (Hlen & Hfree & Hat & Hnew & Hold).
    split_and!; [simpl; lia|done| |done|done].
    intros [|i] Hi; [done|]. simpl. apply Hat. simpl in Hi. lia.
  - destruct (optimizers_or_Adam optimizers
                (<[free := Adam (1 # 10000)]> slots) (S free))
      as [[rest slots1] free1] eqn:Hrest.
    intros [= <- <- <-].
    destruct (IH _ _ _ _ _ Hrest) as (Hlen & Hfree & Hat & Hnew & Hold).
    split_and!; [simpl; lia|lia| | |].
    + intros [|i] Hi; simpl; [f_equal; lia|].
      rewrite Hat by (simpl in Hi; lia).
      destruct (optimizers !! i) as [[o|]|]; f_equal; lia.
    + intros o Ho. destruct (decide (o = free)) as [->|Hne].
      * rewrite Hold by lia. apply fn_lookup_insert.
      * apply Hnew. lia.
    + intros o Ho. rewrite Hold by lia. apply fn_lookup_insert_ne. lia.
Qed.

Lemma count_None_take_lt {A} (l : list (option A)) i j :
  i < j → l !! i = Some None →
  count_None (take i l) < count_None (take j l).
Proof.
  revert i j. induction l as [|x l IH]; intros i j Hij Hi; [done|].
  destruct j as [|j]; [lia|].
  destruct i as [|i]; simpl in *.
  - injection Hi as ->. lia.
  - specialize (IH i j). destruct x; [apply IH|apply Nat.succ_lt_mono in IH];
      try done; lia.
Qed.

Lemma count_None_take_le {A} (l : list (option A)) i :
  l !! i = Some None → count_None (take i l) < count_None l.
Proof.
  intros Hi. rewrite <- (firstn_all l) at 2.
  apply count_None_take_lt; [|done]. by eapply lookup_lt_Some.
Qed.

Variables
  (policy_networks : list policy_module)
  (critic_networks : list critic_module)
  (target_policy_networks : list policy_module)
  (target_critic_networks : list critic_module)
  (discount : scalar)
  (target_update_period : Z)
  (dataset_iterator : list (Transition scalar))
  (observation_networks target_observation_networks
     : list TensorTransformation)
  (policy_optimizers critic_optimizers : list (option nat))
  (clipping : bool)
  (replicator : option Replicator)
  (counter : option Counter)
  (logger : option Logger)
  (checkpoint : bool)
  (edge_number edge_action_size : nat)
  (values0 : var → param) (slots0 : nat → opt_state) (free : nat)
  (restore : World → World).

Local Abbreviation constructed :=
  (__init__ policy_networks critic_networks target_policy_networks
     target_critic_networks discount target_update_period dataset_iterator
     observation_networks target_observation_networks policy_optimizers
     critic_optimizers clipping replicator counter logger checkpoint
     edge_number edge_action_size values0 slots0 free restore).

(** No device of the default wish list is visible. *)
Definition no_accelerator : Prop :=
  Forall (fun w => get_visible_devices (Some w) = [])
         Accelerator.default_wishlist.

(** An edge that has a policy network lacks a target network. *)
Definition target_missing : Prop :=
  length target_observation_networks < length policy_networks
  ∨ length target_policy_networks < length policy_networks
  ∨ length target_critic_networks < length policy_networks.

Lemma constructed_replicator :
  (replicator = None ∧ no_accelerator
   ∧ constructed = RuntimeError (Accelerator.message ""))
  ∨ (∃ r, (replicator = Some r
           ∨ (replicator = None
              ∧ ∃ accelerator,
                  Accelerator.get_first_available_accelerator_type
                    get_visible_devices Accelerator.default_wishlist
                  = Returned accelerator
                  ∧ r = if String.eqb accelerator "TPU"
                        then snt_TpuReplicator else snt_Replicator))
          ∧ ¬ (replicator = None ∧ no_accelerator)
          ∧ constructed
            = (let '(self_policy_optimizers, slots1, free1) :=
                 optimizers_or_Adam policy_optimizers slots0 free in
               let '(self_critic_optimizers, slots2, free2) :=
                 optimizers_or_Adam critic_optimizers slots1 free1 in
               self_variables ← raise_from
                 (expose_variables policy_networks
                    (to_sonnet_module <$> target_observation_networks)
                    target_policy_networks target_critic_networks);
               let world := {|
                 learner_state :=
                   {| values := values0; _num_steps := 0; slots := slots2;
                      _iterator := dataset_iterator |};
                 _timestamp := None;
                 _counter := default new_Counter counter;
                 events := [] |} in
               mret ({|
                 attributes := {|
                   _policy_networks := policy_networks;
                   _critic_networks := critic_networks;
                   _target_policy_networks := target_policy_networks;
                   _target_critic_networks := target_critic_networks;
                   _observation_networks :=
                     to_sonnet_module <$> observation_networks;
                   _target_observation_networks :=
                     to_sonnet_module <$> target_observation_networks;
                   _discount := discount;
                   _clipping := clipping;
                   _target_update_period := target_update_period;
                   _policy_optimizers := self_policy_optimizers;
                   _critic_optimizers := self_critic_optimizers;
                   _edge_number := edge_number;
                   _edge_action_size := edge_action_size |};
                 _logger := default (make_default_logger "learner") logger;
                 _replicator := r;
                 _variables := self_variables;
                 _checkpointer :=
                   if checkpoint
                   then Some {| subdirectory := "mad3pg_learner";
                                objects_to_save :=
                                  ["counter"; "policy"; "critic";
                                   "observation"; "target_policy";
                                   "target_critic"; "target_observation";
                                   "policy_optimizer"; "critic_optimizer";
                                   "num_steps"] |}
                   else None;
                 _snapshotter :=
                   if checkpoint
                   then Some {| snapshots := ["policy"; "critic"] |}
                   else None |},
                 if checkpoint then restore world else world))).
Proof.
  unfold __init__.
  destruct replicator as [r|].
  { right. exists r. split; [by left|]. split; [by intros [? _]|done]. }
  destruct (Accelerator.get_first_available_accelerator_type_spec
              get_visible_devices Accelerator.default_wishlist)
    as [[Hnone Hacc]|[Hsome [accelerator Hacc]]].
  - left. split_and!; [done..|].
    rewrite Hacc, (get_visible_devices_types Hnone). done.
  - right. eexists. split; [right; split; [done|]; by eexists|].
    split.
    + by intros [_ Hnone].
    + by rewrite Hacc.
Qed.
Lemma constructed_Returned self world :
  constructed = Returned (self, world) →
  ∃ os_p slots1 free1 os_c slots2 free2 exposed,
    optimizers_or_Adam policy_optimizers slots0 free = (os_p, slots1, free1)
    ∧ optimizers_or_Adam critic_optimizers slots1 free1
      = (os_c, slots2, free2)
    ∧ expose_variables policy_networks
        (to_sonnet_module <$> target_observation_networks)
        target_policy_networks target_critic_networks = Ok exposed
    ∧ attributes self
      = {| _policy_networks := policy_networks;
           _critic_networks := critic_networks;
           _target_policy_networks := target_policy_networks;
           _target_critic_networks := target_critic_networks;
           _observation_networks := to_sonnet_module <$> observation_networks;
           _target_observation_networks :=
             to_sonnet_module <$> target_observation_networks;
           _discount := discount;
           _clipping := clipping;
           _target_update_period := target_update_period;
           _policy_optimizers := os_p;
           _critic_optimizers := os_c;
           _edge_number := edge_number;
           _edge_action_size := edge_action_size |}
    ∧ _variables self = exposed
    ∧ (is_Some (_checkpointer self) ↔ checkpoint = true)
    ∧ (is_Some (_snapshotter self) ↔ checkpoint = true)
    ∧ (checkpoint = false →
       world = {| learner_state :=
                    {| values := values0; _num_steps := 0; slots := slots2;
                       _iterator := dataset_iterator |};
                  _timestamp := None;
                  _counter := default new_Counter counter;
                  events := [] |}).
Proof.
  destruct constructed_replicator as [(_ & _ & ->)|(r & _ & _ & ->)]; [done|].
  destruct (optimizers_or_Adam policy_optimizers slots0 free)
    as [[os_p slots1] free1] eqn:Hp.
  destruct (optimizers_or_Adam critic_optimizers slots1 free1)
    as [[os_c slots2] free2] eqn:Hc.
  destruct (expose_variables _ _ _ _) as [exposed|e] eqn:He; [|done].
  cbn. intros [= <- <-].
  exists os_p, slots1, free1, os_c, slots2, free2, exposed. cbn.
  split_and!; try done.
  - destruct checkpoint; split; done.
  - destruct checkpoint; split; done.
  - by intros ->.
Qed.
Lemma elem_of_first_occurrences (vs : list var) v :
  v ∈ first_occurrences vs → v ∈ vs.
Proof.
  revert v. induction vs as [|w vs IH]; intros v; [done|].
  simpl. intros [->|Hv]%elem_of_cons; [by left|].
  apply list_elem_of_filter in Hv as [_ Hv]. right. by apply IH.
Qed.

(** When the constructor returns, the learner exposes, for every edge [i]
    that has a policy network, the variables of the target critic of the
    edge under [critic_network_i] and the variables of the target
    observation network followed by those of the target policy of the edge
    under [policy_network_i]; it exposes nothing under any other name, and
    no variable that is not a variable of a target network. *)
Theorem init_exposes_the_target_networks self world :
  constructed = Returned (self, world) →
  (∀ i, i < length policy_networks →
     ∃ o p c,
       target_observation_networks !! i = Some o
       ∧ target_policy_networks !! i = Some p
       ∧ target_critic_networks !! i = Some c
       ∧ _variables self !! ("policy_network_" +:+ pretty i)
         = Some (Sequential_variables [to_sonnet_module o; p])
       ∧ _variables self !! ("critic_network_" +:+ pretty i)
         = Some (variables c))
  ∧ (∀ name, is_Some (_variables self !! name) →
       ∃ i, i < length policy_networks
            ∧ (name = "policy_network_" +:+ pretty i
               ∨ name = "critic_network_" +:+ pretty i))
  ∧ (∀ name exposed v,
       _variables self !! name = Some exposed → v ∈ exposed →
       v ∈ target_vars (attributes self)).
Proof.
  intros Hc.
  destruct (constructed_Returned self world Hc)
    as (os_p & slots1 & free1 & os_c & slots2 & free2 & exposed & _ & _
          & Hexp & Hattr & Hvars & _).
  rewrite Hvars. clear Hc Hvars.
  set (tobs := to_sonnet_module <$> target_observation_networks) in *.
  destruct (expose_variables_Ok policy_networks tobs target_policy_networks
              target_critic_networks)
    as [(Ho & Hp & Hcr & _)|(_ & Herr)]; [|congruence].
  rewrite expose_variables_expose_edge in Hexp.
  destruct (expose_loop tobs target_policy_networks target_critic_networks
              (length policy_networks) 0 ∅)
    as (d & Hd & Hin & Hout); [intros i Hi; lia|].
  assert (d = exposed) as -> by congruence.
  assert (∀ i, i < length policy_networks →
            ∃ o p c,
              target_observation_networks !! i = Some o
              ∧ target_policy_networks !! i = Some p
              ∧ target_critic_networks !! i = Some c
              ∧ exposed !! policy_key i
                = Some (Sequential_variables [to_sonnet_module o; p])
              ∧ exposed !! critic_key i = Some (variables c)) as Hedge.
  { intros i Hi.
    destruct (lookup_lt_is_Some_2 tobs i) as [o' Ho']; [lia|].
    destruct (lookup_lt_is_Some_2 target_policy_networks i) as [p Hpi];
      [lia|].
    destruct (lookup_lt_is_Some_2 target_critic_networks i) as [c Hci];
      [lia|].
    pose proof Ho' as Ho''. unfold tobs in Ho''.
    rewrite list_lookup_fmap in Ho''.
    destruct (target_observation_networks !! i) as [o|] eqn:Hoi; [|done].
    injection Ho'' as <-.
    destruct (Hin i _ p c ltac:(lia) Ho' Hpi Hci) as [? ?].
    by exists o, p, c. }
  assert (∀ name, is_Some (exposed !! name) →
            ∃ i, i < length policy_networks
                 ∧ (name = policy_key i ∨ name = critic_key i)) as Hnames.
  { intros name Hname.
    destruct (decide (Exists (fun i => name = policy_key i
                                       ∨ name = critic_key i)
                             (seq 0 (length policy_networks))))
      as [Hex|Hnex].
    - apply Exists_exists in Hex as (i & Hi%elem_of_seq & Hor).
      exists i. split; [lia|done].
    - rewrite Hout, lookup_empty in Hname; [by destruct Hname|].
      intros i Hi. split; intros ->; apply Hnex, Exists_exists;
        exists i; (split; [apply elem_of_seq; lia|]); [by left|by right]. }
  split_and!; [exact Hedge|exact Hnames|].
  intros name vs v Hname Hv.
  destruct (Hnames name) as (i & Hi & Hor); [by eexists|].
  destruct (Hedge i Hi) as (o & p & c & Hoi & Hpi & Hci & Hpk & Hck).
  rewrite Hattr. unfold target_vars. cbn. fold tobs. rewrite !elem_of_app.
  destruct Hor as [->| ->].
  - rewrite Hpk in Hname. injection Hname as <-.
    apply elem_of_first_occurrences in Hv. cbn in Hv.
    rewrite app_nil_r in Hv. apply elem_of_app in Hv as [Hv|Hv].
    + left. eapply all_variables_elem; [|exact Hv].
      unfold tobs. apply list_elem_of_fmap. exists o.
      split; [done|]. by eapply list_elem_of_lookup_2.
    + right. right. eapply all_variables_elem; [|exact Hv].
      by eapply list_elem_of_lookup_2.
  - rewrite Hck in Hname. injection Hname as <-.
    right. left. eapply all_variables_elem; [|exact Hv].
    by eapply list_elem_of_lookup_2.
Qed.

(** When the constructor returns, the learner has as many policy and critic
    optimizers as it was given entries, an optimizer that was given is
    kept at its place, and each missing one is an Adam optimizer of its
    own: a reference that did not exist before, different from the one
    created for any other entry of the two lists. *)
Theorem init_creates_the_missing_optimizers self world :
  constructed = Returned (self, world) →
  let policy := _policy_optimizers (attributes self) in
  let critic := _critic_optimizers (attributes self) in
  length policy = length policy_optimizers
  ∧ length critic = length critic_optimizers
  ∧ (∀ i o, policy_optimizers !! i = Some (Some o) → policy !! i = Some o)
  ∧ (∀ i o, critic_optimizers !! i = Some (Some o) → critic !! i = Some o)
  ∧ (∀ i, policy_optimizers !! i = Some None →
       ∃ o, policy !! i = Some o ∧ free ≤ o
            ∧ (checkpoint = false →
               slots (learner_state world) o = Adam (1 # 10000))
            ∧ (∀ j, j ≠ i → policy_optimizers !! j = Some None →
                    policy !! j ≠ Some o)
            ∧ (∀ j, critic_optimizers !! j = Some None →
                    critic !! j ≠ Some o))
  ∧ (∀ i, critic_optimizers !! i = Some None →
       ∃ o, critic !! i = Some o ∧ free ≤ o
            ∧ (checkpoint = false →
               slots (learner_state world) o = Adam (1 # 10000))
            ∧ (∀ j, j ≠ i → critic_optimizers !! j = Some None →
                    critic !! j ≠ Some o))
  ∧ (checkpoint = false →
     ∀ o, o < free → slots (learner_state world) o = slots0 o).
Proof.
  intros Hc.
  destruct (constructed_Returned self world Hc)
    as (os_p & slots1 & free1 & os_c & slots2 & free2 & exposed & Hp & Hcr
          & _ & Hattr & _ & _ & _ & Hworld).
  rewrite Hattr. cbn [_policy_optimizers _critic_optimizers]. clear Hattr Hc.
  destruct (optimizers_or_Adam_spec _ _ _ _ _ _ Hp)
    as (Hlp & Hfp & Hatp & Hnewp & Holdp).
  destruct (optimizers_or_Adam_spec _ _ _ _ _ _ Hcr)
    as (Hlc & Hfc & Hatc & Hnewc & Holdc).
  assert (∀ i, policy_optimizers !! i = Some None →
            os_p !! i
            = Some (free + count_None (take i policy_optimizers))) as Hpn.
  { intros i Hi. rewrite Hatp by (by eapply lookup_lt_Some). by rewrite Hi. }
  assert (∀ i, critic_optimizers !! i = Some None →
            os_c !! i
            = Some (free1 + count_None (take i critic_optimizers))) as Hcn.
  { intros i Hi. rewrite Hatc by (by eapply lookup_lt_Some). by rewrite Hi. }
  split_and!; [done|done| | | | |].
  - intros i o Hi. rewrite Hatp by (by eapply lookup_lt_Some). by rewrite Hi.
  - intros i o Hi. rewrite Hatc by (by eapply lookup_lt_Some). by rewrite Hi.
  - intros i Hi. eexists. split; [by apply Hpn|].
    pose proof (count_None_take_le _ _ Hi) as Hlt.
    split_and!; [lia| | |].
    + intros Hno. rewrite (Hworld Hno). cbn.
      rewrite Holdc by lia. apply Hnewp. lia.
    + intros j Hne Hj. rewrite (Hpn j Hj). intros [= Heq].
      destruct (decide (i < j)).
      * pose proof (count_None_take_lt _ i j ltac:(lia) Hi). lia.
      * pose proof (count_None_take_lt _ j i ltac:(lia) Hj). lia.
    + intros j Hj. rewrite (Hcn j Hj). intros [= Heq]. lia.
  - intros i Hi. eexists. split; [by apply Hcn|].
    pose proof (count_None_take_le _ _ Hi) as Hlt.
    split_and!; [lia| |].
    + intros Hno. rewrite (Hworld Hno). cbn. apply Hnewc. lia.
    + intros j Hne Hj. rewrite (Hcn j Hj). intros [= Heq].
      destruct (decide (i < j)).
      * pose proof (count_None_take_lt _ i j ltac:(lia) Hi). lia.
      * pose proof (count_None_take_lt _ j i ltac:(lia) Hj). lia.
  - intros Hno o Ho. rewrite (Hworld Hno). cbn.
    rewrite Holdc, Holdp by lia. done.
Qed.


End Construction.

(** The constructor raises [RuntimeError] exactly when it is given no
    replicator and no TPU, GPU or CPU is visible, whatever the networks;
    otherwise it raises [IndexError] exactly when an edge that has a policy
    network lacks a target observation network, target policy network or
    target critic network; otherwise it returns the learner. *)
Theorem init_raises_or_returns `{Runtime}
    (policy_networks : list policy_module)
    (critic_networks : list critic_module)
    (target_policy_networks : list policy_module)
    (target_critic_networks : list critic_module)
    (discount : scalar) (target_update_period : Z)
    (dataset_iterator : list (Transition scalar))
    (observation_networks target_observation_networks
       : list Bookkeeping.TensorTransformation)
    (policy_optimizers critic_optimizers : list (option nat))
    (clipping : bool) (replicator : option Replicator)
    (counter : option Counter) (logger : option Logger) (checkpoint : bool)
    (edge_number edge_action_size : nat)
    (values0 : var → param) (slots0 : nat → opt_state) (free : nat)
    (restore : Bookkeeping.World → Bookkeeping.World) :
  let constructed :=
    Bookkeeping.__init__ policy_networks critic_networks
      target_policy_networks target_critic_networks discount
      target_update_period dataset_iterator observation_networks
      target_observation_networks policy_optimizers critic_optimizers
      clipping replicator counter logger checkpoint edge_number
      edge_action_size values0 slots0 free restore in
  let no_device :=
    replicator = None
    ∧ get_visible_devices (Some "TPU"%string) = []
    ∧ get_visible_devices (Some "GPU"%string) = []
    ∧ get_visible_devices (Some "CPU"%string) = [] in
  let missing :=
    length target_observation_networks < length policy_networks
    ∨ length target_policy_networks < length policy_networks
    ∨ length target_critic_networks < length policy_networks in
  (no_device ↔ ∃ message, constructed = RuntimeError message)
  ∧ (¬ no_device ∧ missing ↔ ∃ e, constructed = Raised e)
  ∧ (∀ e, constructed = Raised e → e = IndexError)
  ∧ (¬ no_device ∧ ¬ missing ↔ ∃ self world, constructed = Returned (self, world)).
Proof.
  intros constructed no_device missing.
  assert (no_device ↔ replicator = None ∧ no_accelerator) as Hdev.
  { unfold no_device, no_accelerator, Accelerator.default_wishlist.
    rewrite !Forall_cons, Forall_nil. tauto. }
  destruct (constructed_replicator policy_networks critic_networks
              target_policy_networks target_critic_networks discount
              target_update_period dataset_iterator observation_networks
              target_observation_networks policy_optimizers
              critic_optimizers clipping replicator counter logger checkpoint
              edge_number edge_action_size values0 slots0 free restore)
    as [(Hr & Hnone & Heq)|(r & _ & Hsome & Heq)]; fold constructed in Heq.
  { assert no_device as Hno by (apply Hdev; done).
    rewrite Heq. split_and!.
    - split; [by eexists|done].
    - split; [tauto|by intros [e ?]].
    - done.
    - split; [tauto|by intros (? & ? & ?)]. }
  rewrite <- Hdev in Hsome.
  destruct (Bookkeeping.optimizers_or_Adam policy_optimizers slots0 free)
    as [[os_p slots1] free1].
  destruct (Bookkeeping.optimizers_or_Adam critic_optimizers slots1 free1)
    as [[os_c slots2] free2].
  destruct (expose_variables_Ok policy_networks
              (Bookkeeping.to_sonnet_module <$> target_observation_networks)
              target_policy_networks target_critic_networks)
    as [(Ho & Hp & Hc & d & Hd)|(Hshort & Herr)];
    rewrite ?length_fmap in *.
  - rewrite Hd in Heq. cbn in Heq. rewrite Heq.
    assert (¬ missing) as Hfull by (unfold missing; lia).
    split_and!.
    + split; [done|by intros [? ?]].
    + split; [tauto|by intros [? ?]].
    + done.
    + split; [by eexists _, _|done].
  - rewrite Herr in Heq. cbn in Heq. rewrite Heq.
    split_and!.
    + split; [done|by intros [? ?]].
    + split; [by eexists|done].
    + by intros e [= <-].
    + split; [unfold missing; tauto|by intros (? & ? & ?)].
Qed.

(** *** [get_variables] *)

(** [get_variables] returns one list of values per name, in the order of
    the names: the current values of the variables exposed under the name.
    A name under which nothing is exposed raises [KeyError] with that
    name, the first such name of the list. *)
Theorem get_variables_by_name `{Runtime} (self : Bookkeeping.Learner)
    (names : list string) (st : State) :
  (∀ values_by_name,
     Bookkeeping.get_variables self names st = Ok values_by_name →
     length values_by_name = length names
     ∧ ∀ i name, names !! i = Some name →
         ∃ exposed,
           Bookkeeping._variables self !! name = Some exposed
           ∧ values_by_name !! i = Some (values st <$> exposed))
  ∧ (∀ known name rest,
       names = known ++ name :: rest →
       Forall (fun n => is_Some (Bookkeeping._variables self !! n)) known →
       Bookkeeping._variables self !! name = None →
       Bookkeeping.get_variables self names st = Err (KeyError name)).
Proof.
  unfold Bookkeeping.get_variables. split.
  - intros vs Hvs. split; [by eapply mapM_Ok_length|].
    intros i name Hi.
    destruct (mapM_Ok_lookup _ _ _ i name Hvs Hi) as (y & Hy & Hlook).
    unfold py_getitem in Hy.
    destruct (Bookkeeping._variables self !! name) as [exposed|]; [|done].
    rewrite bind_Ok in Hy. injection Hy as <-. by exists exposed.
  - intros known name rest -> Hknown Hname.
    induction Hknown as [|n known [exposed Hn] _ IH].
    + rewrite app_nil_l, mapM_cons. unfold py_getitem. by rewrite Hname.
    + rewrite <- app_comm_cons, mapM_cons. cbv beta.
      assert (py_getitem (Bookkeeping._variables self) n = Ok exposed) as ->
        by (unfold py_getitem; by rewrite Hn).
      rewrite !bind_Ok. by rewrite IH.
Qed.


(** *** The bookkeeping of [step] *)

(** The bookkeeping does not change the learning step: [step] ends in the
    result and in the learner state of the learning step alone.  When the
    learning step raises, the exception is passed on and nothing is
    recorded: the timestamp and the counter are as before, and neither the
    checkpointer, nor the snapshotter, nor the logger has been called. *)
Theorem step_bookkeeping_follows_the_learning_step `{Runtime}
    (self : Bookkeeping.Learner) (timestamp : number)
    (world : Bookkeeping.World) :
  let learnt :=
    step (Bookkeeping.attributes self) (Bookkeeping.learner_state world) in
  let recorded := Bookkeeping.step self timestamp world in
  recorded.1 = learnt.1
  ∧ Bookkeeping.learner_state recorded.2 = learnt.2
  ∧ (∀ e, learnt.1 = Err e →
       Bookkeeping._timestamp recorded.2 = Bookkeeping._timestamp world
       ∧ Bookkeeping._counter recorded.2 = Bookkeeping._counter world
       ∧ Bookkeeping.events recorded.2 = Bookkeeping.events world).
Proof.
  intros learnt recorded. unfold learnt, recorded, Bookkeeping.step.
  rewrite step_unfold.
  destruct (_replicated_step _ _) as [[fetches|e] st'].
  - destruct (increment _ _ _) as [counts counter]. cbn. done.
  - cbn. split_and!; [done..|]. by intros e' [= <-].
Qed.

(** With two edges or more, no call of [step] ever reaches the
    bookkeeping: from every state and at every time it raises, the counter
    has not been incremented, no timestamp has been recorded, and the
    checkpointer, the snapshotter and the logger have not been called. *)
Theorem step_with_two_edges_records_nothing `{Runtime}
    (self : Bookkeeping.Learner) (timestamp : number)
    (world : Bookkeeping.World) :
  2 ≤ _edge_number (Bookkeeping.attributes self) →
  ∃ e world',
    Bookkeeping.step self timestamp world = (Err e, world')
    ∧ Bookkeeping._counter world' = Bookkeeping._counter world
    ∧ Bookkeeping._timestamp world' = Bookkeeping._timestamp world
    ∧ Bookkeeping.events world' = Bookkeeping.events world.
Proof.
  intros HN.
  destruct (step_two_edges (Bookkeeping.attributes self)
              (Bookkeeping.learner_state world) HN) as (e & st' & Hstep & _).
  rewrite step_unfold in Hstep. unfold Bookkeeping.step.
  destruct (_replicated_step _ _) as [[fetches|e'] st1]; [done|].
  injection Hstep as -> ->. by eexists _, _.
Qed.

(** No call of [step] reaches the bookkeeping, whatever the learner: the
    learning step raises from every state (the dictionary of target
    actions is read under keys it was not written under), so that [step]
    raises, with an exception that is not the attribute error, and the
    counter has not been incremented, no timestamp has been recorded, and
    the checkpointer, the snapshotter and the logger have not been
    called. *)
Theorem step_never_reaches_the_bookkeeping `{Runtime}
    (self : Bookkeeping.Learner) (timestamp : number)
    (world : Bookkeeping.World) :
  (∀ i, tensor_str i ≠ "0"%string) →
  ∃ e world',
    Bookkeeping.step self timestamp world = (Err e, world')
    ∧ (∀ name, e ≠ AttributeError name)
    ∧ Bookkeeping._counter world' = Bookkeeping._counter world
    ∧ Bookkeeping._timestamp world' = Bookkeeping._timestamp world
    ∧ Bookkeeping.events world' = Bookkeeping.events world.
Proof.
  intros Hkeys.
  destruct (_replicated_step_raises Hkeys (Bookkeeping.attributes self)
              (Bookkeeping.learner_state world))
    as (e & st' & Hstep & Hne & _).
  unfold Bookkeeping.step. rewrite Hstep. by eexists _, _.
Qed.

(** * The small instance, constructed *)

Module ToyLearner.
#[local] Existing Instance Toy.toy.

Definition cpu : Accelerator.PhysicalDevice :=
  {| Accelerator.name := "/physical_device:CPU:0";
     Accelerator.device_type := "CPU" |}.

(** One CPU is visible. *)
Definition visible_devices (device_type : option string)
    : list Accelerator.PhysicalDevice :=
  match device_type with
  | None => [cpu]
  | Some t => if String.eqb t "CPU" then [cpu] else []
  end.

Lemma visible_devices_types :
  Forall (fun device_type => visible_devices (Some device_type) = [])
         Accelerator.default_wishlist →
  visible_devices None = [].
Proof.
  intros (_ & (_ & (Hcpu & _)%Forall_cons)%Forall_cons)%Forall_cons.
  discriminate Hcpu.
Qed.

(** Integers as numbers; a counter of steps and of wall time; loggers by
    their label; one CPU. *)
#[local] Instance runtime : Runtime := {|
  number := Z;
  number_0 := 0%Z;
  number_1 := 1%Z;
  number_sub := Z.sub;
  number_truth := fun x => negb (x =? 0)%Z;
  Counter := Z * Z;
  new_Counter := (0%Z, 0%Z);
  increment := fun c steps walltime =>
    let c' := ((c.1 + steps)%Z, (c.2 + walltime)%Z) in
    (<["steps" := c'.1]> (<["walltime" := c'.2]> ∅), c');
  Logger := string;
  make_default_logger := fun label => label;
  Adam := fun learning_rate => 0;
  get_visible_devices := visible_devices;
  get_visible_devices_types := visible_devices_types;
|}.

(** The learner of one edge, constructed: [tf2_utils.batch_concat]-like
    functions as observation networks, no policy optimizer given, the
    critic optimizer 1 given, no checkpointing; optimizers 0 to 9 exist. *)
Definition constructed
    : outcome (Bookkeeping.Learner * Bookkeeping.World) :=
  Bookkeeping.__init__
    [Toy.policy_net 0] [Toy.critic_net 1] [Toy.policy_net 2]
    [Toy.critic_net 3] 1%Z 2%Z [Toy.sample1]
    [Bookkeeping.Function (fun x => x)] [Bookkeeping.Function (fun x => x)]
    [None] [Some 1] true None None None false 1 1
    (fun v => (100 * Z.of_nat v)%Z) (fun _ => 0) 10 (fun world => world).

(** The learner and the world the constructor returns: the policy
    optimizer is the new Adam at reference 10. *)
Definition self : Bookkeeping.Learner := {|
  Bookkeeping.attributes := {|
    _policy_networks := [Toy.policy_net 0];
    _critic_networks := [Toy.critic_net 1];
    _target_policy_networks := [Toy.policy_net 2];
    _target_critic_networks := [Toy.critic_net 3];
    _observation_networks :=
      [Bookkeeping.to_sonnet_module (Bookkeeping.Function (fun x => x))];
    _target_observation_networks :=
      [Bookkeeping.to_sonnet_module (Bookkeeping.Function (fun x => x))];
    _discount := 1%Z;
    _clipping := true;
    _target_update_period := 2;
    _policy_optimizers := [10];
    _critic_optimizers := [1];
    _edge_number := 1;
    _edge_action_size := 1 |};
  Bookkeeping._logger := "learner";
  Bookkeeping._replicator := snt_Replicator;
  Bookkeeping._variables :=
    <["policy_network_0" := [2]]> (<["critic_network_0" := [3]]> ∅);
  Bookkeeping._checkpointer := None;
  Bookkeeping._snapshotter := None;
|}.

Definition world : Bookkeeping.World := {|
  Bookkeeping.learner_state := {|
    values := fun v => (100 * Z.of_nat v)%Z;
    _num_steps := 0;
    slots := <[10 := 0]> (fun _ => 0);
    _iterator := [Toy.sample1] |};
  Bookkeeping._timestamp := None;
  Bookkeeping._counter := (0%Z, 0%Z);
  Bookkeeping.events := [];
|}.

Lemma toy_constructed : constructed = Returned (self, world).
Proof.
  unfold constructed, Bookkeeping.__init__.
  cbn -[insert]. reflexivity.
Qed.
Lemma self_well_formed : well_formed (Bookkeeping.attributes self).
Proof.
  split.
  - repeat constructor.
  - repeat constructor.
  - repeat constructor.
  - done.
  - intros v Hv Ht. unfold online_vars, target_vars, all_variables in *.
    simpl in *. set_unfold. intuition lia.
  - intros s s' d Hs Hs'. unfold sync_pairs in *. simpl in *.
    set_unfold. intuition congruence.
Qed.


Lemma init_exposes_the_target_networks_witness :
  constructed = Returned (self, world)
  ∧ ∀ name exposed v,
      Bookkeeping._variables self !! name = Some exposed → v ∈ exposed →
      v ∈ target_vars (Bookkeeping.attributes self).
Proof.
  split; [exact toy_constructed|].
  pose proof toy_constructed as Hc. unfold constructed in Hc.
  apply init_exposes_the_target_networks in Hc as (_ & _ & Hexposed).
  exact Hexposed.
Defined.

Lemma init_creates_the_missing_optimizers_witness :
  constructed = Returned (self, world)
  ∧ length (_policy_optimizers (Bookkeeping.attributes self)) = 1
  ∧ _critic_optimizers (Bookkeeping.attributes self) !! 0 = Some 1.
Proof.
  split; [exact toy_constructed|].
  pose proof toy_constructed as Hc. unfold constructed in Hc.
  apply init_creates_the_missing_optimizers in Hc
    as (Hlen & _ & _ & Hgiven & _).
  split; [exact Hlen|]. by apply Hgiven.
Defined.



(** A learner around given attributes, with a checkpointer and a
    snapshotter, and a world in which the last step returned at time 5. *)
Definition learner (attributes : MAD3PGLearner) : Bookkeeping.Learner := {|
  Bookkeeping.attributes := attributes;
  Bookkeeping._logger := "learner";
  Bookkeeping._replicator := snt_Replicator;
  Bookkeeping._variables := ∅;
  Bookkeeping._checkpointer :=
    Some {| Bookkeeping.subdirectory := "mad3pg_learner";
            Bookkeeping.objects_to_save := ["num_steps"] |};
  Bookkeeping._snapshotter := Some {| Bookkeeping.snapshots := ["policy"] |};
|}.

Definition world_of (st : State) : Bookkeeping.World := {|
  Bookkeeping.learner_state := st;
  Bookkeeping._timestamp := Some 5%Z;
  Bookkeeping._counter := (0%Z, 0%Z);
  Bookkeeping.events := [];
|}.

Lemma step_with_two_edges_records_nothing_witness :
  ∃ e world',
    Bookkeeping.step (learner Toy.two_edges) 12%Z
      (world_of (Toy.state0 0 [Toy.sample2])) = (Err e, world')
    ∧ Bookkeeping.events world' = [].
Proof.
  destruct (step_with_two_edges_records_nothing (learner Toy.two_edges) 12%Z
              (world_of (Toy.state0 0 [Toy.sample2])))
    as (e & world' & Hstep & _ & _ & Hevents); [simpl; lia|].
  by exists e, world'.
Defined.

(** The policy of edge 0 (which adds its variable, 0) is given the slice
    of edge 0: the action of the actor loss is the joint action. *)
Lemma dpg_a_t_rebuilds_the_joint_action_witness :
  let σ := values (Toy.state0 0 []) in
  ∃ a, dpg_a_t Toy.two_edges σ 1 (constant [[401%Z; 510%Z]])
         (constant [[401%Z]]) 0 = Ok a
       ∧ value a = [[401%Z; 510%Z]].
Proof.
  intros σ.
  apply (dpg_a_t_rebuilds_the_joint_action Toy.two_edges σ 1
           (constant [[401%Z; 510%Z]]) (constant [[401%Z]])
           (Toy.policy_net 0)).
  - simpl. lia.
  - reflexivity.
  - repeat constructor.
  - reflexivity.
  - reflexivity.
Defined.

End ToyLearner.

(** * The instance with tensors as loop variables, with its bookkeeping *)

Module EagerLearner.
#[local] Existing Instance Eager.eager.

#[local] Instance runtime : Runtime := {|
  number := Z;
  number_0 := 0%Z;
  number_1 := 1%Z;
  number_sub := Z.sub;
  number_truth := fun x => negb (x =? 0)%Z;
  Counter := Z * Z;
  new_Counter := (0%Z, 0%Z);
  increment := fun c steps walltime =>
    let c' := ((c.1 + steps)%Z, (c.2 + walltime)%Z) in
    (<["steps" := c'.1]> (<["walltime" := c'.2]> ∅), c');
  Logger := string;
  make_default_logger := fun label => label;
  Adam := fun learning_rate => 0;
  get_visible_devices := ToyLearner.visible_devices;
  get_visible_devices_types := ToyLearner.visible_devices_types;
|}.

(** A learner of one edge with a checkpointer and a snapshotter, in a
    world in which nothing has been recorded: a step at time 12 raises and
    records nothing. *)
Lemma step_never_reaches_the_bookkeeping_witness :
  let self := {|
    Bookkeeping.attributes := Eager.single_edge;
    Bookkeeping._logger := "learner";
    Bookkeeping._replicator := snt_Replicator;
    Bookkeeping._variables := ∅;
    Bookkeeping._checkpointer :=
      Some {| Bookkeeping.subdirectory := "mad3pg_learner";
              Bookkeeping.objects_to_save := ["num_steps"] |};
    Bookkeeping._snapshotter :=
      Some {| Bookkeeping.snapshots := ["policy"] |} |} in
  let world := {|
    Bookkeeping.learner_state := Eager.state0 0 [Eager.sample1];
    Bookkeeping._timestamp := None;
    Bookkeeping._counter := (0%Z, 0%Z);
    Bookkeeping.events := [] |} in
  (∀ i, Eager.tensor_str i ≠ "0"%string)
  ∧ ∃ e world',
      Bookkeeping.step self 12%Z world = (Err e, world')
      ∧ Bookkeeping._counter world' = (0%Z, 0%Z)
      ∧ Bookkeeping._timestamp world' = None
      ∧ Bookkeeping.events world' = [].
Proof.
  intros self world. split; [exact Eager.tensor_str_not_decimal|].
  destruct (step_never_reaches_the_bookkeeping self 12%Z world
              Eager.tensor_str_not_decimal)
    as (e & world' & Hstep & _ & Hcounter & Htime & Hevents).
  by exists e, world'.
Defined.

(** Two actions of one row and one column: slice 1 of their concatenation
    [[401; 510]] is the second. *)
Lemma edge_slice_of_concat_witness :
  ∃ ea slice,
    concat_axis1_t [constant [[401%Z]]; constant [[510%Z]]] = Ok ea
    ∧ value ea = [[401%Z; 510%Z]]
    ∧ edge_slice Eager.two_edges 1 ea 1 = Ok slice
    ∧ value slice = [[510%Z]].
Proof.
  destruct (edge_slice_of_concat Eager.two_edges 1
              [constant [[401%Z]]; constant [[510%Z]]])
    as (ea & Hea & Hb & _ & Hslices).
  - simpl. lia.
  - reflexivity.
  - repeat constructor.
  - destruct (Hslices 1 (constant [[510%Z]]) eq_refl)
      as (slice & Hslice & Hvalue).
    exists ea, slice. split_and!; [done| |done|done].
    vm_compute in Hea. by injection Hea as <-.
Defined.
End EagerLearner.
